(** * GridWalk: the map viewer's state, browser storage and map synchronisation

    A shallow embedding of the GridWalk front end: the root page component
    ([src/app/page.tsx], in its two revisions), the sidebar, the map component
    with its style form ([src/components/Map/Map.tsx]) and the connections
    modal.  React state is a record, [localStorage] a finite map from strings
    to strings, the network an explicit outcome handed to the handler that
    awaits it, and the map instance a record of layers and sources.

    JavaScript strings are modelled by Rocq strings, one character per code
    unit in the range U+0000..U+00FF. *)

From Stdlib Require Import String Ascii ZArith List Lia Bool.
From stdpp Require Import gmap strings list.

(** ** The JSON built-in *)

Module JSON.

(** *** Values *)

Inductive digit := d0 | d1 | d2 | d3 | d4 | d5 | d6 | d7 | d8 | d9.

(** A number is kept as the decimal it denotes: a sign, its significant digits
    [s1 ... sk] and the position [point] of the decimal point, the value being
    [0.s1...sk * 10^point] (the [k], [s] and [n] of Number::toString).  The
    rounding of a Number to binary64 is outside the model. *)
Record number := Number {
  negative : bool;
  digits : list digit;
  point : Z
}.

#[local] Set Warnings "-register-all".

Inductive value :=
| JNull
| JBool (b : bool)
| JNum (n : number)
| JStr (s : string)
| JArr (vs : list value)
| JObj (ms : list (string * value)).

Section value_induction.
Variable P : value -> Prop.
Hypothesis HNull : P JNull.
Hypothesis HBool : forall b, P (JBool b).
Hypothesis HNum : forall n, P (JNum n).
Hypothesis HStr : forall s, P (JStr s).
Hypothesis HArr : forall vs, Forall P vs -> P (JArr vs).
Hypothesis HObj : forall ms, Forall (fun m => P (snd m)) ms -> P (JObj ms).

Fixpoint value_ind' (v : value) : P v :=
  match v with
  | JNull => HNull
  | JBool b => HBool b
  | JNum n => HNum n
  | JStr s => HStr s
  | JArr vs =>
      HArr vs ((fix go (l : list value) : Forall P l :=
                  match l with
                  | [] => List.Forall_nil P
                  | x :: l' => List.Forall_cons _ _ _ (value_ind' x) (go l')
                  end) vs)
  | JObj ms =>
      HObj ms ((fix go (l : list (string * value)) : Forall (fun m => P (snd m)) l :=
                  match l with
                  | [] => List.Forall_nil _
                  | x :: l' => List.Forall_cons _ _ _ (value_ind' (snd x)) (go l')
                  end) ms)
  end.
End value_induction.

(** *** Characters *)

Definition digit_char (d : digit) : ascii :=
  match d with
  | d0 => "0" | d1 => "1" | d2 => "2" | d3 => "3" | d4 => "4"
  | d5 => "5" | d6 => "6" | d7 => "7" | d8 => "8" | d9 => "9"
  end%char.

Definition char_digit (c : ascii) : option digit :=
  match c with
  | "0" => Some d0 | "1" => Some d1 | "2" => Some d2 | "3" => Some d3
  | "4" => Some d4 | "5" => Some d5 | "6" => Some d6 | "7" => Some d7
  | "8" => Some d8 | "9" => Some d9 | _ => None
  end%char.

Definition digit_val (d : digit) : Z :=
  match d with
  | d0 => 0 | d1 => 1 | d2 => 2 | d3 => 3 | d4 => 4
  | d5 => 5 | d6 => 6 | d7 => 7 | d8 => 8 | d9 => 9
  end%Z.

Definition is_zero (d : digit) : bool :=
  match d with d0 => true | _ => false end.

(** Code units below U+0020 may not occur raw inside a JSON string. *)
Definition is_control (c : ascii) : bool := (N_of_ascii c <? 32)%N.

Definition is_ws (c : ascii) : bool :=
  match c with
  | " " | "009" | "010" | "013" => true
  | _ => false
  end%char.

Definition hex_char (n : N) : ascii :=
  match n with
  | 0 => "0" | 1 => "1" | 2 => "2" | 3 => "3" | 4 => "4" | 5 => "5"
  | 6 => "6" | 7 => "7" | 8 => "8" | 9 => "9" | 10 => "a" | 11 => "b"
  | 12 => "c" | 13 => "d" | 14 => "e" | _ => "f"
  end%N%char.

Definition hex_val (c : ascii) : option N :=
  match char_digit c with
  | Some d => Some (Z.to_N (digit_val d))
  | None =>
      match c with
      | "a" | "A" => Some 10
      | "b" | "B" => Some 11
      | "c" | "C" => Some 12
      | "d" | "D" => Some 13
      | "e" | "E" => Some 14
      | "f" | "F" => Some 15
      | _ => None
      end%N%char
  end.

(** *** JSON.stringify

    The serialisers take the text that follows as a second argument, so that
    no concatenation has to be re-associated. *)

(** QuoteJSONString, one code unit. *)
Definition quote_char (c : ascii) (k : string) : string :=
  match c with
  | "034" => String "\" (String "034" k)
  | "\" => String "\" (String "\" k)
  | "008" => String "\" (String "b" k)
  | "012" => String "\" (String "f" k)
  | "010" => String "\" (String "n" k)
  | "013" => String "\" (String "r" k)
  | "009" => String "\" (String "t" k)
  | _ =>
      if is_control c
      then String "\" (String "u" (String "0" (String "0"
             (String (hex_char (N_of_ascii c / 16))
                (String (hex_char (N_of_ascii c mod 16)) k)))))
      else String c k
  end%char.

Fixpoint quote_chars (s : string) (k : string) : string :=
  match s with
  | EmptyString => k
  | String c s' => quote_char c (quote_chars s' k)
  end.

Definition print_string (s : string) (k : string) : string :=
  String "034" (quote_chars s (String "034" k)).

Fixpoint print_digits (ds : list digit) (k : string) : string :=
  match ds with
  | [] => k
  | d :: ds' => String (digit_char d) (print_digits ds' k)
  end.

Fixpoint strip_zeros (ds : list digit) : list digit :=
  match ds with
  | d :: ds' => if is_zero d then strip_zeros ds' else ds
  | [] => []
  end.

Fixpoint leading_zeros (ds : list digit) : nat :=
  match ds with
  | d :: ds' => if is_zero d then S (leading_zeros ds') else 0
  | [] => 0
  end.

(** The canonical form of a decimal: no zero digit at either end; zero has no
    digits, no sign and point 0. *)
Definition normal (n : number) : number :=
  let ds := rev (strip_zeros (rev (strip_zeros (digits n)))) in
  match ds with
  | [] => Number false [] 0
  | _ => Number (negative n) ds (point n - Z.of_nat (leading_zeros (digits n)))
  end.

(** The decimal digits of a natural number, most significant first. *)
Definition nat_digit (n : nat) : digit :=
  match n with
  | 0 => d0 | 1 => d1 | 2 => d2 | 3 => d3 | 4 => d4
  | 5 => d5 | 6 => d6 | 7 => d7 | 8 => d8 | _ => d9
  end.

Fixpoint nat_digits_aux (fuel n : nat) (acc : list digit) : list digit :=
  match fuel with
  | 0 => acc
  | S fuel' =>
      if (n <? 10)%nat then nat_digit n :: acc
      else nat_digits_aux fuel' (n / 10) (nat_digit (n mod 10) :: acc)
  end.

Definition nat_digits (n : nat) : list digit := nat_digits_aux (S n) n [].

(** Number::toString on the digits [ds] and point position [n] of a canonical
    decimal. *)
Definition print_decimal (ds : list digit) (n : Z) (k : string) : string :=
  let len := Z.of_nat (length ds) in
  match ds with
  | [] => String "0" k
  | d :: ds' =>
      if ((len <=? n) && (n <=? 21))%Z then
        print_digits ds (print_digits (repeat d0 (Z.to_nat (n - len))) k)
      else if ((0 <? n) && (n <=? 21))%Z then
        print_digits (take (Z.to_nat n) ds)
          (String "." (print_digits (drop (Z.to_nat n) ds) k))
      else if ((-6 <? n) && (n <=? 0))%Z then
        String "0" (String "."
          (print_digits (repeat d0 (Z.to_nat (- n))) (print_digits ds k)))
      else
        let e := (n - 1)%Z in
        let etext :=
          String "e" (String (if (e <? 0)%Z then "-" else "+")%char
                        (print_digits (nat_digits (Z.abs_nat e)) k)) in
        String (digit_char d)
          match ds' with
          | [] => etext
          | _ => String "." (print_digits ds' etext)
          end
  end.

Definition print_number (x : number) (k : string) : string :=
  let y := normal x in
  if negative y then String "-" (print_decimal (digits y) (point y) k)
  else print_decimal (digits y) (point y) k.

Definition print_seq {A} (p : A -> string -> string) : list A -> string -> string :=
  fix go (l : list A) (k : string) : string :=
    match l with
    | [] => k
    | x :: l' => p x match l' with [] => k | _ => String "," (go l' k) end
    end.

Fixpoint print_value (v : value) (k : string) : string :=
  match v with
  | JNull => "null" +:+ k
  | JBool true => "true" +:+ k
  | JBool false => "false" +:+ k
  | JNum n => print_number n k
  | JStr s => print_string s k
  | JArr vs => String "[" (print_seq print_value vs (String "]" k))
  | JObj ms =>
      String "{"
        (print_seq (fun m k' => print_string (fst m) (String ":" (print_value (snd m) k')))
           ms (String "}" k))
  end.

Definition stringify (v : value) : string := print_value v "".

(** *** JSON.parse *)

Fixpoint skip_ws (s : string) : string :=
  match s with
  | String c r => if is_ws c then skip_ws r else s
  | EmptyString => EmptyString
  end.

Fixpoint strip_prefix (p s : string) : option string :=
  match p, s with
  | EmptyString, _ => Some s
  | String a p', String b s' => if Ascii.eqb a b then strip_prefix p' s' else None
  | String _ _, EmptyString => None
  end.

(** The escapes of one character after the backslash. *)
Definition unescape (c : ascii) : option ascii :=
  match c with
  | "034" => Some "034"
  | "\" => Some "\"
  | "/" => Some "/"
  | "b" => Some "008"
  | "f" => Some "012"
  | "n" => Some "010"
  | "r" => Some "013"
  | "t" => Some "009"
  | _ => None
  end%char.

(** The code unit written [\uXXXX]; code units above U+00FF have no
    counterpart in the model's strings. *)
Definition hex4 (h1 h2 h3 h4 : ascii) : option ascii :=
  match hex_val h1, hex_val h2, hex_val h3, hex_val h4 with
  | Some a, Some b, Some c, Some d =>
      if ((a =? 0) && (b =? 0))%N then Some (ascii_of_N (16 * c + d)) else None
  | _, _, _, _ => None
  end.

(** The characters of a string literal, after its opening quote. *)
Fixpoint parse_chars (s : string) : option (string * string) :=
  match s with
  | EmptyString => None
  | String c r =>
      if Ascii.eqb c "034" then Some (EmptyString, r)
      else if Ascii.eqb c "\" then
        match r with
        | String e r1 =>
            if Ascii.eqb e "u" then
              match r1 with
              | String h1 (String h2 (String h3 (String h4 r2))) =>
                  match hex4 h1 h2 h3 h4, parse_chars r2 with
                  | Some c', Some (str, r3) => Some (String c' str, r3)
                  | _, _ => None
                  end
              | _ => None
              end
            else
              match unescape e, parse_chars r1 with
              | Some c', Some (str, r2) => Some (String c' str, r2)
              | _, _ => None
              end
        | EmptyString => None
        end
      else if is_control c then None
      else
        match parse_chars r with
        | Some (str, r1) => Some (String c str, r1)
        | None => None
        end
  end.

(** The longest run of decimal digits at the head of the text. *)
Fixpoint take_digits (s : string) : list digit * string :=
  match s with
  | String c r =>
      match char_digit c with
      | Some d => let '(ds, r') := take_digits r in (d :: ds, r')
      | None => ([], s)
      end
  | EmptyString => ([], EmptyString)
  end.

Definition digits_nat (ds : list digit) : nat :=
  fold_left (fun a d => 10 * a + Z.to_nat (digit_val d))%nat ds 0%nat.

(** int: a single [0], or a non-zero digit followed by digits. *)
Definition parse_int (s : string) : option (list digit * string) :=
  match s with
  | String c r =>
      match char_digit c with
      | Some d => if is_zero d then Some ([d0], r)
                  else let '(ds, r') := take_digits r in Some (d :: ds, r')
      | None => None
      end
  | EmptyString => None
  end.

(** frac: nothing, or a point followed by at least one digit. *)
Definition parse_frac (s : string) : option (list digit * string) :=
  match s with
  | String c r =>
      if Ascii.eqb c "." then
        match take_digits r with
        | ([], _) => None
        | (ds, r') => Some (ds, r')
        end
      else Some ([], s)
  | EmptyString => Some ([], s)
  end.

(** exp: nothing, or [e] or [E], an optional sign and at least one digit. *)
Definition parse_exp (s : string) : option (Z * string) :=
  match s with
  | String c r =>
      if Ascii.eqb c "e" || Ascii.eqb c "E" then
        let '(neg, r1) :=
          match r with
          | String c1 r1 =>
              if Ascii.eqb c1 "-" then (true, r1)
              else if Ascii.eqb c1 "+" then (false, r1)
              else (false, r)
          | EmptyString => (false, r)
          end in
        match take_digits r1 with
        | ([], _) => None
        | (ds, r2) =>
            let e := Z.of_nat (digits_nat ds) in
            Some (if neg then (- e)%Z else e, r2)
        end
      else Some (0%Z, s)
  | EmptyString => Some (0%Z, s)
  end.

Definition parse_unsigned (neg : bool) (s : string) : option (number * string) :=
  match parse_int s with
  | Some (int, s2) =>
      match parse_frac s2 with
      | Some (frac, s3) =>
          match parse_exp s3 with
          | Some (e, s4) =>
              Some (normal (Number neg (int ++ frac) (Z.of_nat (length int) + e)), s4)
          | None => None
          end
      | None => None
      end
  | None => None
  end.

Definition parse_number (s : string) : option (number * string) :=
  match s with
  | String c r => if Ascii.eqb c "-" then parse_unsigned true r else parse_unsigned false s
  | EmptyString => None
  end.

(** Property assignment while an object literal is read: a repeated key keeps
    its first position and takes the last value.  (The reordering of
    array-index keys that engines apply is not modelled.) *)
Fixpoint obj_set (key : string) (v : value) (ms : list (string * value))
  : list (string * value) :=
  match ms with
  | [] => [(key, v)]
  | (key', v') :: ms' =>
      if String.eqb key key' then (key, v) :: ms'
      else (key', v') :: obj_set key v ms'
  end.

Definition obj_of_members (ms : list (string * value)) : list (string * value) :=
  fold_left (fun o m => obj_set (fst m) (snd m) o) ms [].

(** Recursive descent, with fuel for the nesting; [parse] supplies enough. *)
Fixpoint parse_value (fuel : nat) (s : string) : option (value * string) :=
  match fuel with
  | 0 => None
  | S fuel =>
      match skip_ws s with
      | EmptyString => None
      | String c r =>
          if Ascii.eqb c "n" then
            match strip_prefix "ull" r with Some r' => Some (JNull, r') | None => None end
          else if Ascii.eqb c "t" then
            match strip_prefix "rue" r with Some r' => Some (JBool true, r') | None => None end
          else if Ascii.eqb c "f" then
            match strip_prefix "alse" r with Some r' => Some (JBool false, r') | None => None end
          else if Ascii.eqb c "034" then
            match parse_chars r with Some (str, r') => Some (JStr str, r') | None => None end
          else if Ascii.eqb c "[" then
            match skip_ws r with
            | String c' r' =>
                if Ascii.eqb c' "]" then Some (JArr [], r')
                else
                  match parse_elements fuel r with
                  | Some (vs, r'') => Some (JArr vs, r'')
                  | None => None
                  end
            | EmptyString => None
            end
          else if Ascii.eqb c "{" then
            match skip_ws r with
            | String c' r' =>
                if Ascii.eqb c' "}" then Some (JObj [], r')
                else
                  match parse_members fuel r with
                  | Some (ms, r'') => Some (JObj (obj_of_members ms), r'')
                  | None => None
                  end
            | EmptyString => None
            end
          else
            match parse_number (String c r) with
            | Some (n, r') => Some (JNum n, r')
            | None => None
            end
      end
  end

with parse_elements (fuel : nat) (s : string) : option (list value * string) :=
  match fuel with
  | 0 => None
  | S fuel =>
      match parse_value fuel s with
      | Some (v, r) =>
          match skip_ws r with
          | String c r' =>
              if Ascii.eqb c "," then
                match parse_elements fuel r' with
                | Some (vs, r'') => Some (v :: vs, r'')
                | None => None
                end
              else if Ascii.eqb c "]" then Some ([v], r')
              else None
          | EmptyString => None
          end
      | None => None
      end
  end

with parse_members (fuel : nat) (s : string)
  : option (list (string * value) * string) :=
  match fuel with
  | 0 => None
  | S fuel =>
      match skip_ws s with
      | String c r =>
          if Ascii.eqb c "034" then
            match parse_chars r with
            | Some (key, r1) =>
                match skip_ws r1 with
                | String c1 r2 =>
                    if Ascii.eqb c1 ":" then
                      match parse_value fuel r2 with
                      | Some (v, r3) =>
                          match skip_ws r3 with
                          | String c3 r4 =>
                              if Ascii.eqb c3 "," then
                                match parse_members fuel r4 with
                                | Some (ms, r5) => Some ((key, v) :: ms, r5)
                                | None => None
                                end
                              else if Ascii.eqb c3 "}" then Some ([(key, v)], r4)
                              else None
                          | EmptyString => None
                          end
                      | None => None
                      end
                    else None
                | EmptyString => None
                end
            | None => None
            end
          else None
      | EmptyString => None
      end
  end.

(** JSON.parse: one value, surrounded by white space only.  [None] stands for
    the SyntaxError. *)
Definition parse (s : string) : option value :=
  match parse_value (2 * String.length s + 2) s with
  | Some (v, r) =>
      match skip_ws r with
      | EmptyString => Some v
      | String _ _ => None
      end
  | None => None
  end.

(** The value a text denotes once it has gone through [parse]: numbers in
    canonical form, repeated keys resolved. *)
Fixpoint normalize (v : value) : value :=
  match v with
  | JNum n => JNum (normal n)
  | JArr vs => JArr (map normalize vs)
  | JObj ms => JObj (obj_of_members (map (fun m => (fst m, normalize (snd m))) ms))
  | _ => v
  end.

(** A Number is a binary64.  A decimal of magnitude 10^308 or more may lie
    beyond its range, where [JSON.parse] gives [Infinity] and
    [JSON.stringify] then writes [null]; the model keeps the decimals as they
    are written and has no such value.  Below that magnitude the Number
    written by [JSON.stringify] parses back to the same Number, as the
    decimal does here.  What is said about a text parsing back to the value
    it was written from is said of the values all of whose numbers are below
    10^308 in magnitude. *)
Definition in_range (n : number) : bool := (point (normal n) <=? 308)%Z.

Fixpoint finite (v : value) : bool :=
  match v with
  | JNum n => in_range n
  | JArr vs => forallb finite vs
  | JObj ms => forallb (fun m => finite (snd m)) ms
  | _ => true
  end.

(** *** Notions used in the proofs about the built-in *)

(** The text does not start with a digit. *)
Definition nondigit_head (k : string) : Prop := take_digits k = ([], k).

(** The number read from the digits [ds] after the digits read so far gave
    [a]. *)
Definition digits_from (a : nat) (ds : list digit) : nat :=
  fold_left (fun a d => 10 * a + Z.to_nat (digit_val d))%nat ds a.

(** A digit string is canonical when it is not empty and neither starts nor
    ends with a zero. *)
Definition canonical (ds : list digit) : Prop :=
  strip_zeros ds = ds /\ strip_zeros (rev ds) = rev ds /\ ds <> [].

(** A text at which a number literal ends: no digit, point or exponent mark
    follows. *)
Definition num_stop (k : string) : bool :=
  match k with
  | EmptyString => true
  | String c _ =>
      match char_digit c with
      | Some _ => false
      | None => negb (Ascii.eqb c "." || Ascii.eqb c "e" || Ascii.eqb c "E")
      end
  end.

(** A text at which a value inside an array or object, or the whole text,
    ends. *)
Definition stop (k : string) : bool :=
  match k with
  | EmptyString => true
  | String c _ => Ascii.eqb c "," || Ascii.eqb c "]" || Ascii.eqb c "}"
  end.

(** The first character of a serialised value: never white space, never a
    closing bracket. *)
Definition value_head (c : ascii) : bool :=
  negb (is_ws c) && negb (Ascii.eqb c "]") && negb (Ascii.eqb c "}").

(** With enough fuel the parser reads the serialisation of [v] back, up to
    [normalize], and leaves the rest of the text. *)
Definition roundtrips (v : value) : Prop :=
  exists N, forall fuel k, (N <= fuel)%nat -> stop k = true ->
    parse_value fuel (print_value v k) = Some (normalize v, k).

(** One member of an object, as [print_value] writes it. *)
Definition print_member (m : string * value) (k : string) : string :=
  print_string (fst m) (String ":" (print_value (snd m) k)).

End JSON.


(** ** JavaScript string operations used by the components *)

Module JS.

Definition startsWith (s p : string) : bool := String.prefix p s.

Definition endsWith (s suffix : string) : bool :=
  (String.length suffix <=? String.length s)%nat &&
  String.eqb
    (String.substring (String.length s - String.length suffix)
       (String.length suffix) s)
    suffix.

(** [s.replace(pat, rep)] with a string pattern: the first occurrence only. *)
Fixpoint replace (pat rep s : string) : string :=
  match JSON.strip_prefix pat s with
  | Some r => rep +:+ r
  | None =>
      match s with
      | String c s' => String c (replace pat rep s')
      | EmptyString => EmptyString
      end
  end.

Fixpoint join (sep : string) (l : list string) : string :=
  match l with
  | [] => EmptyString
  | [x] => x
  | x :: l' => x +:+ sep +:+ join sep l'
  end.

(** Lower case on the code units of the model: A-Z, and the upper-case
    letters of U+00C0..U+00DE. *)
Definition lower_char (c : ascii) : ascii :=
  let n := N_of_ascii c in
  if ((65 <=? n) && (n <=? 90))%N then ascii_of_N (n + 32)
  else if ((192 <=? n) && (n <=? 222) && negb (n =? 215))%N then ascii_of_N (n + 32)
  else c.

Fixpoint toLowerCase (s : string) : string :=
  match s with
  | EmptyString => EmptyString
  | String c s' => String (lower_char c) (toLowerCase s')
  end.

(** [includes] on an array of strings. *)
Definition includes (l : list string) (x : string) : bool :=
  existsb (String.eqb x) l.

(** A value of type [string | null] used as a condition. *)
Definition truthy (s : option string) : bool :=
  match s with
  | Some (String _ _) => true
  | Some EmptyString | None => false
  end.

(** ToString, on a JSON value or [undefined] ([None]). *)
Fixpoint ToString_value (v : JSON.value) : string :=
  match v with
  | JSON.JNull => "null"
  | JSON.JBool true => "true"
  | JSON.JBool false => "false"
  | JSON.JNum n => JSON.print_number n ""
  | JSON.JStr s => s
  | JSON.JArr vs =>
      join ","
        (map (fun x => match x with JSON.JNull => "" | _ => ToString_value x end) vs)
  | JSON.JObj _ => "[object Object]"
  end.

Definition ToString (v : option JSON.value) : string :=
  match v with
  | Some v => ToString_value v
  | None => "undefined"
  end.

(** A natural number in a template literal. *)
Definition nat_string (n : nat) : string :=
  JSON.print_digits (JSON.nat_digits n) "".

(** An array of strings as a JSON value, and back. *)
Definition string_array (l : list string) : JSON.value :=
  JSON.JArr (map JSON.JStr l).

Fixpoint as_strings (vs : list JSON.value) : option (list string) :=
  match vs with
  | [] => Some []
  | JSON.JStr s :: vs' =>
      match as_strings vs' with
      | Some l => Some (s :: l)
      | None => None
      end
  | _ :: _ => None
  end.

Definition as_string_array (v : JSON.value) : option (list string) :=
  match v with
  | JSON.JArr vs => as_strings vs
  | _ => None
  end.

(** Property read [v.key]: [None] is the TypeError raised on [null], an
    absent property reads as [undefined]. *)
Fixpoint lookup_member (key : string) (ms : list (string * JSON.value))
  : option JSON.value :=
  match ms with
  | [] => None
  | (k, v) :: ms' => if String.eqb key k then Some v else lookup_member key ms'
  end.

Definition get_property (v : JSON.value) (key : string) : option (option JSON.value) :=
  match v with
  | JSON.JNull => None
  | JSON.JObj ms => Some (lookup_member key ms)
  | _ => Some None
  end.

(** ToBoolean of a JSON value or [undefined]: [null], [false], zero and the
    empty string are falsy. *)
Definition truthy_value (v : option JSON.value) : bool :=
  match v with
  | None | Some JSON.JNull => false
  | Some (JSON.JBool b) => b
  | Some (JSON.JNum n) => negb (forallb JSON.is_zero (JSON.digits n))
  | Some (JSON.JStr s) => negb (String.eqb s "")
  | Some (JSON.JArr _) | Some (JSON.JObj _) => true
  end.

(** [a || b] *)
Definition or_else (a b : option JSON.value) : option JSON.value :=
  if truthy_value a then a else b.

(** Property read [v.key] on a value that may be [undefined]: [None] is the
    TypeError raised on [undefined] and [null]. *)
Definition get (v : option JSON.value) (key : string) : option (option JSON.value) :=
  match v with
  | None => None
  | Some v => get_property v key
  end.

(** Optional chaining [v?.key]: [undefined] on [undefined] and [null]. *)
Definition get_optional (v : option JSON.value) (key : string) : option JSON.value :=
  match get v key with
  | Some r => r
  | None => None
  end.

End JS.

(** ** The browser: local storage, console, network

    What a handler does to the outside is kept in a trace, in the order of the
    calls. *)

Inductive effect :=
| SetItem (key value : string)
| ConsoleError (message : string)
| Fetch (url method body : string).

Record browser := Browser {
  localStorage : gmap string string;
  trace : list effect
}.

Record response := Response {
  ok : bool;
  status : nat;
  statusText : string;
  body : string
}.

(** The promise returned by [fetch]: rejected, or resolved with a response. *)
Inductive fetch_outcome :=
| Rejected
| Resolved (r : response).

(** Handlers run on the component's state and the browser, and end with a
    value or with a raised error (its message). *)
Inductive result (A : Type) :=
| Ok (a : A)
| Raised (e : string).
Arguments Ok {A} a.
Arguments Raised {A} e.

Definition Eff (St A : Type) : Type := St * browser -> result A * (St * browser).

Global Instance Eff_ret {St} : MRet (Eff St) := fun A a s => (Ok a, s).

Global Instance Eff_bind {St} : MBind (Eff St) := fun A B k m s =>
  match m s with
  | (Ok a, s') => k a s'
  | (Raised e, s') => (Raised e, s')
  end.

Definition throw {St A} (e : string) : Eff St A := fun s => (Raised e, s).

Definition try_catch {St A} (m : Eff St A) (handler : string -> Eff St A) : Eff St A :=
  fun s =>
    match m s with
    | (Ok a, s') => (Ok a, s')
    | (Raised e, s') => handler e s'
    end.

(** try ... finally: the last block runs in both cases, and an error goes
    on. *)
Definition try_finally {St A} (m : Eff St A) (final : Eff St unit) : Eff St A :=
  fun s =>
    match m s with
    | (r, s') =>
        match final s' with
        | (Ok _, s'') => (r, s'')
        | (Raised e, s'') => (Raised e, s'')
        end
    end.

Definition get_state {St} : Eff St St := fun s => (Ok (fst s), s).

Definition set_state {St} (f : St -> St) : Eff St unit :=
  fun s => (Ok tt, (f (fst s), snd s)).

Definition on_browser {St} (f : browser -> browser) : Eff St unit :=
  fun s => (Ok tt, (fst s, f (snd s))).

Definition or_throw {St A} (e : string) (o : option A) : Eff St A :=
  match o with
  | Some a => mret a
  | None => throw e
  end.

(** [JSON.parse] and its SyntaxError; a property read and its TypeError. *)
Definition JSON_parse {St} (text : string) : Eff St JSON.value :=
  or_throw "SyntaxError" (JSON.parse text).

Definition read {St A} (o : option A) : Eff St A :=
  or_throw "TypeError" o.

Definition record (e : effect) (b : browser) : browser :=
  Browser (localStorage b) (trace b ++ [e]).

Definition storage_set (key value : string) (b : browser) : browser :=
  Browser (<[key := value]> (localStorage b)) (trace b ++ [SetItem key value]).

Definition getItem {St} (key : string) : Eff St (option string) :=
  fun s => (Ok (localStorage (snd s) !! key), s).

Definition setItem {St} (key value : string) : Eff St unit :=
  on_browser (storage_set key value).

Definition console_error {St} (message : string) : Eff St unit :=
  on_browser (record (ConsoleError message)).

(** [await fetch(url, ...)]: the request leaves, the outcome comes back. *)
Definition fetch {St} (url method body : string) (outcome : fetch_outcome)
  : Eff St response :=
  on_browser (record (Fetch url method body)) ;;
  match outcome with
  | Rejected => throw "TypeError: Failed to fetch"
  | Resolved r => mret r
  end.

Fixpoint forEach {St A} (l : list A) (f : A -> Eff St unit) : Eff St unit :=
  match l with
  | [] => mret tt
  | x :: l' => f x ;; forEach l' f
  end.

(** [l.map(f)], for a callback that reads the browser and may raise. *)
Fixpoint map_array {St A B} (l : list A) (f : A -> Eff St B) : Eff St (list B) :=
  match l with
  | [] => mret []
  | x :: l' => y ← f x; ys ← map_array l' f; mret (y :: ys)
  end.

(** The state and browser a handler leaves behind. *)
Definition run {St A} (m : Eff St A) (st : St) (b : browser) : St * browser :=
  snd (m (st, b)).

Definition writes (b : browser) : list (string * string) :=
  omap (fun e => match e with SetItem k v => Some (k, v) | _ => None end) (trace b).

Definition requests (b : browser) : list string :=
  omap (fun e => match e with Fetch url _ _ => Some url | _ => None end) (trace b).

Definition fresh (store : gmap string string) : browser := Browser store [].

Record file := File {
  name : string;
  content : string
}.

(** ** The root page, first revision (deck.gl layers; page.tsx, first part)

    Rendering and the calls of [console.log] leave the component state and
    the storage as they are, and have no part in the model. *)

Module HomeDeck.

Definition LAYER_NAMES : list string := ["roads"; "buildings"].

Record state := State {
  sidebarOpen : bool;
  activeLayers : list string;
  uploadedFiles : list string;
  activeFiles : list string;
  isDragging : bool;
  dragCounter : Z
}.

(** The values given to [useState] and [useRef]. *)
Definition initial : state := State false [] [] [] false 0.

Definition setSidebarOpen (v : bool) : Eff state unit :=
  set_state (fun s => State v (activeLayers s) (uploadedFiles s) (activeFiles s)
                        (isDragging s) (dragCounter s)).
Definition setActiveLayers (v : list string) : Eff state unit :=
  set_state (fun s => State (sidebarOpen s) v (uploadedFiles s) (activeFiles s)
                        (isDragging s) (dragCounter s)).
Definition setUploadedFiles (v : list string) : Eff state unit :=
  set_state (fun s => State (sidebarOpen s) (activeLayers s) v (activeFiles s)
                        (isDragging s) (dragCounter s)).
Definition setActiveFiles (v : list string) : Eff state unit :=
  set_state (fun s => State (sidebarOpen s) (activeLayers s) (uploadedFiles s) v
                        (isDragging s) (dragCounter s)).
Definition setIsDragging (v : bool) : Eff state unit :=
  set_state (fun s => State (sidebarOpen s) (activeLayers s) (uploadedFiles s)
                        (activeFiles s) v (dragCounter s)).
Definition setDragCounter (v : Z) : Eff state unit :=
  set_state (fun s => State (sidebarOpen s) (activeLayers s) (uploadedFiles s)
                        (activeFiles s) (isDragging s) v).

(** [items] is the length of [e.dataTransfer.items], when there is one. *)
Definition handleDragEnter (items : option nat) : Eff state unit :=
  s ← get_state;
  setDragCounter (dragCounter s + 1) ;;
  match items with
  | Some n => if (0 <? n)%nat then setIsDragging true else mret tt
  | None => mret tt
  end.

Definition handleDragLeave : Eff state unit :=
  s ← get_state;
  setDragCounter (dragCounter s - 1) ;;
  if (dragCounter s - 1 =? 0)%Z then setIsDragging false else mret tt.

Definition handleDragOver : Eff state unit := mret tt.

Definition accepted (f : file) : bool :=
  JS.endsWith (JS.toLowerCase (name f)) ".json" ||
  JS.endsWith (JS.toLowerCase (name f)) ".geojson".

(** [reader.onload] for one dropped file, once its text has been read. *)
Definition reader_onload (f : file) : Eff state unit :=
  try_catch
    (jsonData ← JSON_parse (content f);
     setItem ("file:" +:+ name f) (JSON.stringify jsonData) ;;
     s ← get_state;
     let updatedFiles := uploadedFiles s ++ [name f] in
     setItem "uploadedFiles" (JSON.stringify (JS.string_array updatedFiles)) ;;
     setUploadedFiles updatedFiles)
    (fun error => console_error "Error parsing GeoJSON file:").

(** The readers are taken to finish in the order of the dropped files. *)
Definition handleDrop (files : list file) : Eff state unit :=
  setIsDragging false ;;
  setDragCounter 0 ;;
  forEach files (fun f => if accepted f then reader_onload f else mret tt).

(** A stored list, read back into a state of type [string[]].  A value of
    another shape leaves that type; the model stops there, as it does at the
    SyntaxError of [JSON.parse]. *)
Definition parse_strings (text : string) : Eff state (list string) :=
  v ← JSON_parse text;
  read (JS.as_string_array v).

(** The effect run once, on mount. *)
Definition mount : Eff state unit :=
  savedLayers ← getItem "activeLayers";
  (if JS.truthy savedLayers
   then l ← parse_strings (default "" savedLayers); setActiveLayers l
   else setActiveLayers ["roads"]) ;;
  savedFiles ← getItem "uploadedFiles";
  (if JS.truthy savedFiles
   then l ← parse_strings (default "" savedFiles); setUploadedFiles l
   else mret tt) ;;
  savedActiveFiles ← getItem "activeFiles";
  (if JS.truthy savedActiveFiles
   then l ← parse_strings (default "" savedActiveFiles); setActiveFiles l
   else mret tt).

(** [getTooltip] of the DeckGL component.  [object] is the picked feature,
    [None] where nothing is picked; the result [None] is the falsy object
    handed back, for which no tooltip is shown. *)
Definition getTooltip (object : option JSON.value) : Eff state (option string) :=
  if negb (JS.truthy_value object) then mret None
  else
    properties ← read (JS.get object "properties");
    name ← read (JS.get properties "name");
    type ← read (JS.get properties "type");
    mret (Some (JS.ToString (JS.or_else name (Some (JSON.JStr "Unnamed Feature")))
                +:+ String "010" "Type: "
                +:+ JS.ToString (JS.or_else type (Some (JSON.JStr "Unknown"))))).

(** The hover information kept in [hoverInfo]: the pointer position and the
    picked feature. *)
Record HoverInfo := {
  x : JSON.number;
  y : JSON.number;
  object : option JSON.value
}.

(** What [renderTooltip] shows: the position of the box, the value put in its
    first paragraph and the text of its second. *)
Record Tooltip := {
  left : JSON.number;
  top : JSON.number;
  name_shown : option JSON.value;
  type_line : string
}.

(** [None] is the [null] returned where there is nothing to show. *)
Definition renderTooltip (hoverInfo : option HoverInfo) : option Tooltip :=
  match hoverInfo with
  | None => None
  | Some info =>
      if negb (JS.truthy_value (object info)) then None
      else
        let properties := JS.get_optional (object info) "properties" in
        Some {| left := x info;
                top := y info;
                name_shown :=
                  JS.or_else (JS.get_optional properties "name")
                    (Some (JSON.JStr "Unnamed Feature"));
                type_line :=
                  "Type: " +:+
                  JS.ToString (JS.or_else (JS.get_optional properties "type")
                                 (Some (JSON.JStr "Unknown"))) |}
  end.

(** The [data] URL template of the MVT layer. *)
Definition mvtLayer_data (s : state) : string :=
  "/api/tiles/{z}/{x}/{y}?layers=" +:+ JS.join "," (activeLayers s).

(** The props of a [GeoJsonLayer], the colours by their components; the
    hover callback is left out. *)
Record GeoJsonLayer := {
  id : string;
  data : JSON.value;
  pickable : bool;
  stroked : bool;
  filled : bool;
  extruded : bool;
  pointType : string;
  lineWidthScale : nat;
  lineWidthMinPixels : nat;
  getFillColor : list nat;
  getLineColor : list nat;
  getPointRadius : nat;
  getLineWidth : nat;
  getElevation : nat
}.

(** The layer of one active file: its stored text, or '{}' where there is
    none, goes through [JSON.parse]. *)
Definition geoJsonLayer (fileName : string) : Eff state GeoJsonLayer :=
  item ← getItem ("file:" +:+ fileName);
  geoJsonData ← JSON_parse (if JS.truthy item then default "" item else "{}");
  mret {| id := "geojson-" +:+ fileName;
          data := geoJsonData;
          pickable := true;
          stroked := false;
          filled := true;
          extruded := true;
          pointType := "circle";
          lineWidthScale := 20;
          lineWidthMinPixels := 2;
          getFillColor := [160; 160; 180; 200];
          getLineColor := [255; 160; 180; 200];
          getPointRadius := 100;
          getLineWidth := 1;
          getElevation := 30 |}.

Definition geoJsonLayers : Eff state (list GeoJsonLayer) :=
  s ← get_state;
  map_array (activeFiles s) geoJsonLayer.

Definition handleLayerToggle (updatedLayers : list string) : Eff state unit :=
  setActiveLayers updatedLayers ;;
  setItem "activeLayers" (JSON.stringify (JS.string_array updatedLayers)).

Definition handleFileUpload (fileName : string) : Eff state unit :=
  s ← get_state;
  let updatedFiles := uploadedFiles s ++ [fileName] in
  setUploadedFiles updatedFiles ;;
  setItem "uploadedFiles" (JSON.stringify (JS.string_array updatedFiles)).

Definition handleFileDelete (fileName : string) : Eff state unit :=
  s ← get_state;
  let updatedFiles := filter (fun file => file <> fileName) (uploadedFiles s) in
  setUploadedFiles updatedFiles ;;
  setItem "uploadedFiles" (JSON.stringify (JS.string_array updatedFiles)) ;;
  let updatedActiveFiles := filter (fun file => file <> fileName) (activeFiles s) in
  setActiveFiles updatedActiveFiles ;;
  setItem "activeFiles" (JSON.stringify (JS.string_array updatedActiveFiles)).

Definition handleFileToggle (fileName : string) (isActive : bool) : Eff state unit :=
  s ← get_state;
  let updatedActiveFiles :=
    if isActive then activeFiles s ++ [fileName]
    else filter (fun file => file <> fileName) (activeFiles s) in
  setActiveFiles updatedActiveFiles ;;
  setItem "activeFiles" (JSON.stringify (JS.string_array updatedActiveFiles)).

(** The handlers of the component. *)
Inductive event :=
| DragEnter (items : option nat)
| DragLeave
| DragOver
| Drop (files : list file)
| LayerToggle (updatedLayers : list string)
| FileUpload (fileName : string)
| FileDelete (fileName : string)
| FileToggle (fileName : string) (isActive : bool).

Definition handle (e : event) : Eff state unit :=
  match e with
  | DragEnter items => handleDragEnter items
  | DragLeave => handleDragLeave
  | DragOver => handleDragOver
  | Drop files => handleDrop files
  | LayerToggle l => handleLayerToggle l
  | FileUpload f => handleFileUpload f
  | FileDelete f => handleFileDelete f
  | FileToggle f a => handleFileToggle f a
  end.

End HomeDeck.

(** ** The sidebar (sidebar.tsx) *)

Module Sidebar.

Definition isLayerActive (activeLayers : list string) (layer : string) : bool :=
  JS.includes activeLayers layer.

(** The list handed to [onLayerToggle] when a layer's box is ticked or
    cleared. *)
Definition handleCheckboxChange (activeLayers : list string) (layerName : string)
  : list string :=
  if isLayerActive activeLayers layerName
  then filter (fun layer => layer <> layerName) activeLayers
  else activeLayers ++ [layerName].

End Sidebar.

(** ** The loading spinner (page.tsx, second part) *)

Module LoadingSpinner.

(** The value given to [useState]. *)
Definition initial : Z := 0.

(** The update the interval applies every 100 ms; [%] is the remainder. *)
Definition tick (prevRotation : Z) : Z := Z.rem (prevRotation + 45) 360.

(** The rotation after [n] runs of the interval callback. *)
Definition after (n : nat) : Z := Nat.iter n tick initial.

End LoadingSpinner.

(** ** utils/fileHandler

    The module is imported by the second revision of the page and is not
    among the sources; the page is written over its two storage helpers, and
    the versions below are what the design has them do. *)

Module FileHandler.

(** Modelled from the spec: [safeSetItem] of utils/fileHandler, whose source
    is missing.  The design keeps the selection and the uploaded files in
    browser local storage through a utility module for local-storage access:
    the helper is the write [localStorage.setItem(key, value)]. *)
Definition safeSetItem (key value : string) (b : browser) : browser :=
  storage_set key value b.

(** Modelled from the spec: [getLocalStorageItem] of utils/fileHandler, whose
    source is missing.  The design persists the layer and file selection in
    local storage, every stored key holding valid JSON: the stored text is
    read back with [JSON.parse], and the default stands in for a key that is
    absent (or whose text is not an array of strings). *)
Definition getLocalStorageItem (key : string) (defaultValue : list string)
    (b : browser) : list string :=
  match localStorage b !! key with
  | Some text =>
      match JSON.parse text with
      | Some v => default defaultValue (JS.as_string_array v)
      | None => defaultValue
      end
  | None => defaultValue
  end.

End FileHandler.

(** ** The root page, second revision (upload modal; page.tsx, second part)

    The handlers modelled are the ones whose body is in page.tsx: the drag
    handlers, the layer toggle and the upload confirmed in the modal.  The
    handlers for a dropped, uploaded, deleted or toggled file only forward to
    utils/fileHandler and are left out. *)

Module Home.

Definition LAYER_NAMES : list string := ["roads"; "buildings"].

Record state := State {
  sidebarOpen : bool;
  activeLayers : list string;
  uploadedFiles : list string;
  activeFiles : list string;
  isDragging : bool;
  isModalOpen : bool;
  currentUploadedFileName : string;
  currentUploadedFileContent : string;
  uploadError : option string;
  dragCounter : Z
}.

Definition setSidebarOpen (v : bool) : Eff state unit :=
  set_state (fun s =>
    State v (activeLayers s) (uploadedFiles s) (activeFiles s) (isDragging s)
      (isModalOpen s) (currentUploadedFileName s) (currentUploadedFileContent s)
      (uploadError s) (dragCounter s)).
Definition setActiveLayers (v : list string) : Eff state unit :=
  set_state (fun s =>
    State (sidebarOpen s) v (uploadedFiles s) (activeFiles s) (isDragging s)
      (isModalOpen s) (currentUploadedFileName s) (currentUploadedFileContent s)
      (uploadError s) (dragCounter s)).
Definition setUploadedFiles (v : list string) : Eff state unit :=
  set_state (fun s =>
    State (sidebarOpen s) (activeLayers s) v (activeFiles s) (isDragging s)
      (isModalOpen s) (currentUploadedFileName s) (currentUploadedFileContent s)
      (uploadError s) (dragCounter s)).
Definition setIsDragging (v : bool) : Eff state unit :=
  set_state (fun s =>
    State (sidebarOpen s) (activeLayers s) (uploadedFiles s) (activeFiles s) v
      (isModalOpen s) (currentUploadedFileName s) (currentUploadedFileContent s)
      (uploadError s) (dragCounter s)).
Definition setIsModalOpen (v : bool) : Eff state unit :=
  set_state (fun s =>
    State (sidebarOpen s) (activeLayers s) (uploadedFiles s) (activeFiles s)
      (isDragging s) v (currentUploadedFileName s) (currentUploadedFileContent s)
      (uploadError s) (dragCounter s)).
Definition setCurrentUploadedFileName (v : string) : Eff state unit :=
  set_state (fun s =>
    State (sidebarOpen s) (activeLayers s) (uploadedFiles s) (activeFiles s)
      (isDragging s) (isModalOpen s) v (currentUploadedFileContent s)
      (uploadError s) (dragCounter s)).
Definition setCurrentUploadedFileContent (v : string) : Eff state unit :=
  set_state (fun s =>
    State (sidebarOpen s) (activeLayers s) (uploadedFiles s) (activeFiles s)
      (isDragging s) (isModalOpen s) (currentUploadedFileName s) v
      (uploadError s) (dragCounter s)).
Definition setUploadError (v : option string) : Eff state unit :=
  set_state (fun s =>
    State (sidebarOpen s) (activeLayers s) (uploadedFiles s) (activeFiles s)
      (isDragging s) (isModalOpen s) (currentUploadedFileName s)
      (currentUploadedFileContent s) v (dragCounter s)).
Definition setDragCounter (v : Z) : Eff state unit :=
  set_state (fun s =>
    State (sidebarOpen s) (activeLayers s) (uploadedFiles s) (activeFiles s)
      (isDragging s) (isModalOpen s) (currentUploadedFileName s)
      (currentUploadedFileContent s) (uploadError s) v).

Section handlers.

(** The two helpers of utils/fileHandler the page calls itself. *)
Variable safeSetItem : string -> string -> browser -> browser.
Variable getLocalStorageItem : string -> list string -> browser -> list string.

(** The lazy initialisers of [useState], and the other initial values. *)
Definition initial (b : browser) : state :=
  State false
    (getLocalStorageItem "activeLayers" ["roads"] b)
    (getLocalStorageItem "uploadedFiles" [] b)
    (getLocalStorageItem "activeFiles" [] b)
    false false "" "" None 0.

Definition handleDragEnter (items : option nat) : Eff state unit :=
  s ← get_state;
  setDragCounter (dragCounter s + 1) ;;
  match items with
  | Some n => if (0 <? n)%nat then setIsDragging true else mret tt
  | None => mret tt
  end.

Definition handleDragLeave : Eff state unit :=
  s ← get_state;
  setDragCounter (dragCounter s - 1) ;;
  if (dragCounter s - 1 =? 0)%Z then setIsDragging false else mret tt.

Definition handleDragOver : Eff state unit := mret tt.

Definition handleLayerToggle (updatedLayers : list string) : Eff state unit :=
  setActiveLayers updatedLayers ;;
  on_browser (safeSetItem "activeLayers"
                (JSON.stringify (JS.string_array updatedLayers))).

(** The body of the [try] block; [outcome] is what the awaited [fetch] of a
    remote upload comes back with. *)
Definition upload (layerName : string) (isRemote : bool) (outcome : fetch_outcome)
    (fileContent : string) : Eff state unit :=
  jsonData ← JSON_parse fileContent;
  (if isRemote then
     response ← fetch "/api/remote-file-s3-upload" "POST"
                  (JSON.stringify
                     (JSON.JObj [("layerName", JSON.JStr layerName);
                                 ("data", jsonData)]))
                  outcome;
     (if negb (ok response)
      then
        console_error "Upload failed:" ;;
        throw ("Remote upload failed: " +:+ JS.nat_string (status response)
               +:+ " " +:+ statusText response)
      else mret tt) ;;
     result ← JSON_parse (body response);
     url ← read (JS.get_property result "url");
     on_browser (safeSetItem ("file:" +:+ layerName) (JS.ToString url))
   else
     on_browser (safeSetItem ("file:" +:+ layerName) (JSON.stringify jsonData))) ;;
  s ← get_state;
  let updatedFiles := uploadedFiles s ++ [layerName] in
  on_browser (safeSetItem "uploadedFiles"
                (JSON.stringify (JS.string_array updatedFiles))) ;;
  setUploadedFiles updatedFiles.

Definition handleLayerNameConfirm (layerName : string) (isRemote : bool)
    (outcome : fetch_outcome) : Eff state unit :=
  s ← get_state;
  try_catch
    (upload layerName isRemote outcome (currentUploadedFileContent s))
    (fun error =>
       console_error "Error handling file upload:" ;;
       setUploadError (Some "Error saving file. Please try again.")) ;;
  setIsModalOpen false ;;
  setCurrentUploadedFileName "" ;;
  setCurrentUploadedFileContent "".

End handlers.

End Home.

(** ** The connections modal *)

Module ConnectionsModal.

Record state := State {
  connections : JSON.value;
  isLoading : bool;
  error : option string
}.

Definition initial : state := State (JSON.JArr []) false None.

Definition setConnections (v : JSON.value) : Eff state unit :=
  set_state (fun s => State v (isLoading s) (error s)).
Definition setIsLoading (v : bool) : Eff state unit :=
  set_state (fun s => State (connections s) v (error s)).
Definition setError (v : option string) : Eff state unit :=
  set_state (fun s => State (connections s) (isLoading s) v).

Definition fetchConnections (outcome : fetch_outcome) : Eff state unit :=
  setIsLoading true ;;
  setError None ;;
  try_finally
    (try_catch
       (response ← fetch "/api/connections-modal" "GET" "" outcome;
        (if negb (ok response) then throw "Failed to fetch connections"
         else mret tt) ;;
        data ← JSON_parse (body response);
        setConnections data)
       (fun err =>
          setError (Some "Error fetching connections. Please try again later.") ;;
          console_error "Error fetching connections:"))
    (setIsLoading false).

(** The effect on [isOpen]. *)
Definition on_isOpen (isOpen : bool) (outcome : fetch_outcome) : Eff state unit :=
  if isOpen then fetchConnections outcome else mret tt.

End ConnectionsModal.

(** ** The map component (Map.tsx)

    The map instance is kept as its list of layers and its sources.  The
    logging call of the effect is kept for the property read in its
    argument, which can raise; what it prints is not. *)

Module MapComponent.

(** [TokenData] is declared in utils/mapHandler; the component reads its
    [access_token] only. *)
Record TokenData := { access_token : string }.

Record RequestParameters := {
  url : string;
  headers : list (string * string);
  credentials : option string
}.

(** The [transformRequest] option of the map; [origin] is
    [window.location.origin], and [None] the [undefined] returned for any
    other URL. *)
Definition transformRequest (origin : string) (tokenData : option TokenData)
    (u : string) : option RequestParameters :=
  if JS.startsWith u "https://api.os.uk" then
    Some {| url := u;
            headers :=
              [("Authorization",
                "Bearer " +:+ match tokenData with
                              | Some t => access_token t
                              | None => ""
                              end);
               ("Content-Type", "application/json")];
            credentials := None |}
  else if JS.startsWith u origin then
    Some {| url := u; headers := []; credentials := Some "same-origin" |}
  else None.

(** *** The map instance

    The part of a maplibre-gl map the component works on: the layers of its
    style, in order, and its sources. *)

Record layer := Layer {
  id : string;
  type : string;
  source : string;
  paint : list (string * JSON.value)
}.

Record source_specification := Source {
  source_type : string;
  data : JSON.value
}.

Record map_instance := MapInstance {
  layers : list layer;
  sources : gmap string source_specification
}.

Record state := State {
  mapError : option string;
  mapLoaded : bool;
  selectedLayer : option string;
  map : option map_instance;
  tokenData : option TokenData
}.

Definition initial : state := State None false None None None.

Definition setMapError (v : option string) : Eff state unit :=
  set_state (fun s => State v (mapLoaded s) (selectedLayer s) (map s) (tokenData s)).
Definition setMapLoaded (v : bool) : Eff state unit :=
  set_state (fun s => State (mapError s) v (selectedLayer s) (map s) (tokenData s)).
Definition setSelectedLayer (v : option string) : Eff state unit :=
  set_state (fun s => State (mapError s) (mapLoaded s) v (map s) (tokenData s)).
Definition set_map (v : option map_instance) : Eff state unit :=
  set_state (fun s => State (mapError s) (mapLoaded s) (selectedLayer s) v (tokenData s)).

Definition has_layer (i : string) (m : map_instance) : bool :=
  existsb (fun l => String.eqb (id l) i) (layers m).

Definition uses_source (i : string) (m : map_instance) : bool :=
  existsb (fun l => String.eqb (source l) i) (layers m).

(** [0.5] *)
Definition one_half : JSON.number := JSON.Number false [JSON.d5] 0.

(** [transformedData.features[0].geometry], the argument of the logging call:
    [None] is the TypeError of reading a property of [undefined] or [null]. *)
Definition get_index (v : JSON.value) (i : nat) : option (option JSON.value) :=
  match v with
  | JSON.JNull => None
  | JSON.JArr vs => Some (vs !! i)
  | JSON.JStr s =>
      Some (match String.get i s with
            | Some c => Some (JSON.JStr (String c EmptyString))
            | None => None
            end)
  | JSON.JObj ms =>
      Some (JS.lookup_member (JSON.print_digits (JSON.nat_digits i) "") ms)
  | _ => Some None
  end.

Definition first_feature_geometry (transformedData : JSON.value)
  : option (option JSON.value) :=
  match JS.get_property transformedData "features" with
  | Some (Some features) =>
      match get_index features 0 with
      | Some (Some feature) => JS.get_property feature "geometry"
      | _ => None
      end
  | _ => None
  end.

Section component.

(** Three functions of utils/mapHandler, which is not among the sources:
    the error reporter, handed the setter of [mapError], an error and a
    context; the token retrieval; and the coordinate transformation of a
    parsed collection, [None] when it raises. *)
Variable handleError :
  (option string -> Eff state unit) -> string -> string -> Eff state unit.
Variable getValidToken : Eff state (option string).
Variable transformGeoJsonData : JSON.value -> option JSON.value.

(** The listeners registered by [initMap]. *)
Definition on_load : Eff state unit := setMapLoaded true.

Definition on_error (e : string) : Eff state unit :=
  handleError setMapError e "Map error".

(** [features] are the ids of the layers of the rendered features at the
    clicked point. *)
Definition on_click (features : list string) : Eff state unit :=
  match features with
  | clickedLayerId :: _ =>
      if JS.startsWith clickedLayerId "geojson-layer-"
      then setSelectedLayer (Some clickedLayerId)
      else mret tt
  | [] => mret tt
  end.

(** [initMap]: [container] tells whether the container element is there,
    [created] is the instance [new maplibregl.Map] returns, or the error
    it raises. *)
Definition initMap (container : bool) (created : map_instance + string)
  : Eff state unit :=
  if negb container then mret tt
  else
    try_catch
      (getValidToken ;;
       match created with
       | inl m => set_map (Some m)
       | inr e => throw e
       end)
      (fun error => handleError setMapError error "Error initializing map").

(** *** Operations of the map instance, as maplibre-gl has them *)

Definition the_map : Eff state map_instance :=
  s ← get_state; read (map s).

(** An unknown layer is reported through the error event. *)
Definition removeLayer (i : string) : Eff state unit :=
  m ← the_map;
  if has_layer i m
  then set_map (Some (MapInstance
                        (filter (fun l => id l <> i) (layers m)) (sources m)))
  else on_error "Cannot remove non-existing layer".

(** An unknown source raises; a source still in use is reported through
    the error event and stays. *)
Definition removeSource (i : string) : Eff state unit :=
  m ← the_map;
  match sources m !! i with
  | None => throw "There is no source with this ID"
  | Some _ =>
      if uses_source i m
      then on_error "Source cannot be removed while a layer is using it"
      else set_map (Some (MapInstance (layers m) (delete i (sources m))))
  end.

Definition getSource (i : string) : Eff state (option source_specification) :=
  m ← the_map; mret (sources m !! i).

(** A source id already taken raises. *)
Definition addSource (i : string) (src : source_specification) : Eff state unit :=
  m ← the_map;
  match sources m !! i with
  | Some _ => throw "Source already exists"
  | None => set_map (Some (MapInstance (layers m) (<[i := src]> (sources m))))
  end.

(** A layer id already taken, or a source that does not exist, is reported
    through the error event. *)
Definition addLayer (l : layer) : Eff state unit :=
  m ← the_map;
  if has_layer (id l) m then on_error "Layer already exists"
  else
    match sources m !! source l with
    | None => on_error "Source not found"
    | Some _ => set_map (Some (MapInstance (layers m ++ [l]) (sources m)))
    end.

(** *** The effect on [activeFiles] and [mapLoaded] *)

Definition remove_inactive (activeFiles : list string) (l : layer) : Eff state unit :=
  if JS.startsWith (id l) "geojson-layer-" &&
     negb (JS.includes activeFiles (JS.replace "geojson-layer-" "" (id l)))
  then
    removeLayer (id l) ;;
    removeSource (JS.replace "layer" "source" (id l))
  else mret tt.

Definition add_active (fileName : string) : Eff state unit :=
  existing ← getSource ("geojson-source-" +:+ fileName);
  match existing with
  | Some _ => mret tt
  | None =>
      geojsonData ← getItem ("file:" +:+ fileName);
      if JS.truthy geojsonData then
        try_catch
          (parsedData ← JSON_parse (default "" geojsonData);
           transformedData ← or_throw "Error" (transformGeoJsonData parsedData);
           _ ← read (first_feature_geometry transformedData);
           addSource ("geojson-source-" +:+ fileName)
             (Source "geojson" transformedData) ;;
           addLayer (Layer ("geojson-layer-" +:+ fileName) "fill"
                       ("geojson-source-" +:+ fileName)
                       [("fill-color", JSON.JStr "#FF0000");
                        ("fill-opacity", JSON.JNum one_half);
                        ("fill-outline-color", JSON.JStr "#00FF00")]))
          (fun error =>
             console_error
               ("Error processing GeoJSON data for file " +:+ fileName +:+ ":"))
      else
        console_error ("No data found in localStorage for file: " +:+ fileName)
  end.

Definition sync (activeFiles : list string) : Eff state unit :=
  s ← get_state;
  match map s with
  | None => mret tt
  | Some m =>
      if negb (mapLoaded s) then mret tt
      else
        forEach (layers m) (remove_inactive activeFiles) ;;
        forEach activeFiles add_active
  end.

End component.

(** *** Restyling the selected layer *)

Section restyle.

Variable handleError :
  (option string -> Eff state unit) -> string -> string -> Eff state unit.

(** The clean-up of the initialising effect: the map is removed and the
    reference cleared. *)
Definition cleanup : Eff state unit :=
  s ← get_state;
  match map s with
  | Some _ => set_map None
  | None => mret tt
  end.

Definition set_paint (name : string) (value : JSON.value) (l : layer) : layer :=
  Layer (id l) (type l) (source l) (JSON.obj_set name value (paint l)).

(** [setPaintProperty] of the map instance, as maplibre-gl has it: an unknown
    layer is reported through the error event.  The values the form hands
    over are colours and an opacity its inputs accept. *)
Definition setPaintProperty (i name : string) (value : JSON.value) : Eff state unit :=
  m ← the_map;
  if has_layer i m
  then set_map (Some (MapInstance
                        (List.map (fun l => if String.eqb (id l) i
                                            then set_paint name value l else l)
                           (layers m))
                        (sources m)))
  else on_error handleError "Cannot style non-existing layer".

Definition updateLayerStyle (fillColor : string) (fillOpacity : JSON.number)
    (fillOutlineColor : string) : Eff state unit :=
  s ← get_state;
  match map s with
  | Some _ =>
      if JS.truthy (selectedLayer s) then
        let selected := default "" (selectedLayer s) in
        setPaintProperty selected "fill-color" (JSON.JStr fillColor) ;;
        setPaintProperty selected "fill-opacity" (JSON.JNum fillOpacity) ;;
        setPaintProperty selected "fill-outline-color" (JSON.JStr fillOutlineColor) ;;
        setSelectedLayer None
      else mret tt
  | None => mret tt
  end.

End restyle.

(** The form shown while a layer is selected.  It is unmounted when the
    selection is cleared, as it is after each save, and the next one starts
    from these values. *)
Module LayerStyleForm.

Record state := State {
  fillColor : string;
  fillOpacity : JSON.number;
  fillOutlineColor : string
}.

Definition initial : state := State "#FF0000" one_half "#00FF00".

Definition setFillColor (v : string) (s : state) : state :=
  State v (fillOpacity s) (fillOutlineColor s).
Definition setFillOpacity (v : JSON.number) (s : state) : state :=
  State (fillColor s) v (fillOutlineColor s).
Definition setFillOutlineColor (v : string) (s : state) : state :=
  State (fillColor s) (fillOpacity s) v.

Definition handleSubmit {A} (onSave : string -> JSON.number -> string -> A)
    (s : state) : A :=
  onSave (fillColor s) (fillOpacity s) (fillOutlineColor s).

End LayerStyleForm.

End MapComponent.

(** Modelled from the spec: [handleError] of utils/mapHandler, whose source is
    missing.  The design has errors caught and surfaced as UI messages: the
    reporter logs the error and sets the error state it was handed to a
    message made of the context and the error. *)
Definition handleError_model {St} (setError : option string -> Eff St unit)
    (e context : string) : Eff St unit :=
  console_error (context +:+ ":") ;;
  setError (Some (context +:+ ": " +:+ e)).

(** ** Notions used in the statements *)

(** A text [JSON.parse] accepts. *)
Definition valid_json (text : string) : Prop := is_Some (JSON.parse text).

(** Every key of the store holds valid JSON. *)
Definition valid_store (store : gmap string string) : Prop :=
  forall key text, store !! key = Some text -> valid_json text.

(** The store holds, under [key], a text that parses to the list [l]. *)
Definition holds (store : gmap string string) (key : string) (l : list string) : Prop :=
  exists text, store !! key = Some text /\ JSON.parse text = Some (JS.string_array l).

(** The list a key stands for: the stored one, or the default when the key is
    absent. *)
Definition stands_for (store : gmap string string) (key : string)
    (defaultValue l : list string) : Prop :=
  (store !! key = None /\ l = defaultValue) \/ holds store key l.

(** The three lists of the first revision's state are the ones local storage
    stands for. *)
Definition in_step (st : HomeDeck.state) (b : browser) : Prop :=
  stands_for (localStorage b) "activeLayers" ["roads"] (HomeDeck.activeLayers st) /\
  stands_for (localStorage b) "uploadedFiles" [] (HomeDeck.uploadedFiles st) /\
  stands_for (localStorage b) "activeFiles" [] (HomeDeck.activeFiles st).

(** A computation that keeps a property of the component's state, however
    it ends. *)
Definition invariant {St A} (P : St -> Prop) (m : Eff St A) : Prop :=
  forall s, P (fst s) -> P (fst (snd (m s))).

(** The component holds a map instance, and the instance has the property. *)
Definition map_satisfies (Q : MapComponent.map_instance -> Prop)
    (st : MapComponent.state) : Prop :=
  exists m, MapComponent.map st = Some m /\ Q m.

(** A style the operations of the map build: no two layers share an id, and
    the source of every layer is there. *)
Definition well_formed (m : MapComponent.map_instance) : Prop :=
  NoDup (List.map MapComponent.id (MapComponent.layers m)) /\
  forall l, l ∈ MapComponent.layers m ->
    is_Some (MapComponent.sources m !! MapComponent.source l).

(** The layers that are not the component's own, in their order. *)
Definition base_layers (m : MapComponent.map_instance) : list MapComponent.layer :=
  filter (fun l => JS.startsWith (MapComponent.id l) "geojson-layer-" = false)
    (MapComponent.layers m).

(** An error reporter that leaves the map instance alone when it is handed
    the setter of [mapError]. *)
Definition reports_only
    (handleError : (option string -> Eff MapComponent.state unit) ->
                   string -> string -> Eff MapComponent.state unit) : Prop :=
  forall e context s,
    MapComponent.map (fst (snd (handleError MapComponent.setMapError e context s)))
    = MapComponent.map (fst s).

(** A name with no comma in it. *)
Fixpoint comma_free (s : string) : bool :=
  match s with
  | EmptyString => true
  | String c s' => negb (Ascii.eqb c ",") && comma_free s'
  end.

(** Names a list can be told from when they are joined with commas: none is
    empty, none holds a comma. *)
Definition plain_names (l : list string) : Prop :=
  Forall (fun name => name <> "" /\ comma_free name = true) l.

(** The path of a request URL: the part before the query. *)
Fixpoint pathname (u : string) : string :=
  match u with
  | EmptyString => EmptyString
  | String c u' => if Ascii.eqb c "?" then EmptyString else String c (pathname u')
  end.

(** What has been written to local storage from [b] to [b'] is valid JSON. *)
Definition writes_valid_since (b b' : browser) : Prop :=
  exists ws, writes b' = writes b ++ ws /\
             Forall (fun kv => valid_json (snd kv)) ws.

(** The number of drag-enter events left unmatched by a drag-leave after a
    run of drag events that starts with [depth] of them unmatched.  [None]
    when a leave comes with no enter to match, when an enter carries no
    items, or when an event is not a drag event. *)
Fixpoint drag_depth (depth : Z) (events : list HomeDeck.event) : option Z :=
  match events with
  | [] => Some depth
  | HomeDeck.DragEnter (Some (S _)) :: events' => drag_depth (depth + 1) events'
  | HomeDeck.DragLeave :: events' =>
      if (0 <? depth)%Z then drag_depth (depth - 1) events' else None
  | HomeDeck.DragOver :: events' => drag_depth depth events'
  | _ :: _ => None
  end.

(** A computation that keeps a property of the browser, however it ends. *)
Definition preserves {St A} (P : browser -> Prop) (m : Eff St A) : Prop :=
  forall st b, P b -> P (snd (snd (m (st, b)))).
(** * Facts about the JSON built-in *)

Module JSONFacts.
Import JSON.

Lemma char_digit_digit_char d : char_digit (digit_char d) = Some d.
Proof. by destruct d. Qed.

Lemma parse_chars_quote_char c rest str k :
  parse_chars rest = Some (str, k) ->
  parse_chars (quote_char c rest) = Some (String c str, k).
Proof.
  intros H.
  destruct c as [[] [] [] [] [] [] [] []]; cbv -[parse_chars]; cbn; rewrite H; reflexivity.
Qed.

Lemma parse_chars_quote_chars s k :
  parse_chars (quote_chars s (String "034" k)) = Some (s, k).
Proof.
  induction s as [|c s IH]; [reflexivity|].
  simpl. by apply parse_chars_quote_char.
Qed.

(** Decimal digits *)

Lemma take_digits_print ds k :
  nondigit_head k -> take_digits (print_digits ds k) = (ds, k).
Proof.
  intros Hk. induction ds as [|d ds IH]; simpl; [done|].
  by rewrite char_digit_digit_char, IH.
Qed.

Lemma print_digits_app ds ds' k :
  print_digits (ds ++ ds') k = print_digits ds (print_digits ds' k).
Proof. induction ds as [|d ds IH]; simpl; congruence. Qed.

Lemma take_digits_print_app ds ds' k :
  nondigit_head k ->
  take_digits (print_digits ds (print_digits ds' k)) = (ds ++ ds', k).
Proof.
  intros Hk. induction ds as [|d ds IH]; simpl.
  - by apply take_digits_print.
  - by rewrite char_digit_digit_char, IH.
Qed.

Lemma nat_digit_val n : (n < 10)%nat -> Z.to_nat (digit_val (nat_digit n)) = n.
Proof.
  intros H. do 10 (destruct n as [|n]; [reflexivity|]). lia.
Qed.

Lemma nat_digits_aux_S fuel n acc :
  nat_digits_aux (S fuel) n acc =
  if (n <? 10)%nat then nat_digit n :: acc
  else nat_digits_aux fuel (n / 10) (nat_digit (n mod 10) :: acc).
Proof. reflexivity. Qed.

Lemma digits_from_cons a d ds :
  digits_from a (d :: ds) = digits_from (10 * a + Z.to_nat (digit_val d)) ds.
Proof. reflexivity. Qed.

Lemma digits_from_aux fuel n acc :
  (n < fuel)%nat -> digits_from 0 (nat_digits_aux fuel n acc) = digits_from n acc.
Proof.
  revert n acc. induction fuel as [|fuel IH]; intros n acc Hn; [lia|].
  rewrite nat_digits_aux_S. destruct (Nat.ltb_spec n 10) as [Hlt|Hge].
  - rewrite digits_from_cons, nat_digit_val by done. f_equal.
  - rewrite IH.
    + rewrite digits_from_cons. f_equal.
      rewrite nat_digit_val by (apply Nat.mod_upper_bound; lia).
      rewrite (Nat.div_mod_eq n 10) at 3. lia.
    + assert (n / 10 < n)%nat by (apply Nat.div_lt; lia). lia.
Qed.

Lemma digits_nat_nat_digits n : digits_nat (nat_digits n) = n.
Proof.
  unfold nat_digits. change (digits_nat ?l) with (digits_from 0 l).
  rewrite digits_from_aux by lia. reflexivity.
Qed.

Lemma nat_digits_aux_cons fuel n acc :
  exists d ds, nat_digits_aux (S fuel) n acc = d :: ds.
Proof.
  revert n acc. induction fuel as [|fuel IH]; intros n acc;
    rewrite nat_digits_aux_S; destruct (n <? 10)%nat; eauto.
Qed.

Lemma nat_digits_cons n : exists d ds, nat_digits n = d :: ds.
Proof. apply nat_digits_aux_cons. Qed.

(** Canonical digit strings *)

Lemma strip_zeros_repeat j ds :
  strip_zeros (repeat d0 j ++ ds) = strip_zeros ds.
Proof. induction j; simpl; auto. Qed.

Lemma leading_zeros_repeat j ds :
  leading_zeros (repeat d0 j ++ ds) = (j + leading_zeros ds)%nat.
Proof. induction j; simpl; auto. Qed.

Lemma strip_zeros_cons d ds : is_zero d = false -> strip_zeros (d :: ds) = d :: ds.
Proof. intros H. simpl. by rewrite H. Qed.

Lemma rev_repeat {A} (x : A) j : rev (repeat x j) = repeat x j.
Proof.
  induction j; simpl; [done|]. rewrite IHj.
  clear. induction j; simpl; [done|]. by rewrite IHj.
Qed.

Lemma strip_zeros_idem ds : strip_zeros (strip_zeros ds) = strip_zeros ds.
Proof.
  induction ds as [|d ds IH]; simpl; [done|].
  destruct (is_zero d) eqn:E; [done|]. simpl. by rewrite E.
Qed.

Lemma strip_zeros_head ds :
  match strip_zeros ds with d :: _ => is_zero d = false | [] => True end.
Proof.
  induction ds as [|d ds IH]; simpl; [done|].
  destruct (is_zero d) eqn:E; [done|]. done.
Qed.

Lemma strip_zeros_head_id ds :
  match ds with d :: _ => is_zero d = false | [] => True end -> strip_zeros ds = ds.
Proof. destruct ds as [|d ds]; simpl; [done|]. by intros ->. Qed.

Lemma strip_zeros_suffix ds : exists j, ds = repeat d0 j ++ strip_zeros ds /\ j = leading_zeros ds.
Proof.
  induction ds as [|d ds [j [IH1 IH2]]]; simpl.
  - by exists 0%nat.
  - destruct d; simpl; try (by exists 0%nat).
    exists (S j). simpl. split; congruence.
Qed.

Lemma strip_zeros_last ds d :
  is_zero d = false -> strip_zeros (ds ++ [d]) = strip_zeros ds ++ [d].
Proof.
  intros Hd. induction ds as [|x ds IH]; simpl.
  - by rewrite Hd.
  - destruct (is_zero x); [done|]. done.
Qed.

Lemma canonical_normal_digits ds :
  let ds' := rev (strip_zeros (rev (strip_zeros ds))) in
  ds' <> [] -> canonical ds'.
Proof.
  intros ds' Hne. subst ds'.
  set (a := strip_zeros ds) in *.
  assert (Ha : strip_zeros a = a) by apply strip_zeros_idem.
  set (b := strip_zeros (rev a)) in *.
  assert (Hb : strip_zeros b = b) by apply strip_zeros_idem.
  split; [|split]; [|by rewrite rev_involutive|done].
  (* the head of [rev b] is the head of [a] *)
  destruct (strip_zeros_suffix (rev a)) as [j [Hj _]]. fold b in Hj.
  assert (Hra : a = rev b ++ repeat d0 j).
  { rewrite <- (rev_involutive a), Hj, rev_app_distr, rev_repeat. done. }
  apply strip_zeros_head_id.
  destruct (rev b) as [|x l] eqn:E; [done|].
  rewrite Hra in Ha. simpl in Ha.
  destruct (is_zero x) eqn:Ex; [|done].
  exfalso.
  assert (length (strip_zeros (l ++ repeat d0 j)) <= length (l ++ repeat d0 j))%nat.
  { generalize (l ++ repeat d0 j). clear. intros l.
    induction l as [|y l IH]; simpl; [lia|]. destruct (is_zero y); simpl; lia. }
  rewrite Ha in H. simpl in H. lia.
Qed.

Lemma normal_canonical neg ds n :
  canonical ds -> normal (Number neg ds n) = Number neg ds n.
Proof.
  intros (H1 & H2 & H3). unfold normal. simpl.
  rewrite H1, H2, rev_involutive.
  destruct ds as [|d ds]; [done|].
  f_equal. simpl in H1 |- *. destruct (is_zero d); simpl; [|lia].
  exfalso.
  assert (length (strip_zeros ds) <= length ds)%nat.
  { clear. induction ds as [|y l IH]; simpl; [lia|]. destruct (is_zero y); simpl; lia. }
  rewrite H1 in H. simpl in H. lia.
Qed.

Lemma normal_cases x :
  normal x = Number false [] 0 \/
  (canonical (digits (normal x)) /\
   normal x = Number (negative x) (digits (normal x))
                (point x - Z.of_nat (leading_zeros (digits x)))).
Proof.
  destruct x as [neg ds n].
  pose proof (canonical_normal_digits ds) as Hc. simpl in Hc.
  unfold normal. simpl.
  destruct (rev (strip_zeros (rev (strip_zeros ds)))) as [|d l] eqn:E.
  - by left.
  - right. simpl. split; [by apply Hc|done].
Qed.

Lemma normal_idem x : normal (normal x) = normal x.
Proof.
  destruct (normal_cases x) as [->|[Hc ->]]; [done|].
  by apply normal_canonical.
Qed.

Lemma normal_trailing neg ds j n :
  canonical ds -> normal (Number neg (ds ++ repeat d0 j) n) = Number neg ds n.
Proof.
  intros (H1 & H2 & H3). unfold normal. simpl.
  assert (Hh : strip_zeros (ds ++ repeat d0 j) = ds ++ repeat d0 j).
  { destruct ds as [|d ds]; [done|]. simpl in *.
    destruct (is_zero d) eqn:E; [|done]. exfalso.
    assert (length (strip_zeros ds) <= length ds)%nat.
    { clear. induction ds as [|y l IH]; simpl; [lia|]. destruct (is_zero y); simpl; lia. }
    rewrite H1 in H. simpl in H. lia. }
  rewrite Hh, rev_app_distr, rev_repeat, strip_zeros_repeat, H2, rev_involutive.
  destruct ds as [|d ds]; [done|].
  f_equal. simpl in H1 |- *. destruct (is_zero d) eqn:E; simpl; [|lia].
  exfalso.
  assert (length (strip_zeros ds) <= length ds)%nat.
  { clear. induction ds as [|y l IH]; simpl; [lia|]. destruct (is_zero y); simpl; lia. }
  rewrite H1 in H. simpl in H. lia.
Qed.

Lemma normal_leading neg ds j n :
  canonical ds ->
  normal (Number neg (repeat d0 j ++ ds) n) = Number neg ds (n - Z.of_nat j).
Proof.
  intros Hc. pose proof Hc as (H1 & H2 & H3). unfold normal. simpl.
  rewrite strip_zeros_repeat, H1, H2, rev_involutive, leading_zeros_repeat.
  destruct ds as [|d ds]; [done|].
  f_equal. simpl in H1 |- *. destruct (is_zero d) eqn:E; simpl; [|lia].
  exfalso.
  assert (length (strip_zeros ds) <= length ds)%nat.
  { clear. induction ds as [|y l IH]; simpl; [lia|]. destruct (is_zero y); simpl; lia. }
  rewrite H1 in H. simpl in H. lia.
Qed.

(** Numbers *)

Lemma num_stop_nondigit k : num_stop k = true -> nondigit_head k.
Proof.
  unfold nondigit_head. destruct k as [|c k]; simpl; [done|].
  by destruct (char_digit c).
Qed.

Lemma num_stop_frac k : num_stop k = true -> parse_frac k = Some ([], k).
Proof.
  destruct k as [|c k]; simpl; [done|].
  destruct (char_digit c); [done|].
  destruct (Ascii.eqb c "."); [done|]. done.
Qed.

Lemma num_stop_exp k : num_stop k = true -> parse_exp k = Some (0%Z, k).
Proof.
  destruct k as [|c k]; simpl; [done|].
  destruct (char_digit c); [done|].
  destruct (Ascii.eqb c "."); [done|]. simpl.
  destruct (Ascii.eqb c "e" || Ascii.eqb c "E"); [done|]. done.
Qed.

Lemma canonical_head d ds : canonical (d :: ds) -> is_zero d = false.
Proof.
  intros (H1 & _ & _). simpl in H1. destruct (is_zero d) eqn:E; [|done].
  exfalso.
  assert (length (strip_zeros ds) <= length ds)%nat.
  { clear. induction ds as [|y l IH]; simpl; [lia|]. destruct (is_zero y); simpl; lia. }
  rewrite H1 in H. simpl in H. lia.
Qed.

Lemma parse_int_print d ds k :
  is_zero d = false -> nondigit_head k ->
  parse_int (print_digits (d :: ds) k) = Some (d :: ds, k).
Proof.
  intros Hd Hk. simpl. rewrite char_digit_digit_char, Hd.
  by rewrite take_digits_print.
Qed.

Lemma parse_frac_print ds k :
  ds <> [] -> nondigit_head k ->
  parse_frac (String "." (print_digits ds k)) = Some (ds, k).
Proof.
  intros Hd Hk. simpl. rewrite take_digits_print by done.
  by destruct ds.
Qed.

Lemma parse_exp_print (e : Z) k :
  nondigit_head k ->
  parse_exp (String "e" (String (if (e <? 0)%Z then "-" else "+")%char
                           (print_digits (nat_digits (Z.abs_nat e)) k)))
  = Some (e, k).
Proof.
  intros Hk.
  assert (Hd : take_digits (print_digits (nat_digits (Z.abs_nat e)) k)
               = (nat_digits (Z.abs_nat e), k)) by by apply take_digits_print.
  destruct (nat_digits_cons (Z.abs_nat e)) as (d & ds & Hds).
  pose proof (digits_nat_nat_digits (Z.abs_nat e)) as Hv.
  destruct (Z.ltb_spec e 0) as [Hneg|Hpos];
    cbn -[take_digits digits_nat nat_digits print_digits];
    rewrite Hd, Hds, <- Hds, Hv; do 2 f_equal; lia.
Qed.

Lemma nondigit_head_dot k : nondigit_head (String "." k).
Proof. reflexivity. Qed.

Lemma nondigit_head_e k : nondigit_head (String "e" k).
Proof. reflexivity. Qed.

Lemma parse_unsigned_print neg ds n k :
  canonical ds -> num_stop k = true ->
  parse_unsigned neg (print_decimal ds n k) = Some (Number neg ds n, k).
Proof.
  intros Hc Hk. unfold print_decimal.
  set (x := Number neg ds n). set (len := Z.of_nat (length ds)).
  pose proof (num_stop_nondigit _ Hk) as Hnd.
  destruct ds as [|d ds']; [by destruct Hc as (_ & _ & ?)|].
  pose proof (canonical_head _ _ Hc) as Hd.
  destruct ((len <=? n) && (n <=? 21))%Z eqn:EA.
  { (* digits followed by zeros *)
    apply andb_prop in EA as [E1 E2]. apply Z.leb_le in E1.
    unfold parse_unsigned.
    simpl print_digits. simpl parse_int.
    rewrite char_digit_digit_char, Hd, take_digits_print_app by done.
    rewrite num_stop_frac, num_stop_exp by done.
    rewrite app_nil_r. change (d :: ds' ++ ?l) with ((d :: ds') ++ l).
    rewrite normal_trailing by done.
    subst x. do 3 f_equal. rewrite length_app, repeat_length. lia. }
  destruct ((0 <? n) && (n <=? 21))%Z eqn:EB.
  { (* a point inside the digits *)
    apply andb_prop in EB as [E1 E2]. apply Z.ltb_lt in E1.
    apply andb_false_iff in EA as [EA|EA]; [apply Z.leb_gt in EA|congruence].
    unfold parse_unsigned.
    destruct (Z.to_nat n) as [|m] eqn:Em; [lia|].
    change (take (S m) (d :: ds')) with (d :: take m ds').
    rewrite parse_int_print by (done || apply nondigit_head_dot).
    rewrite parse_frac_print; [|..|done].
    2:{ intros Hnil. apply (f_equal length) in Hnil. rewrite length_drop in Hnil.
        simpl in Hnil. subst len. simpl in EA. lia. }
    rewrite num_stop_exp by done.
    change (d :: take m ds') with (take (S m) (d :: ds')).
    rewrite take_drop, normal_canonical by done.
    subst x. do 3 f_equal. rewrite length_take. subst len. simpl in *. lia. }
  destruct ((-6 <? n) && (n <=? 0))%Z eqn:EC.
  { (* zeros between the point and the digits *)
    apply andb_prop in EC as [E1 E2]. apply Z.leb_le in E2.
    unfold parse_unsigned.
    remember (d :: ds') as ds eqn:Eds.
    simpl parse_int.
    rewrite <- print_digits_app.
    rewrite parse_frac_print; [|subst ds; by destruct (Z.to_nat (- n))|done].
    rewrite num_stop_exp by done.
    change ([d0] ++ ?a ++ ?b) with (repeat d0 (S (Z.to_nat (- n))) ++ b).
    rewrite normal_leading by done.
    subst x. do 3 f_equal. simpl length. lia. }
  (* exponent form *)
  unfold parse_unsigned.
  assert (Hi : forall rest, nondigit_head rest ->
            parse_int (String (digit_char d) rest) = Some ([d], rest)).
  { intros rest Hr. apply (parse_int_print d [] rest); done. }
  destruct ds' as [|d' ds''].
  - rewrite Hi by apply nondigit_head_e.
    cbv iota beta.
    change (parse_frac (String "e" ?r)) with (Some (@nil digit, String "e" r)).
    cbv iota beta.
    rewrite parse_exp_print by done.
    rewrite normal_canonical by done.
    subst x. do 3 f_equal. simpl length. lia.
  - rewrite Hi by apply nondigit_head_dot.
    cbv iota beta.
    rewrite parse_frac_print; [|done|apply nondigit_head_e].
    rewrite parse_exp_print by done.
    change ([d] ++ d' :: ds'') with (d :: d' :: ds'').
    rewrite normal_canonical by done.
    subst x. do 3 f_equal. simpl length. lia.
Qed.

Lemma print_decimal_head ds n k :
  exists d r, print_decimal ds n k = String (digit_char d) r.
Proof.
  unfold print_decimal. destruct ds as [|d ds']; [by exists d0, k|].
  repeat case_match; try (by eexists d0, _); try (by eexists d, _).
  destruct (Z.to_nat n) eqn:E.
  - match goal with
    | H : (_ && _)%bool = true |- _ => apply andb_prop in H as [?%Z.ltb_lt _]
    end.
    lia.
  - by eexists d, _.
Qed.

Lemma parse_print_number x k :
  num_stop k = true -> parse_number (print_number x k) = Some (normal x, k).
Proof.
  intros Hk. unfold print_number.
  assert (H : parse_unsigned (negative (normal x))
                (print_decimal (digits (normal x)) (point (normal x)) k)
              = Some (normal x, k)).
  { destruct (normal_cases x) as [E|[Hc E]].
    - rewrite E. change (parse_unsigned false (String "0" k) = Some (Number false [] 0, k)).
      unfold parse_unsigned.
      change (parse_int (String "0" k)) with (Some ([d0], k)). cbv iota beta.
      rewrite num_stop_frac by done. cbv iota beta.
      by rewrite num_stop_exp.
    - rewrite parse_unsigned_print by done. by destruct (normal x). }
  destruct (negative (normal x)); [done|].
  destruct (print_decimal_head (digits (normal x)) (point (normal x)) k)
    as (d & r & Hr).
  rewrite Hr in H |- *. unfold parse_number.
  by destruct d.
Qed.

(** Values *)

Lemma stop_num_stop k : stop k = true -> num_stop k = true.
Proof.
  destruct k as [|c k]; [done|]. simpl.
  destruct (Ascii.eqb_spec c ",") as [->|]; [done|].
  destruct (Ascii.eqb_spec c "]") as [->|]; [done|].
  destruct (Ascii.eqb_spec c "}") as [->|]; [done|]. done.
Qed.

Lemma parse_value_S fuel s :
  parse_value (S fuel) s =
  match skip_ws s with
  | EmptyString => None
  | String c r =>
      if Ascii.eqb c "n" then
        match strip_prefix "ull" r with Some r' => Some (JNull, r') | None => None end
      else if Ascii.eqb c "t" then
        match strip_prefix "rue" r with Some r' => Some (JBool true, r') | None => None end
      else if Ascii.eqb c "f" then
        match strip_prefix "alse" r with Some r' => Some (JBool false, r') | None => None end
      else if Ascii.eqb c "034" then
        match parse_chars r with Some (str, r') => Some (JStr str, r') | None => None end
      else if Ascii.eqb c "[" then
        match skip_ws r with
        | String c' r' =>
            if Ascii.eqb c' "]" then Some (JArr [], r')
            else
              match parse_elements fuel r with
              | Some (vs, r'') => Some (JArr vs, r'')
              | None => None
              end
        | EmptyString => None
        end
      else if Ascii.eqb c "{" then
        match skip_ws r with
        | String c' r' =>
            if Ascii.eqb c' "}" then Some (JObj [], r')
            else
              match parse_members fuel r with
              | Some (ms, r'') => Some (JObj (obj_of_members ms), r'')
              | None => None
              end
        | EmptyString => None
        end
      else
        match parse_number (String c r) with
        | Some (n, r') => Some (JNum n, r')
        | None => None
        end
  end.
Proof. reflexivity. Qed.

Lemma parse_elements_S fuel s :
  parse_elements (S fuel) s =
  match parse_value fuel s with
  | Some (v, r) =>
      match skip_ws r with
      | String c r' =>
          if Ascii.eqb c "," then
            match parse_elements fuel r' with
            | Some (vs, r'') => Some (v :: vs, r'')
            | None => None
            end
          else if Ascii.eqb c "]" then Some ([v], r')
          else None
      | EmptyString => None
      end
  | None => None
  end.
Proof. reflexivity. Qed.

Lemma parse_members_S fuel s :
  parse_members (S fuel) s =
  match skip_ws s with
  | String c r =>
      if Ascii.eqb c "034" then
        match parse_chars r with
        | Some (key, r1) =>
            match skip_ws r1 with
            | String c1 r2 =>
                if Ascii.eqb c1 ":" then
                  match parse_value fuel r2 with
                  | Some (v, r3) =>
                      match skip_ws r3 with
                      | String c3 r4 =>
                          if Ascii.eqb c3 "," then
                            match parse_members fuel r4 with
                            | Some (ms, r5) => Some ((key, v) :: ms, r5)
                            | None => None
                            end
                          else if Ascii.eqb c3 "}" then Some ([(key, v)], r4)
                          else None
                      | EmptyString => None
                      end
                  | None => None
                  end
                else None
            | EmptyString => None
            end
        | None => None
        end
      else None
  | EmptyString => None
  end.
Proof. reflexivity. Qed.

Lemma print_number_head x k :
  exists c r, print_number x k = String c r /\
    (c = "-"%char \/ exists d, c = digit_char d).
Proof.
  unfold print_number.
  destruct (print_decimal_head (digits (normal x)) (point (normal x)) k)
    as (d & r & Hr).
  destruct (negative (normal x)).
  - eexists _, _. split; [reflexivity|by left].
  - rewrite Hr. eexists _, _. split; [reflexivity|right; eauto].
Qed.

Lemma print_value_head v k :
  exists c r, print_value v k = String c r /\ value_head c = true.
Proof.
  destruct v as [|[]|n|s|vs|ms]; try (by eexists _, _).
  destruct (print_number_head n k) as (c & r & Hr & [->|[d ->]]).
  - by exists "-"%char, r.
  - exists (digit_char d), r. split; [done|]. by destruct d.
Qed.

Lemma skip_ws_head c r : is_ws c = false -> skip_ws (String c r) = String c r.
Proof. intros H. simpl. by rewrite H. Qed.

Lemma skip_ws_print_value v k : skip_ws (print_value v k) = print_value v k.
Proof.
  destruct (print_value_head v k) as (c & r & -> & Hc).
  apply skip_ws_head. unfold value_head in Hc.
  by destruct (is_ws c).
Qed.

Lemma roundtrips_common vs :
  Forall roundtrips vs ->
  exists N, forall v, In v vs -> forall fuel k, (N <= fuel)%nat -> stop k = true ->
    parse_value fuel (print_value v k) = Some (normalize v, k).
Proof.
  induction 1 as [|v vs [N HN] _ [M HM]].
  - exists 0%nat. intros v [].
  - exists (N + M)%nat. intros w [<-|Hw] fuel k Hf Hk.
    + apply HN; [lia|done].
    + apply HM; [done|lia|done].
Qed.

Lemma parse_elements_print N vs :
  (forall v, In v vs -> forall fuel k, (N <= fuel)%nat -> stop k = true ->
     parse_value fuel (print_value v k) = Some (normalize v, k)) ->
  vs <> [] ->
  forall fuel k, (length vs + N <= fuel)%nat ->
    parse_elements fuel (print_seq print_value vs (String "]" k))
    = Some (map normalize vs, k).
Proof.
  intros HN. induction vs as [|v vs IH]; [done|]. intros _ fuel k Hf.
  destruct fuel as [|fuel]; [simpl in Hf; lia|].
  rewrite parse_elements_S.
  simpl in Hf.
  destruct vs as [|w vs].
  - simpl in Hf. simpl print_seq. rewrite HN; [reflexivity|by left|lia|done].
  - change (print_seq print_value (v :: w :: vs) (String "]" k))
      with (print_value v (String "," (print_seq print_value (w :: vs) (String "]" k)))).
    simpl in Hf. rewrite HN; [|by left|lia|done].
    change (skip_ws (String "," ?r)) with (String "," r).
    cbv iota beta. change (Ascii.eqb "," ",") with true. cbv iota.
    rewrite IH; [done| |done|simpl; lia].
    intros u Hu. apply HN. by right.
Qed.

Lemma parse_members_print N ms :
  (forall m, In m ms -> forall fuel k, (N <= fuel)%nat -> stop k = true ->
     parse_value fuel (print_value (snd m) k) = Some (normalize (snd m), k)) ->
  ms <> [] ->
  forall fuel k, (length ms + N <= fuel)%nat ->
    parse_members fuel (print_seq print_member ms (String "}" k))
    = Some (map (fun m => (fst m, normalize (snd m))) ms, k).
Proof.
  intros HN. induction ms as [|m ms IH]; [done|]. intros _ fuel k Hf.
  destruct fuel as [|fuel]; [simpl in Hf; lia|].
  rewrite parse_members_S.
  destruct ms as [|m' ms].
  - simpl in Hf. simpl print_seq. unfold print_member, print_string.
    change (skip_ws (String "034" ?r)) with (String "034" r). cbv iota beta.
    change (Ascii.eqb "034" "034") with true. cbv iota.
    rewrite parse_chars_quote_chars.
    change (skip_ws (String ":" ?r)) with (String ":" r). cbv iota beta.
    change (Ascii.eqb ":" ":") with true. cbv iota.
    rewrite HN; [reflexivity|by left|lia|done].
  - simpl in Hf.
    change (print_seq print_member (m :: m' :: ms) (String "}" k))
      with (print_member m (String "," (print_seq print_member (m' :: ms) (String "}" k)))).
    unfold print_member at 1. unfold print_string.
    change (skip_ws (String "034" ?r)) with (String "034" r). cbv iota beta.
    change (Ascii.eqb "034" "034") with true. cbv iota.
    rewrite parse_chars_quote_chars.
    change (skip_ws (String ":" ?r)) with (String ":" r). cbv iota beta.
    change (Ascii.eqb ":" ":") with true. cbv iota.
    rewrite HN; [|by left|lia|done].
    change (skip_ws (String "," ?r)) with (String "," r).
    cbv iota beta. change (Ascii.eqb "," ",") with true. cbv iota.
    rewrite IH; [done| |done|simpl; lia].
    intros u Hu. apply HN. by right.
Qed.

Lemma parse_value_string fuel r :
  parse_value (S fuel) (String "034" r) =
  match parse_chars r with Some (str, r') => Some (JStr str, r') | None => None end.
Proof. reflexivity. Qed.

Lemma parse_value_number fuel c r :
  c = "-"%char \/ (exists d, c = digit_char d) ->
  parse_value (S fuel) (String c r) =
  match parse_number (String c r) with
  | Some (n, r') => Some (JNum n, r')
  | None => None
  end.
Proof. intros [->|[[] ->]]; reflexivity. Qed.

Lemma parse_value_array fuel v rest :
  parse_value (S fuel) (String "[" (print_value v rest)) =
  match parse_elements fuel (print_value v rest) with
  | Some (vs, r) => Some (JArr vs, r)
  | None => None
  end.
Proof.
  rewrite parse_value_S.
  change (skip_ws (String "[" ?r)) with (String "[" r). cbv iota beta.
  repeat (progress change (Ascii.eqb "[" ?c) with false; cbv iota).
  change (Ascii.eqb "[" "[") with true. cbv iota.
  rewrite skip_ws_print_value.
  destruct (print_value_head v rest) as (c & r & -> & Hc).
  unfold value_head in Hc.
  destruct (Ascii.eqb c "]"); [|done].
  by rewrite andb_false_r in Hc.
Qed.

Lemma parse_value_object fuel key r :
  parse_value (S fuel) (String "{" (print_string key r)) =
  match parse_members fuel (print_string key r) with
  | Some (ms, r') => Some (JObj (obj_of_members ms), r')
  | None => None
  end.
Proof. reflexivity. Qed.

Lemma print_seq_cons {A} (p : A -> string -> string) x l k :
  exists rest, print_seq p (x :: l) k = p x rest.
Proof. destruct l; simpl; eauto. Qed.

Theorem parse_print_value v : roundtrips v.
Proof.
  induction v as [|b|n|s|vs IH|ms IH] using value_ind'.
  - exists 1%nat. intros [|fuel] k Hf Hk; [lia|]. reflexivity.
  - exists 1%nat. intros [|fuel] k Hf Hk; [lia|]. by destruct b.
  - exists 1%nat. intros [|fuel] k Hf Hk; [lia|].
    simpl print_value.
    destruct (print_number_head n k) as (c & r & Hr & Hc).
    rewrite Hr, parse_value_number, <- Hr by done.
    by rewrite parse_print_number by by apply stop_num_stop.
  - exists 1%nat. intros [|fuel] k Hf Hk; [lia|].
    simpl print_value. unfold print_string.
    by rewrite parse_value_string, parse_chars_quote_chars.
  - destruct (roundtrips_common vs IH) as [N HN].
    exists (S (length vs + N)). intros [|fuel] k Hf Hk; [lia|].
    destruct vs as [|v vs]; [reflexivity|].
    change (print_value (JArr (v :: vs)) k)
      with (String "[" (print_seq print_value (v :: vs) (String "]" k))).
    destruct (print_seq_cons print_value v vs (String "]" k)) as [rest Hrest].
    rewrite Hrest, parse_value_array, <- Hrest.
    rewrite (parse_elements_print N); [done|done|done|lia].
  - assert (IH' : Forall roundtrips (map snd ms)).
    { clear -IH. induction IH; simpl; constructor; auto. }
    destruct (roundtrips_common _ IH') as [N HN].
    exists (S (length ms + N)). intros [|fuel] k Hf Hk; [lia|].
    destruct ms as [|m ms]; [reflexivity|].
    change (print_value (JObj (m :: ms)) k)
      with (String "{" (print_seq print_member (m :: ms) (String "}" k))).
    destruct (print_seq_cons print_member m ms (String "}" k)) as [rest Hrest].
    rewrite Hrest. unfold print_member at 1.
    rewrite parse_value_object.
    change (print_string m.1 (String ":" (print_value m.2 rest)))
      with (print_member m rest).
    rewrite <- Hrest.
    rewrite (parse_members_print N); [done| |done|lia].
    intros m' Hm'. apply HN. by apply in_map.
Qed.

(** Fuel *)

Lemma skip_ws_length s : (String.length (skip_ws s) <= String.length s)%nat.
Proof.
  induction s as [|c s IH]; simpl; [lia|].
  destruct (is_ws c); simpl; lia.
Qed.

Lemma skip_ws_cons_length s c r :
  skip_ws s = String c r -> (String.length r < String.length s)%nat.
Proof.
  intros H. pose proof (skip_ws_length s) as Hl. rewrite H in Hl. simpl in Hl. lia.
Qed.

Lemma strip_prefix_length p s r :
  strip_prefix p s = Some r -> (String.length r <= String.length s)%nat.
Proof.
  revert s. induction p as [|a p IH]; intros s H.
  - simpl in H. simplify_eq. lia.
  - destruct s as [|b s]; simpl in H; [done|].
    destruct (Ascii.eqb a b); [|done]. apply IH in H. simpl. lia.
Qed.

Lemma parse_chars_length s str r :
  parse_chars s = Some (str, r) -> (String.length r < String.length s)%nat.
Proof.
  assert (Hn : forall n s, (String.length s <= n)%nat -> forall str r,
            parse_chars s = Some (str, r) ->
            (String.length r < String.length s)%nat).
  { clear. induction n as [|n IH]; intros s Hs str r H.
    { destruct s; [done|simpl in Hs; lia]. }
    destruct s as [|c s]; [done|]. simpl in H, Hs.
    destruct (Ascii.eqb c "034"); [simplify_eq; simpl; lia|].
    destruct (Ascii.eqb c "\").
    - destruct s as [|e r1]; [done|].
      destruct (Ascii.eqb e "u").
      + destruct r1 as [|h1 [|h2 [|h3 [|h4 r2]]]]; try done.
        destruct (hex4 h1 h2 h3 h4); [|done].
        destruct (parse_chars r2) as [[str' r3]|] eqn:E; [|done]. simplify_eq.
        apply IH in E; simpl in *; lia.
      + destruct (unescape e); [|done].
        destruct (parse_chars r1) as [[str' r3]|] eqn:E; [|done]. simplify_eq.
        apply IH in E; simpl in *; lia.
    - destruct (is_control c); [done|].
      destruct (parse_chars s) as [[str' r3]|] eqn:E; [|done]. simplify_eq.
      apply IH in E; simpl in *; lia. }
  by apply (Hn (String.length s)).
Qed.

Lemma take_digits_length s ds r :
  take_digits s = (ds, r) -> (String.length r <= String.length s)%nat.
Proof.
  revert ds r. induction s as [|c s IH]; intros ds r H; simpl in H.
  - by simplify_eq.
  - destruct (char_digit c).
    + destruct (take_digits s) as [ds' r'] eqn:E. simplify_eq.
      specialize (IH _ _ eq_refl). simpl. lia.
    + by simplify_eq.
Qed.

Lemma parse_unsigned_length neg s n r :
  parse_unsigned neg s = Some (n, r) -> (String.length r < String.length s)%nat.
Proof.
  unfold parse_unsigned. intros H.
  destruct (parse_int s) as [[int s2]|] eqn:E1; [|done].
  destruct (parse_frac s2) as [[frac s3]|] eqn:E2; [|done].
  destruct (parse_exp s3) as [[e s4]|] eqn:E3; [|done]. simplify_eq.
  assert (String.length s2 < String.length s)%nat.
  { unfold parse_int in E1. destruct s as [|c s]; [done|].
    destruct (char_digit c); [|done].
    destruct (is_zero d); [simplify_eq; simpl; lia|].
    destruct (take_digits s) as [ds r'] eqn:E. simplify_eq.
    apply take_digits_length in E. simpl. lia. }
  assert (String.length s3 <= String.length s2)%nat.
  { unfold parse_frac in E2. destruct s2 as [|c s2]; [by simplify_eq|].
    destruct (Ascii.eqb c "."); [|by simplify_eq].
    destruct (take_digits s2) as [[|d ds] r'] eqn:E; [done|]. simplify_eq.
    apply take_digits_length in E. simpl. lia. }
  assert (String.length r <= String.length s3)%nat.
  { unfold parse_exp in E3. destruct s3 as [|c s3]; [by simplify_eq|].
    destruct (Ascii.eqb c "e" || Ascii.eqb c "E"); [|by simplify_eq].
    match type of E3 with
    | (let '(_, _) := ?x in _) = _ => destruct x as [ng r1] eqn:E
    end.
    assert (String.length r1 <= String.length s3)%nat.
    { destruct s3 as [|c1 s3]; [by simplify_eq|].
      destruct (Ascii.eqb c1 "-"); [simplify_eq; simpl; lia|].
      destruct (Ascii.eqb c1 "+"); simplify_eq; simpl; lia. }
    destruct (take_digits r1) as [[|d ds] r'] eqn:E'; [done|]. simplify_eq.
    apply take_digits_length in E'. simpl. lia. }
  lia.
Qed.

Lemma parse_number_length s n r :
  parse_number s = Some (n, r) -> (String.length r < String.length s)%nat.
Proof.
  unfold parse_number. destruct s as [|c s]; [done|].
  destruct (Ascii.eqb c "-"); intros H%parse_unsigned_length; simpl in *; lia.
Qed.

(** Length facts for the texts handed from one parsing step to the next. *)
Ltac length_facts :=
  repeat match goal with
  | H : skip_ws ?s = String _ ?r |- _ =>
      lazymatch goal with
      | _ : (String.length r < String.length s)%nat |- _ => fail
      | _ => pose proof (skip_ws_cons_length _ _ _ H)
      end
  | H : strip_prefix _ ?s = Some ?r |- _ =>
      lazymatch goal with
      | _ : (String.length r <= String.length s)%nat |- _ => fail
      | _ => pose proof (strip_prefix_length _ _ _ H)
      end
  | H : parse_chars ?s = Some (_, ?r) |- _ =>
      lazymatch goal with
      | _ : (String.length r < String.length s)%nat |- _ => fail
      | _ => pose proof (parse_chars_length _ _ _ H)
      end
  | H : parse_number ?s = Some (_, ?r) |- _ =>
      lazymatch goal with
      | _ : (String.length r < String.length s)%nat |- _ => fail
      | _ => pose proof (parse_number_length _ _ _ H)
      end
  end.

(** One case distinction on the scrutinee at the head of [H]. *)
Ltac parse_step H :=
  match type of H with
  | match ?x with _ => _ end = _ =>
      lazymatch type of x with
      | option (_ * _) => destruct x as [[? ?]|] eqn:?
      | _ => destruct x eqn:?
      end; try discriminate H
  end.

Lemma parse_consumes fuel :
  (forall s v r, parse_value fuel s = Some (v, r) ->
     (String.length r < String.length s)%nat) /\
  (forall s vs r, parse_elements fuel s = Some (vs, r) ->
     (String.length r < String.length s)%nat) /\
  (forall s ms r, parse_members fuel s = Some (ms, r) ->
     (String.length r < String.length s)%nat).
Proof.
  induction fuel as [|fuel (IHv & IHe & IHm)]; [done|].
  split; [|split].
  - intros s v r H. rewrite parse_value_S in H.
    repeat parse_step H; simplify_eq; length_facts;
      repeat match goal with
      | H : parse_elements fuel _ = Some _ |- _ => apply IHe in H
      | H : parse_members fuel _ = Some _ |- _ => apply IHm in H
      end; simpl in *; lia.
  - intros s vs r H. rewrite parse_elements_S in H.
    repeat parse_step H; simplify_eq; length_facts;
      repeat match goal with
      | H : parse_value fuel _ = Some _ |- _ => apply IHv in H
      | H : parse_elements fuel _ = Some _ |- _ => apply IHe in H
      end; simpl in *; lia.
  - intros s ms r H. rewrite parse_members_S in H.
    repeat parse_step H; simplify_eq; length_facts;
      repeat match goal with
      | H : parse_value fuel _ = Some _ |- _ => apply IHv in H
      | H : parse_members fuel _ = Some _ |- _ => apply IHm in H
      end; simpl in *; lia.
Qed.

Ltac consume_facts :=
  length_facts;
  repeat match goal with
  | H : parse_value _ ?s = Some (_, ?r) |- _ =>
      lazymatch goal with
      | _ : (String.length r < String.length s)%nat |- _ => fail
      | _ => pose proof (proj1 (parse_consumes _) _ _ _ H)
      end
  | H : parse_elements _ ?s = Some (_, ?r) |- _ =>
      lazymatch goal with
      | _ : (String.length r < String.length s)%nat |- _ => fail
      | _ => pose proof (proj1 (proj2 (parse_consumes _)) _ _ _ H)
      end
  | H : parse_members _ ?s = Some (_, ?r) |- _ =>
      lazymatch goal with
      | _ : (String.length r < String.length s)%nat |- _ => fail
      | _ => pose proof (proj2 (proj2 (parse_consumes _)) _ _ _ H)
      end
  end.

(** A result obtained with some fuel is obtained with the fuel [parse]
    supplies: [None] from [parse] is a syntax error, never a lack of fuel. *)
Lemma parse_fuel_enough fuel' :
  (forall s res, parse_value fuel' s = Some res ->
     forall fuel, (2 * String.length s + 1 <= fuel)%nat ->
     parse_value fuel s = Some res) /\
  (forall s res, parse_elements fuel' s = Some res ->
     forall fuel, (2 * String.length s + 2 <= fuel)%nat ->
     parse_elements fuel s = Some res) /\
  (forall s res, parse_members fuel' s = Some res ->
     forall fuel, (2 * String.length s + 2 <= fuel)%nat ->
     parse_members fuel s = Some res).
Proof.
  induction fuel' as [|fuel' (IHv & IHe & IHm)]; [done|].
  split; [|split].
  - intros s res H [|fuel] Hf; [lia|].
    rewrite parse_value_S in H |- *.
    repeat (parse_step H;
      try match goal with
      | E : parse_elements fuel' ?r = Some ?x |- _ =>
          rewrite (IHe _ _ E fuel) by (consume_facts; simpl in *; lia)
      | E : parse_members fuel' ?r = Some ?x |- _ =>
          rewrite (IHm _ _ E fuel) by (consume_facts; simpl in *; lia)
      end); done.
  - intros s res H [|fuel] Hf; [lia|].
    rewrite parse_elements_S in H |- *.
    parse_step H.
    match goal with
    | E : parse_value fuel' ?r = Some ?x |- _ =>
        rewrite (IHv _ _ E fuel) by (consume_facts; simpl in *; lia)
    end.
    repeat (parse_step H;
      try match goal with
      | E : parse_elements fuel' ?r = Some ?x |- _ =>
          rewrite (IHe _ _ E fuel) by (consume_facts; simpl in *; lia)
      end); done.
  - intros s res H [|fuel] Hf; [lia|].
    rewrite parse_members_S in H |- *.
    repeat (parse_step H;
      try match goal with
      | E : parse_value fuel' ?r = Some ?x |- context [parse_value fuel ?r] =>
          rewrite (IHv _ _ E fuel) by (consume_facts; simpl in *; lia)
      | E : parse_members fuel' ?r = Some ?x |- context [parse_members fuel ?r] =>
          rewrite (IHm _ _ E fuel) by (consume_facts; simpl in *; lia)
      end); done.
Qed.

Theorem parse_stringify v : parse (stringify v) = Some (normalize v).
Proof.
  destruct (parse_print_value v) as [N HN].
  unfold parse, stringify.
  rewrite (proj1 (parse_fuel_enough N) _ _ (HN N EmptyString (le_n _) eq_refl))
    by lia.
  reflexivity.
Qed.

(** [parse] fails only where no amount of fuel would read a value followed
    by white space. *)
Theorem parse_complete s fuel v r :
  parse_value fuel s = Some (v, r) -> skip_ws r = EmptyString ->
  parse s = Some v.
Proof.
  intros H Hr. unfold parse.
  rewrite (proj1 (parse_fuel_enough fuel) _ _ H) by lia.
  by rewrite Hr.
Qed.

(** Parsed values are canonical *)

Lemma obj_set_fresh key v ms :
  key ∉ map fst ms -> obj_set key v ms = ms ++ [(key, v)].
Proof.
  induction ms as [|[k' v'] ms IH]; intros Hk; simpl; [done|].
  simpl in Hk. rewrite not_elem_of_cons in Hk. destruct Hk as [Hne Hk].
  destruct (String.eqb_spec key k'); [done|]. by rewrite IH.
Qed.

Lemma obj_set_keys key v ms :
  NoDup (map fst ms) -> NoDup (map fst (obj_set key v ms)).
Proof.
  induction ms as [|[k' v'] ms IH]; intros Hnd; simpl.
  - apply NoDup_singleton.
  - simpl in Hnd. apply NoDup_cons in Hnd as [Hk' Hnd].
    destruct (String.eqb_spec key k') as [->|Hne]; simpl.
    + by apply NoDup_cons.
    + apply NoDup_cons. split; [|by apply IH].
      intros Hin. apply Hk'. clear -Hin Hne.
      induction ms as [|[k'' v''] ms IH]; simpl in *.
      * apply list_elem_of_singleton in Hin. congruence.
      * destruct (String.eqb_spec key k'') as [->|Hne'']; simpl in *.
        -- apply elem_of_cons in Hin as [?|?]; [congruence|].
           apply elem_of_cons. by right.
        -- apply elem_of_cons in Hin as [?|?]; apply elem_of_cons; auto.
Qed.

Lemma obj_set_values (P : value -> Prop) key v ms :
  P v -> Forall (fun m => P (snd m)) ms ->
  Forall (fun m => P (snd m)) (obj_set key v ms).
Proof.
  intros Hv. induction 1 as [|[k' v'] ms Hm Hms IH]; simpl.
  - by constructor.
  - destruct (String.eqb key k'); constructor; auto.
Qed.

Lemma fold_obj_set_inv (Q : list (string * value) -> Prop) ms acc :
  Q acc ->
  (forall m o, In m ms -> Q o -> Q (obj_set (fst m) (snd m) o)) ->
  Q (fold_left (fun o m => obj_set (fst m) (snd m) o) ms acc).
Proof.
  revert acc. induction ms as [|m ms IH]; intros acc Hacc Hstep; simpl; [done|].
  apply IH.
  - apply Hstep; [by left|done].
  - intros m' o Hin. apply Hstep. by right.
Qed.

Lemma obj_of_members_keys ms : NoDup (map fst (obj_of_members ms)).
Proof.
  unfold obj_of_members.
  apply (fold_obj_set_inv (fun o => NoDup (map fst o))); [constructor|].
  intros m o _. apply obj_set_keys.
Qed.

Lemma obj_of_members_values (P : value -> Prop) ms :
  Forall (fun m => P (snd m)) ms ->
  Forall (fun m => P (snd m)) (obj_of_members ms).
Proof.
  intros H. unfold obj_of_members.
  apply (fold_obj_set_inv (fun o => Forall (fun m => P (snd m)) o)); [constructor|].
  intros m o Hin. apply obj_set_values.
  rewrite Forall_forall in H. apply H. by apply list_elem_of_In.
Qed.

Lemma fold_obj_set_nodup ms acc :
  NoDup (map fst (acc ++ ms)) ->
  fold_left (fun o m => obj_set (fst m) (snd m) o) ms acc = acc ++ ms.
Proof.
  revert acc. induction ms as [|[k v] ms IH]; intros acc Hnd; simpl.
  - by rewrite app_nil_r.
  - rewrite obj_set_fresh.
    + rewrite IH.
      * by rewrite <- app_assoc.
      * by rewrite <- app_assoc.
    + rewrite map_app in Hnd. apply NoDup_app in Hnd as (_ & Hd & _).
      intros Hin. apply (Hd _ Hin). simpl. apply elem_of_cons. by left.
Qed.

Lemma obj_of_members_nodup ms :
  NoDup (map fst ms) -> obj_of_members ms = ms.
Proof. intros H. by apply (fold_obj_set_nodup ms []). Qed.

Lemma parse_number_normal s n r :
  parse_number s = Some (n, r) -> normal n = n.
Proof.
  assert (Hu : forall neg s, parse_unsigned neg s = Some (n, r) -> normal n = n).
  { intros neg s' H. unfold parse_unsigned in H.
    repeat parse_step H. simplify_eq. apply normal_idem. }
  unfold parse_number. destruct s as [|c s]; [done|].
  destruct (Ascii.eqb c "-"); eauto.
Qed.

Lemma normalize_fixed_list vs :
  Forall (fun v => normalize v = v) vs -> map normalize vs = vs.
Proof. induction 1; simpl; congruence. Qed.

Lemma normalize_fixed_members (ms : list (string * value)) :
  Forall (fun m => normalize (snd m) = snd m) ms ->
  map (fun m => (fst m, normalize (snd m))) ms = ms.
Proof.
  induction 1 as [|[k v] ms Hm Hms IH]; simpl; [done|].
  simpl in Hm. congruence.
Qed.

Lemma parse_normal fuel :
  (forall s v r, parse_value fuel s = Some (v, r) -> normalize v = v) /\
  (forall s vs r, parse_elements fuel s = Some (vs, r) ->
     Forall (fun v => normalize v = v) vs) /\
  (forall s ms r, parse_members fuel s = Some (ms, r) ->
     Forall (fun m => normalize (snd m) = snd m) ms).
Proof.
  induction fuel as [|fuel (IHv & IHe & IHm)]; [done|].
  split; [|split].
  - intros s v r H. rewrite parse_value_S in H.
    repeat parse_step H; simplify_eq; try reflexivity.
    + simpl. f_equal. apply normalize_fixed_list. eauto.
    + simpl. f_equal.
      match goal with
      | E : parse_members fuel _ = Some _ |- _ => apply IHm in E; rename E into Hms
      end.
      apply (obj_of_members_values (fun v => normalize v = v)) in Hms.
      rewrite normalize_fixed_members by done.
      apply obj_of_members_nodup, obj_of_members_keys.
    + simpl. f_equal. eapply parse_number_normal. eassumption.
  - intros s vs r H. rewrite parse_elements_S in H.
    repeat parse_step H; simplify_eq; constructor; eauto.
  - intros s ms r H. rewrite parse_members_S in H.
    repeat parse_step H; simplify_eq; constructor; simpl; eauto.
Qed.

(** What [parse] returns is in canonical form: serialising it and parsing
    the text again gives the same value. *)
Theorem parse_normalize s v : parse s = Some v -> normalize v = v.
Proof.
  unfold parse. intros H. repeat parse_step H. simplify_eq.
  eapply (proj1 (parse_normal _)). eassumption.
Qed.


End JSONFacts.

(** * The claims *)

Import JSONFacts.

#[local] Arguments JSON.parse : simpl never.
#[local] Arguments JSON.stringify : simpl never.
#[local] Arguments JS.string_array : simpl never.
#[local] Arguments JS.as_string_array : simpl never.

(** Unfolding of the handler language. *)
Ltac eff :=
  repeat (progress
    (unfold run, JSON_parse, read, fetch, setItem, getItem, console_error,
       try_catch, try_finally, or_throw, throw, on_browser, set_state,
       get_state, mbind, mret, Eff_bind, Eff_ret, storage_set, record in *;
     cbn in *)).

Lemma normalize_string_array l : JSON.normalize (JS.string_array l) = JS.string_array l.
Proof.
  unfold JS.string_array. simpl. f_equal.
  induction l as [|x l IH]; simpl; congruence.
Qed.

Lemma parse_string_array l :
  JSON.parse (JSON.stringify (JS.string_array l)) = Some (JS.string_array l).
Proof. by rewrite parse_stringify, normalize_string_array. Qed.

Lemma as_string_array_string_array l :
  JS.as_string_array (JS.string_array l) = Some l.
Proof.
  unfold JS.string_array, JS.as_string_array.
  induction l as [|x l IH]; simpl; [done|]. by rewrite IH.
Qed.

Lemma valid_stringify v : valid_json (JSON.stringify v).
Proof. unfold valid_json. rewrite parse_stringify. eauto. Qed.

Lemma holds_insert store key l :
  holds (<[key := JSON.stringify (JS.string_array l)]> store) key l.
Proof.
  eexists. split; [apply lookup_insert_eq|apply parse_string_array].
Qed.

Lemma holds_insert_ne store key key' text l :
  key <> key' -> holds store key l -> holds (<[key' := text]> store) key l.
Proof.
  intros Hne (t & Ht & Hp). exists t. split; [|done].
  by rewrite lookup_insert_ne.
Qed.

Lemma holds_nonempty store key l :
  holds store key l ->
  exists c r, store !! key = Some (String c r) /\
    JSON.parse (String c r) = Some (JS.string_array l).
Proof.
  intros (t & Ht & Hp). destruct t as [|c r]; [done|]. eauto.
Qed.

(** ** Deleting a file (first revision) *)

(** C9: for every file name [f], [handleFileDelete f] leaves in
    [uploadedFiles] and in [activeFiles] the entries other than [f], in their
    order, and no [f]; the texts stored under 'uploadedFiles' and
    'activeFiles' parse to the two new lists; the entry under 'file:' + [f],
    like every other key, is left as it was. *)
Theorem C9_handleFileDelete (f : string) (st : HomeDeck.state) (b : browser) :
  let st' := fst (run (HomeDeck.handleFileDelete f) st b) in
  let b' := snd (run (HomeDeck.handleFileDelete f) st b) in
  HomeDeck.uploadedFiles st' = filter (fun x => x <> f) (HomeDeck.uploadedFiles st) /\
  HomeDeck.activeFiles st' = filter (fun x => x <> f) (HomeDeck.activeFiles st) /\
  (f ∉ HomeDeck.uploadedFiles st') /\
  (f ∉ HomeDeck.activeFiles st') /\
  holds (localStorage b') "uploadedFiles" (HomeDeck.uploadedFiles st') /\
  holds (localStorage b') "activeFiles" (HomeDeck.activeFiles st') /\
  localStorage b' !! ("file:" +:+ f) = localStorage b !! ("file:" +:+ f) /\
  (forall key, key <> "uploadedFiles" -> key <> "activeFiles" ->
     localStorage b' !! key = localStorage b !! key).
Proof.
  unfold HomeDeck.handleFileDelete, HomeDeck.setUploadedFiles, HomeDeck.setActiveFiles.
  eff. repeat split.
  - rewrite list_elem_of_filter. tauto.
  - rewrite list_elem_of_filter. tauto.
  - apply holds_insert_ne; [done|]. apply holds_insert.
  - apply holds_insert.
  - by rewrite !lookup_insert_ne.
  - intros key H1 H2. by rewrite !lookup_insert_ne.
Qed.

(** ** Mounting *)

Lemma parse_strings_holds text l (s : HomeDeck.state * browser) :
  JSON.parse text = Some (JS.string_array l) ->
  HomeDeck.parse_strings text s = (Ok l, s).
Proof.
  intros H. unfold HomeDeck.parse_strings, JSON_parse, read, mbind, Eff_bind.
  rewrite H. unfold or_throw, mret, Eff_ret. cbv beta iota.
  by rewrite as_string_array_string_array.
Qed.

Lemma mount_restores store L U A :
  stands_for store "activeLayers" ["roads"] L ->
  stands_for store "uploadedFiles" [] U ->
  stands_for store "activeFiles" [] A ->
  HomeDeck.mount (HomeDeck.initial, fresh store)
  = (Ok tt, (HomeDeck.State false L U A false 0, fresh store)).
Proof.
  intros HL HU HA.
  unfold HomeDeck.mount, HomeDeck.parse_strings, HomeDeck.setActiveLayers,
    HomeDeck.setUploadedFiles, HomeDeck.setActiveFiles, fresh.
  eff.
  destruct HL as [[E1 ->]|(c1 & t1 & E1 & H1)%holds_nonempty];
  destruct HU as [[E2 ->]|(c2 & t2 & E2 & H2)%holds_nonempty];
  destruct HA as [[E3 ->]|(c3 & t3 & E3 & H3)%holds_nonempty];
    rewrite E1; cbn; rewrite ?H1; cbn;
    rewrite ?as_string_array_string_array; cbn;
    rewrite E2; cbn; rewrite ?H2; cbn;
    rewrite ?as_string_array_string_array; cbn;
    rewrite E3; cbn; rewrite ?H3; cbn;
    rewrite ?as_string_array_string_array; cbn;
    reflexivity.
Qed.

Lemma initial_restores store L U A :
  stands_for store "activeLayers" ["roads"] L ->
  stands_for store "uploadedFiles" [] U ->
  stands_for store "activeFiles" [] A ->
  Home.initial FileHandler.getLocalStorageItem (fresh store)
  = Home.State false L U A false false "" "" None 0.
Proof.
  intros HL HU HA.
  unfold Home.initial, FileHandler.getLocalStorageItem, fresh. simpl.
  destruct HL as [[-> ->]|(t1 & -> & H1)];
  destruct HU as [[-> ->]|(t2 & -> & H2)];
  destruct HA as [[-> ->]|(t3 & -> & H3)];
    rewrite ?H1, ?H2, ?H3, ?as_string_array_string_array; reflexivity.
Qed.

(** C10: when local storage has no 'activeLayers' entry at mount, the active
    layers are ['roads']; when it has no 'uploadedFiles' entry, or no
    'activeFiles' entry, that list is empty.  Both for the mount effect of the
    first revision and for the lazy initialisers of the second. *)
Theorem C10_defaults (store : gmap string string) :
  let st1 := fst (run HomeDeck.mount HomeDeck.initial (fresh store)) in
  let st2 := Home.initial FileHandler.getLocalStorageItem (fresh store) in
  (store !! "activeLayers" = None ->
     HomeDeck.activeLayers st1 = ["roads"] /\ Home.activeLayers st2 = ["roads"]) /\
  (store !! "uploadedFiles" = None ->
     HomeDeck.uploadedFiles st1 = [] /\ Home.uploadedFiles st2 = []) /\
  (store !! "activeFiles" = None ->
     HomeDeck.activeFiles st1 = [] /\ Home.activeFiles st2 = []).
Proof.
  unfold HomeDeck.mount, HomeDeck.parse_strings, HomeDeck.setActiveLayers,
    HomeDeck.setUploadedFiles, HomeDeck.setActiveFiles, Home.initial,
    FileHandler.getLocalStorageItem, fresh.
  eff.
  split; [|split]; intros Hnone; rewrite ?Hnone; cbn;
    repeat (case_match; cbn in *; try done; simplify_eq);
    try (by simpl);
    repeat match goal with
    | H : context [store !! _] |- _ => rewrite Hnone in H; cbn in H
    end; done.
Qed.

Lemma C10_defaults_witness :
  let st1 := fst (run HomeDeck.mount HomeDeck.initial (fresh ∅)) in
  let st2 := Home.initial FileHandler.getLocalStorageItem (fresh ∅) in
  (HomeDeck.activeLayers st1 = ["roads"] /\ Home.activeLayers st2 = ["roads"]) /\
  (HomeDeck.uploadedFiles st1 = [] /\ Home.uploadedFiles st2 = []) /\
  (HomeDeck.activeFiles st1 = [] /\ Home.activeFiles st2 = []).
Proof.
  destruct (C10_defaults ∅) as (H1 & H2 & H3).
  split; [apply H1; reflexivity|split; [apply H2; reflexivity|apply H3; reflexivity]].
Defined.

Lemma stands_for_insert_ne store key key' text d l :
  key <> key' -> stands_for store key d l -> stands_for (<[key' := text]> store) key d l.
Proof.
  intros Hne [[H1 H2]|H].
  - left. split; [|done]. by rewrite lookup_insert_ne.
  - right. by apply holds_insert_ne.
Qed.

(** ** The selection survives a reload *)

(** C3: for every list of layer names [L], after [handleLayerToggle L] the
    active layers are [L] and the text stored under 'activeLayers' parses
    back to exactly [L]; a fresh mount on the resulting storage restores the
    active layers to [L], and the uploaded and active files to the lists held
    under 'uploadedFiles' and 'activeFiles' (the empty list for a key that is
    absent).  Both for the first revision (mount effect) and for the second
    (lazy initialisers). *)
Theorem C3_selection_round_trip (L U A : list string)
    (st : HomeDeck.state) (st2 : Home.state) (b : browser) :
  stands_for (localStorage b) "uploadedFiles" [] U ->
  stands_for (localStorage b) "activeFiles" [] A ->
  let r1 := run (HomeDeck.handleLayerToggle L) st b in
  let r2 := run (Home.handleLayerToggle FileHandler.safeSetItem L) st2 b in
  (HomeDeck.activeLayers (fst r1) = L /\
   holds (localStorage (snd r1)) "activeLayers" L /\
   HomeDeck.mount (HomeDeck.initial, fresh (localStorage (snd r1)))
   = (Ok tt, (HomeDeck.State false L U A false 0, fresh (localStorage (snd r1))))) /\
  (Home.activeLayers (fst r2) = L /\
   holds (localStorage (snd r2)) "activeLayers" L /\
   Home.initial FileHandler.getLocalStorageItem (fresh (localStorage (snd r2)))
   = Home.State false L U A false false "" "" None 0).
Proof.
  intros HU HA r1 r2.
  assert (H1 : localStorage (snd r1)
               = <["activeLayers" := JSON.stringify (JS.string_array L)]> (localStorage b))
    by reflexivity.
  assert (H2 : localStorage (snd r2)
               = <["activeLayers" := JSON.stringify (JS.string_array L)]> (localStorage b))
    by reflexivity.
  rewrite H1, H2.
  split; (split; [reflexivity|split; [apply holds_insert|]]).
  - apply mount_restores.
    + right. apply holds_insert.
    + by apply stands_for_insert_ne.
    + by apply stands_for_insert_ne.
  - apply initial_restores.
    + right. apply holds_insert.
    + by apply stands_for_insert_ne.
    + by apply stands_for_insert_ne.
Qed.

Lemma C3_selection_round_trip_witness :
  let b := fresh (<["uploadedFiles" := JSON.stringify (JS.string_array ["a.json"; "b.json"])]> ∅) in
  let r1 := run (HomeDeck.handleLayerToggle ["roads"; "buildings"]) HomeDeck.initial b in
  HomeDeck.mount (HomeDeck.initial, fresh (localStorage (snd r1)))
  = (Ok tt, (HomeDeck.State false ["roads"; "buildings"] ["a.json"; "b.json"] []
               false 0,
             fresh (localStorage (snd r1)))).
Proof.
  intros b r1.
  refine (proj2 (proj2 (proj1
    (C3_selection_round_trip ["roads"; "buildings"] ["a.json"; "b.json"] []
       HomeDeck.initial (Home.initial FileHandler.getLocalStorageItem b) b _ _)))).
  - right. eexists. split; [reflexivity|]. vm_compute. reflexivity.
  - left. split; reflexivity.
Defined.

(** ** The modal-confirmed upload *)

(** C8: for every pending file content and layer name, the modal is closed
    and the pending file name and content are reset to empty strings in every
    case; and if [JSON.parse] of the content raises, or the upload is remote
    and its response is not ok, the uploadedFiles state and the whole of
    local storage are unchanged (so the 'uploadedFiles' entry stays and no
    'file:' key is written) and uploadError is 'Error saving file. Please try
    again.'.  For any [safeSetItem]. *)
Theorem C8_upload_atomic (safeSetItem : string -> string -> browser -> browser)
    (layerName : string) (isRemote : bool) (outcome : fetch_outcome)
    (st : Home.state) (b : browser) :
  let r := run (Home.handleLayerNameConfirm safeSetItem layerName isRemote outcome) st b in
  (Home.isModalOpen (fst r) = false /\
   Home.currentUploadedFileName (fst r) = "" /\
   Home.currentUploadedFileContent (fst r) = "") /\
  (JSON.parse (Home.currentUploadedFileContent st) = None \/
   (isRemote = true /\ exists resp, outcome = Resolved resp /\ ok resp = false) ->
   Home.uploadedFiles (fst r) = Home.uploadedFiles st /\
   localStorage (snd r) = localStorage b /\
   localStorage (snd r) !! "uploadedFiles" = localStorage b !! "uploadedFiles" /\
   (forall key, JS.startsWith key "file:" = true ->
      localStorage (snd r) !! key = localStorage b !! key) /\
   writes (snd r) = writes b /\
   Home.uploadError (fst r) = Some "Error saving file. Please try again.").
Proof.
  unfold Home.handleLayerNameConfirm, Home.upload, Home.setIsModalOpen,
    Home.setCurrentUploadedFileName, Home.setCurrentUploadedFileContent,
    Home.setUploadError, Home.setUploadedFiles.
  eff.
  destruct (JSON.parse (Home.currentUploadedFileContent st)) as [jsonData|] eqn:Hp.
  - destruct isRemote.
    + destruct outcome as [|resp]; cbn.
      * split; [done|]. intros [?|(_ & resp & ? & _)]; done.
      * destruct (ok resp) eqn:Hok; cbn.
        -- split.
           ++ repeat case_match; simplify_eq; done.
           ++ intros [?|(_ & resp' & ? & ?)]; [done|]. simplify_eq. congruence.
        -- split; [done|]. intros _. unfold writes. cbn.
           rewrite !omap_app. cbn. rewrite !app_nil_r. done.
    + cbn. split; [done|]. intros [?|(? & _)]; done.
  - cbn. split; [done|]. intros _. unfold writes. cbn.
    rewrite !omap_app. cbn. rewrite !app_nil_r. done.
Qed.

Lemma C8_upload_atomic_witness :
  let st := Home.State false ["roads"] ["a"] [] false true "f.json" "{oops" None 0 in
  let r := run (Home.handleLayerNameConfirm FileHandler.safeSetItem "layer" false
                  Rejected) st (fresh ∅) in
  Home.uploadedFiles (fst r) = ["a"] /\
  localStorage (snd r) = ∅ /\
  Home.uploadError (fst r) = Some "Error saving file. Please try again.".
Proof.
  intros st r.
  destruct (C8_upload_atomic FileHandler.safeSetItem "layer" false Rejected st (fresh ∅))
    as [_ H].
  destruct H as (H1 & H2 & _ & _ & _ & H3).
  - left. vm_compute. reflexivity.
  - split; [exact H1|split; [exact H2|exact H3]].
Defined.

(** ** What is written to local storage *)

Section preservation.
Context {St : Type} (P : browser -> Prop).

Lemma preserves_ret {A} (a : A) : preserves P (mret a : Eff St A).
Proof. intros st b H. exact H. Qed.

Lemma preserves_bind {A B} (m : Eff St A) (k : A -> Eff St B) :
  preserves P m -> (forall a, preserves P (k a)) -> preserves P (m ≫= k).
Proof.
  intros Hm Hk st b Hb. unfold mbind, Eff_bind.
  specialize (Hm st b Hb).
  destruct (m (st, b)) as [[a|e] [st' b']]; simpl in *; [|done].
  by apply Hk.
Qed.

Lemma preserves_throw {A} e : preserves P (throw e : Eff St A).
Proof. intros st b H. exact H. Qed.

Lemma preserves_or_throw {A} e (o : option A) : preserves P (or_throw e o : Eff St A).
Proof. destruct o; [apply preserves_ret|apply preserves_throw]. Qed.

Lemma preserves_try_catch {A} (m : Eff St A) h :
  preserves P m -> (forall e, preserves P (h e)) -> preserves P (try_catch m h).
Proof.
  intros Hm Hh st b Hb. unfold try_catch.
  specialize (Hm st b Hb).
  destruct (m (st, b)) as [[a|e] [st' b']]; simpl in *; [done|].
  by apply Hh.
Qed.

Lemma preserves_try_finally {A} (m : Eff St A) final :
  preserves P m -> preserves P final -> preserves P (try_finally m final).
Proof.
  intros Hm Hf st b Hb. unfold try_finally.
  specialize (Hm st b Hb).
  destruct (m (st, b)) as [r [st' b']]; simpl in *.
  specialize (Hf st' b' Hm).
  by destruct (final (st', b')) as [[a|e] [st'' b'']].
Qed.

Lemma preserves_get_state : preserves P (get_state : Eff St St).
Proof. intros st b H. exact H. Qed.

Lemma preserves_set_state (f : St -> St) : preserves P (set_state f).
Proof. intros st b H. exact H. Qed.

Lemma preserves_getItem key : preserves P (getItem key : Eff St _).
Proof. intros st b H. exact H. Qed.

Lemma preserves_on_browser (f : browser -> browser) :
  (forall b, P b -> P (f b)) -> preserves P (on_browser f : Eff St unit).
Proof. intros Hf st b Hb. by apply Hf. Qed.

Lemma preserves_forEach {A} (l : list A) (f : A -> Eff St unit) :
  (forall x, preserves P (f x)) -> preserves P (forEach l f).
Proof.
  intros Hf. induction l as [|x l IH]; simpl.
  - apply preserves_ret.
  - apply preserves_bind; [apply Hf|by intros _].
Qed.

Lemma preserves_if {A} (c : bool) (m1 m2 : Eff St A) :
  preserves P m1 -> preserves P m2 -> preserves P (if c then m1 else m2).
Proof. by destruct c. Qed.

End preservation.

Lemma writes_record_other e b :
  match e with SetItem _ _ => False | _ => True end ->
  writes (record e b) = writes b.
Proof.
  intros He. unfold writes, record. simpl. rewrite omap_app. simpl.
  destruct e; [done|..]; by rewrite app_nil_r.
Qed.

Lemma requests_record_fetch url method body b :
  requests (record (Fetch url method body) b) = requests b ++ [url].
Proof. unfold requests, record. simpl. by rewrite omap_app. Qed.

Lemma requests_record_other e b :
  match e with Fetch _ _ _ => False | _ => True end ->
  requests (record e b) = requests b.
Proof.
  intros He. unfold requests, record. simpl. rewrite omap_app. simpl.
  destruct e; try done; by rewrite app_nil_r.
Qed.

Lemma requests_storage_set key text b :
  requests (storage_set key text b) = requests b.
Proof.
  unfold requests, storage_set. simpl. rewrite omap_app. simpl.
  by rewrite app_nil_r.
Qed.

(** Takes a handler apart along its binds; [prim] settles the steps on the
    browser. *)
Ltac preserves_with prim :=
  repeat first
    [ apply preserves_ret | apply preserves_throw | apply preserves_or_throw
    | apply preserves_get_state | apply preserves_set_state
    | apply preserves_getItem
    | apply preserves_on_browser; intros ? ?; prim
    | apply preserves_bind; [|intros ?]
    | apply preserves_try_catch; [|intros ?]
    | apply preserves_try_finally
    | apply preserves_forEach; intros ?
    | apply preserves_if
    | match goal with
      | |- preserves _ (match ?x with _ => _ end) => destruct x
      | |- preserves _ (let _ := _ in _) => cbv zeta
      end ].

Section stored_json.

(** A property of the browser that a write of valid JSON keeps, and that an
    entry of the console or of the network in the trace keeps. *)
Variable P : browser -> Prop.
Hypothesis P_storage_set : forall key text b,
  valid_json text -> P b -> P (storage_set key text b).
Hypothesis P_record : forall e b,
  match e with SetItem _ _ => False | _ => True end -> P b -> P (record e b).

Ltac stored_json_step :=
  first [ apply P_storage_set; [apply valid_stringify|assumption]
        | apply P_record; [exact I|assumption] ].

Ltac keeps_tac :=
  unfold setItem, console_error, fetch, JSON_parse, read, FileHandler.safeSetItem;
  preserves_with stored_json_step.

Lemma keeps_HomeDeck_handle (e : HomeDeck.event) :
  preserves P (HomeDeck.handle e).
Proof.
  destruct e; simpl;
    unfold HomeDeck.handleDragEnter, HomeDeck.handleDragLeave,
      HomeDeck.handleDragOver, HomeDeck.handleDrop, HomeDeck.reader_onload,
      HomeDeck.handleLayerToggle, HomeDeck.handleFileUpload,
      HomeDeck.handleFileDelete, HomeDeck.handleFileToggle,
      HomeDeck.setSidebarOpen, HomeDeck.setActiveLayers,
      HomeDeck.setUploadedFiles, HomeDeck.setActiveFiles,
      HomeDeck.setIsDragging, HomeDeck.setDragCounter;
    keeps_tac.
Qed.

Lemma keeps_mount : preserves P HomeDeck.mount.
Proof.
  unfold HomeDeck.mount, HomeDeck.parse_strings, HomeDeck.setActiveLayers,
    HomeDeck.setUploadedFiles, HomeDeck.setActiveFiles.
  keeps_tac.
Qed.

Lemma keeps_Home_handleLayerToggle L :
  preserves P (Home.handleLayerToggle FileHandler.safeSetItem L).
Proof.
  unfold Home.handleLayerToggle, Home.setActiveLayers. keeps_tac.
Qed.

Lemma keeps_Home_local layerName outcome :
  preserves P
    (Home.handleLayerNameConfirm FileHandler.safeSetItem layerName false outcome).
Proof.
  unfold Home.handleLayerNameConfirm, Home.upload, Home.setIsModalOpen,
    Home.setCurrentUploadedFileName, Home.setCurrentUploadedFileContent,
    Home.setUploadError, Home.setUploadedFiles.
  keeps_tac.
Qed.

End stored_json.

Lemma writes_valid_since_refl b : writes_valid_since b b.
Proof. exists []. by rewrite app_nil_r. Qed.

Lemma writes_valid_since_storage_set b0 key text b :
  valid_json text -> writes_valid_since b0 b ->
  writes_valid_since b0 (storage_set key text b).
Proof.
  intros Hv (ws & E & Hws). exists (ws ++ [(key, text)]). split.
  - unfold writes, storage_set in *. simpl. rewrite omap_app, E. simpl.
    by rewrite <- app_assoc.
  - apply Forall_app. split; [done|]. by repeat constructor.
Qed.

Lemma writes_valid_since_record b0 e b :
  match e with SetItem _ _ => False | _ => True end ->
  writes_valid_since b0 b -> writes_valid_since b0 (record e b).
Proof.
  intros He (ws & E & Hws). exists ws. by rewrite writes_record_other.
Qed.

Lemma valid_store_storage_set key text b :
  valid_json text -> valid_store (localStorage b) ->
  valid_store (localStorage (storage_set key text b)).
Proof.
  intros Hv H k t. unfold storage_set. simpl.
  destruct (decide (key = k)) as [->|Hne].
  - rewrite lookup_insert_eq. by intros [= <-].
  - rewrite lookup_insert_ne by done. apply H.
Qed.

Lemma valid_store_record e b :
  match e with SetItem _ _ => False | _ => True end ->
  valid_store (localStorage b) -> valid_store (localStorage (record e b)).
Proof. intros _ H. exact H. Qed.

#[local] Arguments record : simpl never.
#[local] Arguments storage_set : simpl never.
#[local] Arguments writes : simpl never.

Lemma writes_storage_set key text b :
  writes (storage_set key text b) = writes b ++ [(key, text)].
Proof. unfold writes, storage_set. simpl. by rewrite omap_app. Qed.

Lemma remote_upload_writes layerName outcome st b :
  let b' := snd (run (Home.handleLayerNameConfirm FileHandler.safeSetItem layerName
                        true outcome) st b) in
  writes b' = writes b \/
  exists url,
    writes b' = writes b ++
      [("file:" +:+ layerName, url);
       ("uploadedFiles",
        JSON.stringify (JS.string_array (Home.uploadedFiles st ++ [layerName])))].
Proof.
  unfold Home.handleLayerNameConfirm, Home.upload, Home.setIsModalOpen,
    Home.setCurrentUploadedFileName, Home.setCurrentUploadedFileContent,
    Home.setUploadError, Home.setUploadedFiles, FileHandler.safeSetItem.
  unfold run, JSON_parse, read, fetch, console_error, try_catch, or_throw, throw,
    on_browser, set_state, get_state, mbind, mret, Eff_bind, Eff_ret.
  cbn.
  destruct (JSON.parse (Home.currentUploadedFileContent st)) as [jsonData|]; cbn.
  2:{ left. by rewrite writes_record_other. }
  destruct outcome as [|resp]; cbn.
  { left. by rewrite !writes_record_other. }
  destruct (ok resp); cbn.
  2:{ left. by rewrite !writes_record_other. }
  destruct (JSON.parse (body resp)) as [result|]; cbn.
  2:{ left. by rewrite !writes_record_other. }
  destruct (JS.get_property result "url") as [url|]; cbn.
  2:{ left. by rewrite !writes_record_other. }
  right. exists (JS.ToString url).
  rewrite !writes_storage_set, writes_record_other by done.
  by rewrite <- app_assoc.
Qed.

(** C1 (as it stands) fails: a remote upload confirmed in the modal stores
    the URL the upload endpoint answers with under 'file:' + layer name, and
    that text is not JSON. *)
Lemma C1_remote_upload_stores_url :
  let st := Home.State false ["roads"] [] [] false true "parks.geojson"
              (JSON.stringify
                 (JSON.JObj [("type", JSON.JStr "FeatureCollection");
                             ("features", JSON.JArr [])])) None 0 in
  let answer := Resolved (Response true 200 "OK"
                     (JSON.stringify
                        (JSON.JObj
                           [("url", JSON.JStr "https://uploads.example.com/parks.json")]))) in
  let b' := snd (run (Home.handleLayerNameConfirm FileHandler.safeSetItem "parks"
                        true answer) st (fresh ∅)) in
  localStorage b' !! "file:parks" = Some "https://uploads.example.com/parks.json" /\
  writes b' = [("file:parks", "https://uploads.example.com/parks.json");
               ("uploadedFiles", JSON.stringify (JS.string_array ["parks"]))] /\
  JSON.parse "https://uploads.example.com/parks.json" = None.
Proof. vm_compute. repeat split; reflexivity. Qed.

(** C1 (amended): whatever local storage holds before, every value written
    to it by the handlers of the first revision (drag and drop of files,
    layer toggle, file upload, file delete, file toggle), by its mount
    effect, and by the layer toggle and the local modal-confirmed upload of
    the second revision parses as JSON; of the writes of a remote
    modal-confirmed upload, every one but the one under 'file:' + layer name,
    which is the URL returned by the upload endpoint, parses as JSON.  And
    from a storage in which every key holds valid JSON, the first four lead
    to a storage in which every key does. *)
Theorem C1_writes_valid_json (b : browser) :
  (forall e st, writes_valid_since b (snd (run (HomeDeck.handle e) st b))) /\
  (forall st, writes_valid_since b (snd (run HomeDeck.mount st b))) /\
  (forall L st,
     writes_valid_since b
       (snd (run (Home.handleLayerToggle FileHandler.safeSetItem L) st b))) /\
  (forall layerName outcome st,
     writes_valid_since b
       (snd (run (Home.handleLayerNameConfirm FileHandler.safeSetItem
                    layerName false outcome) st b))) /\
  (forall layerName outcome st,
     exists ws,
       writes (snd (run (Home.handleLayerNameConfirm FileHandler.safeSetItem
                           layerName true outcome) st b))
       = writes b ++ ws /\
       Forall (fun kv => fst kv = "file:" +:+ layerName \/ valid_json (snd kv)) ws) /\
  (valid_store (localStorage b) ->
   (forall e st, valid_store (localStorage (snd (run (HomeDeck.handle e) st b)))) /\
   (forall st, valid_store (localStorage (snd (run HomeDeck.mount st b)))) /\
   (forall L st,
      valid_store
        (localStorage
           (snd (run (Home.handleLayerToggle FileHandler.safeSetItem L) st b)))) /\
   (forall layerName outcome st,
      valid_store
        (localStorage
           (snd (run (Home.handleLayerNameConfirm FileHandler.safeSetItem
                        layerName false outcome) st b))))).
Proof.
  pose proof (writes_valid_since_refl b) as Hb.
  split; [|split; [|split; [|split; [|split]]]].
  - intros e st.
    apply (keeps_HomeDeck_handle (writes_valid_since b)
             (writes_valid_since_storage_set b) (writes_valid_since_record b)
             e st b Hb).
  - intros st.
    apply (keeps_mount (writes_valid_since b) st b Hb).
  - intros L st.
    apply (keeps_Home_handleLayerToggle (writes_valid_since b)
             (writes_valid_since_storage_set b) L st b Hb).
  - intros layerName outcome st.
    apply (keeps_Home_local (writes_valid_since b)
             (writes_valid_since_storage_set b) (writes_valid_since_record b)
             layerName outcome st b Hb).
  - intros layerName outcome st.
    destruct (remote_upload_writes layerName outcome st b) as [E|[url E]].
    + exists []. rewrite E. by rewrite app_nil_r.
    + eexists. split; [exact E|].
      constructor; [by left|]. constructor; [|constructor].
      right. apply valid_stringify.
  - intros Hstore. split; [|split; [|split]].
    + intros e st.
      apply (keeps_HomeDeck_handle (fun b => valid_store (localStorage b))
               valid_store_storage_set valid_store_record e st b Hstore).
    + intros st.
      apply (keeps_mount (fun b => valid_store (localStorage b)) st b Hstore).
    + intros L st.
      apply (keeps_Home_handleLayerToggle (fun b => valid_store (localStorage b))
               valid_store_storage_set L st b Hstore).
    + intros layerName outcome st.
      apply (keeps_Home_local (fun b => valid_store (localStorage b))
               valid_store_storage_set valid_store_record
               layerName outcome st b Hstore).
Qed.

Lemma C1_writes_valid_json_witness :
  let st := Home.State false ["roads"] [] [] false true "parks.geojson"
              (JSON.stringify (JSON.JObj [("features", JSON.JArr [])])) None 0 in
  let answer := Resolved (Response true 200 "OK"
                     (JSON.stringify
                        (JSON.JObj
                           [("url", JSON.JStr "https://uploads.example.com/parks.json")]))) in
  let b1 := snd (run (Home.handleLayerNameConfirm FileHandler.safeSetItem "parks"
                        true answer) st (fresh ∅)) in
  let dropped :=
    HomeDeck.Drop [File "parks.geojson"
                     (JSON.stringify (JSON.JObj [("features", JSON.JArr [])]))] in
  writes_valid_since b1
    (snd (run (HomeDeck.handle (HomeDeck.LayerToggle ["roads"; "buildings"]))
            HomeDeck.initial b1)) /\
  valid_store (localStorage (snd (run (HomeDeck.handle dropped) HomeDeck.initial
                                    (fresh ∅)))).
Proof.
  cbn zeta. split.
  - apply (proj1 (C1_writes_valid_json _)).
  - apply (proj2 (proj2 (proj2 (proj2 (proj2 (C1_writes_valid_json (fresh ∅))))))).
    intros key text H. cbn in H. by rewrite lookup_empty in H.
Defined.

(** ** The record of an uploaded file *)




(** ** Tile requests *)

(** C5 (as it stands) fails: where the page's own origin itself begins with
    'https://api.os.uk', a URL of that origin gets the Authorization header
    and no same-origin credentials; the first test wins. *)
Lemma C5_own_origin_under_provider_prefix :
  let origin := "https://api.os.uk.example.org" in
  let u := "https://api.os.uk.example.org/api/tiles/7/63/42" in
  JS.startsWith u origin = true /\
  MapComponent.transformRequest origin
    (Some {| MapComponent.access_token := "t0k3n" |}) u
  = Some {| MapComponent.url := u;
            MapComponent.headers := [("Authorization", "Bearer t0k3n");
                                     ("Content-Type", "application/json")];
            MapComponent.credentials := None |}.
Proof. split; reflexivity. Qed.

(** C5 (amended): for every request URL starting with 'https://api.os.uk',
    [transformRequest] returns the same URL with an Authorization header
    'Bearer ' followed by the current access token (the empty string when no
    token is held); a URL that starts with the page's origin and does not
    start with 'https://api.os.uk' is returned with same-origin credentials
    and no header; any other URL is left alone. *)
Theorem C5_transformRequest (origin u : string)
    (tokenData : option MapComponent.TokenData) :
  (JS.startsWith u "https://api.os.uk" = true ->
   MapComponent.transformRequest origin tokenData u
   = Some {| MapComponent.url := u;
             MapComponent.headers :=
               [("Authorization",
                 "Bearer " +:+ match tokenData with
                               | Some t => MapComponent.access_token t
                               | None => ""
                               end);
                ("Content-Type", "application/json")];
             MapComponent.credentials := None |}) /\
  (JS.startsWith u "https://api.os.uk" = false ->
   JS.startsWith u origin = true ->
   MapComponent.transformRequest origin tokenData u
   = Some {| MapComponent.url := u;
             MapComponent.headers := [];
             MapComponent.credentials := Some "same-origin" |}) /\
  (JS.startsWith u "https://api.os.uk" = false ->
   JS.startsWith u origin = false ->
   MapComponent.transformRequest origin tokenData u = None).
Proof.
  unfold MapComponent.transformRequest.
  split; [|split].
  - intros H. by rewrite H.
  - intros H1 H2. by rewrite H1, H2.
  - intros H1 H2. by rewrite H1, H2.
Qed.

Lemma C5_transformRequest_witness :
  MapComponent.transformRequest "http://localhost:3000" None
    "https://api.os.uk/maps/vector/v1/vts"
  = Some {| MapComponent.url := "https://api.os.uk/maps/vector/v1/vts";
            MapComponent.headers := [("Authorization", "Bearer ");
                                     ("Content-Type", "application/json")];
            MapComponent.credentials := None |} /\
  MapComponent.transformRequest "http://localhost:3000" None
    "http://localhost:3000/api/tiles/7/63/42"
  = Some {| MapComponent.url := "http://localhost:3000/api/tiles/7/63/42";
            MapComponent.headers := [];
            MapComponent.credentials := Some "same-origin" |}.
Proof.
  split.
  - apply (C5_transformRequest "http://localhost:3000"
             "https://api.os.uk/maps/vector/v1/vts" None).
    reflexivity.
  - apply (C5_transformRequest "http://localhost:3000"
             "http://localhost:3000/api/tiles/7/63/42" None); reflexivity.
Defined.

(** ** The endpoints *)

Ltac quiet_step :=
  first [ rewrite requests_storage_set; assumption
        | rewrite requests_record_other by exact I; assumption ].

Lemma quiet_HomeDeck_handle (e : HomeDeck.event) l :
  preserves (fun b => requests b = l) (HomeDeck.handle e).
Proof.
  destruct e; simpl;
    unfold HomeDeck.handleDragEnter, HomeDeck.handleDragLeave,
      HomeDeck.handleDragOver, HomeDeck.handleDrop, HomeDeck.reader_onload,
      HomeDeck.handleLayerToggle, HomeDeck.handleFileUpload,
      HomeDeck.handleFileDelete, HomeDeck.handleFileToggle,
      HomeDeck.setSidebarOpen, HomeDeck.setActiveLayers,
      HomeDeck.setUploadedFiles, HomeDeck.setActiveFiles,
      HomeDeck.setIsDragging, HomeDeck.setDragCounter;
    unfold setItem, console_error, JSON_parse, read;
    preserves_with quiet_step.
Qed.

Lemma quiet_Home_handleLayerToggle L l :
  preserves (fun b => requests b = l)
    (Home.handleLayerToggle FileHandler.safeSetItem L).
Proof.
  unfold Home.handleLayerToggle, Home.setActiveLayers, FileHandler.safeSetItem.
  unfold setItem. preserves_with quiet_step.
Qed.

Lemma remote_upload_requests layerName isRemote outcome st store :
  requests (snd (run (Home.handleLayerNameConfirm FileHandler.safeSetItem
                        layerName isRemote outcome) st (fresh store)))
  = match isRemote, JSON.parse (Home.currentUploadedFileContent st) with
    | true, Some _ => ["/api/remote-file-s3-upload"]
    | _, _ => []
    end.
Proof.
  unfold Home.handleLayerNameConfirm, Home.upload, Home.setIsModalOpen,
    Home.setCurrentUploadedFileName, Home.setCurrentUploadedFileContent,
    Home.setUploadError, Home.setUploadedFiles, FileHandler.safeSetItem, fresh.
  eff.
  destruct (JSON.parse (Home.currentUploadedFileContent st)) as [jsonData|];
    [|by destruct isRemote].
  destruct isRemote; [|reflexivity].
  destruct outcome as [|resp]; cbn; [reflexivity|].
  destruct (ok resp); cbn; [|reflexivity].
  destruct (JSON.parse (body resp)) as [result|]; cbn; [|reflexivity].
  destruct (JS.get_property result "url"); reflexivity.
Qed.

Lemma fetchConnections_requests outcome st store :
  requests (snd (run (ConnectionsModal.fetchConnections outcome) st (fresh store)))
  = ["/api/connections-modal"].
Proof.
  unfold ConnectionsModal.fetchConnections, ConnectionsModal.setIsLoading,
    ConnectionsModal.setError, ConnectionsModal.setConnections, fresh.
  eff.
  destruct outcome as [|resp]; cbn; [reflexivity|].
  destruct (ok resp); cbn; [|reflexivity].
  destruct (JSON.parse (body resp)); reflexivity.
Qed.

(** C7 (as it stands) fails: the path of the tile URL of the MVT layer, the
    request of a remote modal-confirmed upload and the request made when the
    connections are fetched are three different paths, not two. *)
Lemma C7_not_two_endpoints :
  let st := Home.State false ["roads"] [] [] false true "parks.geojson"
              (JSON.stringify (JSON.JObj [("features", JSON.JArr [])])) None 0 in
  let consumed :=
    pathname (HomeDeck.mvtLayer_data HomeDeck.initial)
    :: requests (snd (run (Home.handleLayerNameConfirm FileHandler.safeSetItem
                             "parks" true Rejected) st (fresh ∅)))
    ++ requests (snd (run (ConnectionsModal.fetchConnections Rejected)
                        ConnectionsModal.initial (fresh ∅))) in
  consumed = ["/api/tiles/{z}/{x}/{y}"; "/api/remote-file-s3-upload";
              "/api/connections-modal"] /\
  NoDup consumed /\
  length consumed <> 2%nat.
Proof.
  cbn zeta. rewrite remote_upload_requests, fetchConnections_requests.
  split; [vm_compute; reflexivity|].
  split; [apply (bool_decide_unpack _); vm_compute; exact I|].
  vm_compute. discriminate.
Qed.

(** C7 (amended): at least three HTTP endpoints are consumed.  The page and
    the connections modal request three paths, each different from the other
    two: the tile server ('/api/tiles/{z}/{x}/{y}', the path of the data URL
    of the MVT layer, whatever the active layers), the remote-file-upload
    endpoint ('/api/remote-file-s3-upload', requested once by a remote
    modal-confirmed upload whose content parses, whatever the answer) and the
    connections-listing endpoint ('/api/connections-modal', requested once
    whenever the connections are fetched, whatever the answer).  The handlers
    of the first revision, the layer toggle of the second and a local upload
    request nothing.  The map component passes on, with a bearer token, every
    request to a URL that starts with 'https://api.os.uk', and such a URL is
    none of the three paths. *)
Theorem C7_at_least_three_endpoints :
  (forall s, pathname (HomeDeck.mvtLayer_data s) = "/api/tiles/{z}/{x}/{y}") /\
  (forall layerName isRemote outcome st store,
     requests (snd (run (Home.handleLayerNameConfirm FileHandler.safeSetItem
                           layerName isRemote outcome) st (fresh store)))
     = match isRemote, JSON.parse (Home.currentUploadedFileContent st) with
       | true, Some _ => ["/api/remote-file-s3-upload"]
       | _, _ => []
       end) /\
  (forall outcome st store,
     requests (snd (run (ConnectionsModal.fetchConnections outcome) st (fresh store)))
     = ["/api/connections-modal"]) /\
  (forall s layerName outcome st store outcome' st' store' jsonData,
     JSON.parse (Home.currentUploadedFileContent st) = Some jsonData ->
     let consumed :=
       pathname (HomeDeck.mvtLayer_data s)
       :: requests (snd (run (Home.handleLayerNameConfirm FileHandler.safeSetItem
                                layerName true outcome) st (fresh store)))
       ++ requests (snd (run (ConnectionsModal.fetchConnections outcome')
                           st' (fresh store'))) in
     NoDup consumed /\ length consumed = 3%nat) /\
  (forall e st store,
     requests (snd (run (HomeDeck.handle e) st (fresh store))) = []) /\
  (forall L st store,
     requests (snd (run (Home.handleLayerToggle FileHandler.safeSetItem L) st
                      (fresh store))) = []) /\
  (forall origin tokenData u,
     JS.startsWith u "https://api.os.uk" = true ->
     (exists request,
        MapComponent.transformRequest origin tokenData u = Some request /\
        MapComponent.url request = u /\
        exists bearer, MapComponent.headers request !! 0%nat
                       = Some ("Authorization", bearer)) /\
     u <> "/api/tiles/{z}/{x}/{y}" /\
     u <> "/api/remote-file-s3-upload" /\
     u <> "/api/connections-modal").
Proof.
  split; [reflexivity|].
  split; [apply remote_upload_requests|].
  split; [apply fetchConnections_requests|].
  split; [|split; [|split]].
  - intros s layerName outcome st store outcome' st' store' jsonData Hparse.
    cbn zeta. rewrite remote_upload_requests, fetchConnections_requests, Hparse.
    change (pathname (HomeDeck.mvtLayer_data s)) with "/api/tiles/{z}/{x}/{y}".
    split; [|reflexivity].
    apply (bool_decide_unpack _). vm_compute. exact I.
  - intros e st store.
    apply (quiet_HomeDeck_handle e [] st (fresh store)). reflexivity.
  - intros L st store.
    apply (quiet_Home_handleLayerToggle L [] st (fresh store)). reflexivity.
  - intros origin tokenData u Hu. split.
    + unfold MapComponent.transformRequest. rewrite Hu.
      eexists. split; [reflexivity|]. split; [reflexivity|].
      eexists. reflexivity.
    + repeat split; intros ->; vm_compute in Hu; discriminate.
Qed.

(** ** Uploaded files on the map *)

(** C6, at a stored collection without features: the entry exists and parses
    as GeoJSON, and the effect adds neither a source nor a layer, because the
    first feature's geometry, read for the logging call, raises.  For any
    coordinate transformation that does not make up a first feature. *)
Theorem C6_empty_collection_not_shown
    (handleError : (option string -> Eff MapComponent.state unit) ->
                   string -> string -> Eff MapComponent.state unit)
    (transformGeoJsonData : JSON.value -> option JSON.value) :
  let collection :=
    JSON.JObj [("type", JSON.JStr "FeatureCollection"); ("features", JSON.JArr [])] in
  (forall d, transformGeoJsonData collection = Some d ->
             MapComponent.first_feature_geometry d = None) ->
  let st := MapComponent.State None true None
              (Some (MapComponent.MapInstance [] ∅)) None in
  let b := fresh (<["file:parks" := JSON.stringify collection]> ∅) in
  let r := run (MapComponent.sync handleError transformGeoJsonData ["parks"]) st b in
  JSON.parse (JSON.stringify collection) = Some collection /\
  MapComponent.map (fst r) = Some (MapComponent.MapInstance [] ∅) /\
  MapComponent.mapError (fst r) = None /\
  trace (snd r) = [ConsoleError "Error processing GeoJSON data for file parks:"].
Proof.
  intros collection Htransform st b r.
  assert (Hparse : JSON.parse (JSON.stringify collection) = Some collection)
    by (vm_compute; reflexivity).
  split; [exact Hparse|].
  subst r st b.
  unfold MapComponent.sync, MapComponent.add_active, MapComponent.getSource,
    MapComponent.the_map, MapComponent.addSource, MapComponent.addLayer, fresh.
  eff.
  rewrite lookup_empty. cbn. rewrite lookup_insert_eq.
  assert (Htruthy : JS.truthy (Some (JSON.stringify collection)) = true)
    by (vm_compute; reflexivity).
  rewrite Htruthy. cbn. rewrite Hparse. cbn.
  destruct (transformGeoJsonData collection) as [d|] eqn:Hd; cbn.
  - rewrite (Htransform d eq_refl). cbn. done.
  - done.
Qed.

Lemma C6_empty_collection_not_shown_witness :
  let collection :=
    JSON.JObj [("type", JSON.JStr "FeatureCollection"); ("features", JSON.JArr [])] in
  let st := MapComponent.State None true None
              (Some (MapComponent.MapInstance [] ∅)) None in
  let b := fresh (<["file:parks" := JSON.stringify collection]> ∅) in
  let r := run (MapComponent.sync handleError_model Some ["parks"]) st b in
  MapComponent.map (fst r) = Some (MapComponent.MapInstance [] ∅).
Proof.
  intros collection st b r.
  refine (proj1 (proj2 (C6_empty_collection_not_shown handleError_model Some _))).
  intros d [= <-]. reflexivity.
Defined.

(** ** Errors *)

(** C4 (as it stands) fails: a stored file whose text does not parse makes
    [JSON.parse] raise in the map's effect; the error is caught and logged,
    and [mapError] is not set.  The same holds for a dropped file in the
    first revision, whose state has no error field at all. *)
Lemma C4_parse_failure_only_logged :
  let st := MapComponent.State None true None
              (Some (MapComponent.MapInstance [] ∅)) None in
  let b := fresh (<["file:parks" := "https://uploads.example.com/parks.json"]> ∅) in
  let r := run (MapComponent.sync handleError_model Some ["parks"]) st b in
  JSON.parse "https://uploads.example.com/parks.json" = None /\
  MapComponent.mapError (fst r) = None /\
  fst r = st /\
  trace (snd r) = [ConsoleError "Error processing GeoJSON data for file parks:"] /\
  run (HomeDeck.reader_onload (File "parks.json" "{oops")) HomeDeck.initial (fresh ∅)
  = (HomeDeck.initial,
     Browser ∅ [ConsoleError "Error parsing GeoJSON file:"]).
Proof. vm_compute. repeat split; reflexivity. Qed.

(** C4 (amended): a failed fetch or a failed JSON parse in the
    modal-confirmed upload sets uploadError to 'Error saving file. Please try
    again.'; one in the connections listing sets the modal's error text and
    ends the loading; an error raised while the map is initialised (by the
    token retrieval or by the construction of the map), like one reported by
    the map's error event, is handed to [handleError] with the setter of
    mapError, which, as modelled from the spec, sets mapError to a message;
    the failed JSON parse of a dropped file (first revision) or of a stored
    file in the map's effect is caught and logged to the console, and changes
    no state. *)
Theorem C4_errors_surfaced_or_logged :
  (forall safeSetItem layerName isRemote outcome st b,
     JSON.parse (Home.currentUploadedFileContent st) = None \/
     (isRemote = true /\
      (outcome = Rejected \/
       exists resp, outcome = Resolved resp /\
         (ok resp = false \/ JSON.parse (body resp) = None))) ->
     Home.uploadError
       (fst (run (Home.handleLayerNameConfirm safeSetItem layerName isRemote outcome)
               st b))
     = Some "Error saving file. Please try again.") /\
  (forall outcome st b,
     outcome = Rejected \/
     (exists resp, outcome = Resolved resp /\
        (ok resp = false \/ JSON.parse (body resp) = None)) ->
     let st' := fst (run (ConnectionsModal.fetchConnections outcome) st b) in
     ConnectionsModal.error st'
     = Some "Error fetching connections. Please try again later." /\
     ConnectionsModal.isLoading st' = false) /\
  (forall handleError getValidToken created s e s1,
     getValidToken s = (Raised e, s1) ->
     MapComponent.initMap handleError getValidToken true created s
     = handleError MapComponent.setMapError e "Error initializing map" s1) /\
  (forall handleError getValidToken s e (token : option string) s1,
     getValidToken s = (Ok token, s1) ->
     MapComponent.initMap handleError getValidToken true (inr e) s
     = handleError MapComponent.setMapError e "Error initializing map" s1) /\
  (forall handleError e,
     MapComponent.on_error handleError e
     = handleError MapComponent.setMapError e "Map error") /\
  (forall e context st b,
     MapComponent.mapError
       (fst (run (handleError_model MapComponent.setMapError e context) st b))
     = Some (context +:+ ": " +:+ e)) /\
  (forall f st b,
     JSON.parse (content f) = None ->
     run (HomeDeck.reader_onload f) st b
     = (st, record (ConsoleError "Error parsing GeoJSON file:") b)) /\
  (forall handleError transformGeoJsonData fileName st b m c text,
     MapComponent.map st = Some m ->
     MapComponent.sources m !! ("geojson-source-" +:+ fileName) = None ->
     localStorage b !! ("file:" +:+ fileName) = Some (String c text) ->
     JSON.parse (String c text) = None ->
     run (MapComponent.add_active handleError transformGeoJsonData fileName) st b
     = (st, record (ConsoleError
                      ("Error processing GeoJSON data for file " +:+ fileName +:+ ":"))
              b)).
Proof.
  repeat apply conj.
  - intros safeSetItem layerName isRemote outcome st b Hfail.
    unfold Home.handleLayerNameConfirm, Home.upload, Home.setIsModalOpen,
      Home.setCurrentUploadedFileName, Home.setCurrentUploadedFileContent,
      Home.setUploadError, Home.setUploadedFiles.
    eff.
    destruct (JSON.parse (Home.currentUploadedFileContent st)) as [jsonData|] eqn:Hp;
      [|reflexivity].
    destruct Hfail as [?|[-> Hfail]]; [done|]. cbn.
    destruct Hfail as [->|(resp & -> & Hresp)]; [reflexivity|]. cbn.
    destruct (ok resp); cbn; [|reflexivity].
    destruct Hresp as [?| ->]; [done|]. reflexivity.
  - intros outcome st b Hfail.
    unfold ConnectionsModal.fetchConnections, ConnectionsModal.setIsLoading,
      ConnectionsModal.setError, ConnectionsModal.setConnections.
    eff.
    destruct Hfail as [->|(resp & -> & Hresp)]; [done|]. cbn.
    destruct (ok resp); cbn; [|done].
    destruct Hresp as [?| ->]; done.
  - intros handleError getValidToken created s e s1 Htoken.
    unfold MapComponent.initMap. cbn. unfold try_catch, mbind, Eff_bind.
    by rewrite Htoken.
  - intros handleError getValidToken s e token s1 Htoken.
    unfold MapComponent.initMap. cbn. unfold try_catch, mbind, Eff_bind.
    by rewrite Htoken.
  - reflexivity.
  - reflexivity.
  - intros f st b Hparse. unfold HomeDeck.reader_onload. eff.
    by rewrite Hparse.
  - intros handleError transformGeoJsonData fileName st b m c text Hm Hs Hl Hparse.
    unfold MapComponent.add_active, MapComponent.getSource, MapComponent.the_map.
    eff. rewrite Hm. cbn. rewrite Hs. cbn. rewrite Hl. cbn.
    by rewrite Hparse.
Qed.

Lemma C4_errors_surfaced_or_logged_witness :
  Home.uploadError
    (fst (run (Home.handleLayerNameConfirm FileHandler.safeSetItem "parks" true Rejected)
            (Home.State false ["roads"] [] [] false true "parks.geojson"
               (JSON.stringify (JSON.JObj [("features", JSON.JArr [])])) None 0)
            (fresh ∅)))
  = Some "Error saving file. Please try again." /\
  ConnectionsModal.error
    (fst (run (ConnectionsModal.fetchConnections
                 (Resolved (Response false 500 "Internal Server Error" "")))
            ConnectionsModal.initial (fresh ∅)))
  = Some "Error fetching connections. Please try again later." /\
  run (HomeDeck.reader_onload (File "parks.json" "{oops")) HomeDeck.initial (fresh ∅)
  = (HomeDeck.initial,
     record (ConsoleError "Error parsing GeoJSON file:") (fresh ∅)).
Proof.
  destruct C4_errors_surfaced_or_logged as (H1 & H2 & _ & _ & _ & _ & H3 & _).
  split; [|split].
  - apply H1. right. split; [reflexivity|]. left. reflexivity.
  - apply H2. right. eexists. split; [reflexivity|]. left. reflexivity.
  - apply H3. vm_compute. reflexivity.
Defined.

(** What the effect does where it goes through: one inactive layer is
    removed with its source, one active file with a first feature is added
    as a source and a fill layer. *)

Lemma replace_layer_source f :
  JS.replace "layer" "source" ("geojson-layer-" +:+ f) = "geojson-source-" +:+ f.
Proof. reflexivity. Qed.

Lemma replace_layer_prefix f :
  JS.replace "geojson-layer-" "" ("geojson-layer-" +:+ f) = f.
Proof. reflexivity. Qed.

Lemma startsWith_layer f :
  JS.startsWith ("geojson-layer-" +:+ f) "geojson-layer-" = true.
Proof. destruct f; reflexivity. Qed.

Lemma remove_inactive_removes handleError activeFiles l f st b m src :
  MapComponent.id l = "geojson-layer-" +:+ f ->
  JS.includes activeFiles f = false ->
  MapComponent.map st = Some m ->
  MapComponent.has_layer ("geojson-layer-" +:+ f) m = true ->
  MapComponent.sources m !! ("geojson-source-" +:+ f) = Some src ->
  (forall l', l' ∈ MapComponent.layers m ->
     MapComponent.source l' = "geojson-source-" +:+ f ->
     MapComponent.id l' = "geojson-layer-" +:+ f) ->
  let m' := MapComponent.MapInstance
              (filter (fun l' => MapComponent.id l' <> "geojson-layer-" +:+ f)
                 (MapComponent.layers m))
              (delete ("geojson-source-" +:+ f) (MapComponent.sources m)) in
  MapComponent.remove_inactive handleError activeFiles l (st, b)
  = (Ok tt,
     (MapComponent.State (MapComponent.mapError st) (MapComponent.mapLoaded st)
        (MapComponent.selectedLayer st) (Some m') (MapComponent.tokenData st), b)).
Proof.
  intros Hid Hinactive Hm Hlayer Hsrc Hused m'.
  unfold MapComponent.remove_inactive.
  rewrite Hid, replace_layer_prefix, replace_layer_source, Hinactive.
  rewrite startsWith_layer. cbn [andb negb].
  unfold MapComponent.removeLayer, MapComponent.removeSource, MapComponent.the_map,
    MapComponent.set_map.
  eff. rewrite Hm. cbn. rewrite Hlayer. cbn. rewrite Hsrc. cbn.
  assert (Hfree :
    MapComponent.uses_source ("geojson-source-" +:+ f)
      (MapComponent.MapInstance
         (filter (fun l' => MapComponent.id l' <> "geojson-layer-" +:+ f)
            (MapComponent.layers m)) (MapComponent.sources m)) = false).
  { unfold MapComponent.uses_source. cbn.
    apply not_true_is_false. intros Hex.
    apply existsb_exists in Hex as (l' & Hin & Heq).
    apply list_elem_of_In, list_elem_of_filter in Hin as [Hne Hin].
    apply String.eqb_eq in Heq. by apply Hne, Hused. }
  unfold MapComponent.uses_source in Hfree. cbn in Hfree. rewrite Hfree.
  reflexivity.
Qed.

Lemma add_active_adds handleError transformGeoJsonData fileName st b m c text v d g :
  MapComponent.map st = Some m ->
  MapComponent.sources m !! ("geojson-source-" +:+ fileName) = None ->
  MapComponent.has_layer ("geojson-layer-" +:+ fileName) m = false ->
  localStorage b !! ("file:" +:+ fileName) = Some (String c text) ->
  JSON.parse (String c text) = Some v ->
  transformGeoJsonData v = Some d ->
  MapComponent.first_feature_geometry d = Some g ->
  let m' := MapComponent.MapInstance
              (MapComponent.layers m ++
               [MapComponent.Layer ("geojson-layer-" +:+ fileName) "fill"
                  ("geojson-source-" +:+ fileName)
                  [("fill-color", JSON.JStr "#FF0000");
                   ("fill-opacity", JSON.JNum MapComponent.one_half);
                   ("fill-outline-color", JSON.JStr "#00FF00")]])
              (<["geojson-source-" +:+ fileName := MapComponent.Source "geojson" d]>
                 (MapComponent.sources m)) in
  MapComponent.add_active handleError transformGeoJsonData fileName (st, b)
  = (Ok tt,
     (MapComponent.State (MapComponent.mapError st) (MapComponent.mapLoaded st)
        (MapComponent.selectedLayer st) (Some m') (MapComponent.tokenData st), b)).
Proof.
  intros Hm Hsrc Hlayer Hentry Hparse Htransform Hfirst m'.
  unfold MapComponent.add_active, MapComponent.getSource, MapComponent.addSource,
    MapComponent.addLayer, MapComponent.the_map, MapComponent.set_map.
  eff. rewrite Hm. cbn. rewrite Hsrc. cbn. rewrite Hentry. cbn.
  rewrite Hparse. cbn. rewrite Htransform. cbn. rewrite Hfirst. cbn.
  rewrite Hm. cbn. rewrite Hsrc. cbn.
  unfold MapComponent.has_layer in Hlayer |- *. cbn in Hlayer |- *.
  rewrite Hlayer. cbn.
  rewrite lookup_insert_eq. reflexivity.
Qed.

(** * Further properties of the components *)

(** ** Lists and strings *)

Lemma includes_elem_of (l : list string) (x : string) :
  JS.includes l x = true <-> x ∈ l.
Proof.
  unfold JS.includes. rewrite existsb_exists. split.
  - intros (y & Hin & Heq). apply String.eqb_eq in Heq. subst y.
    by apply list_elem_of_In.
  - intros Hin. exists x. split; [by apply list_elem_of_In|apply String.eqb_refl].
Qed.

Lemma includes_not_elem_of (l : list string) (x : string) :
  JS.includes l x = false <-> x ∉ l.
Proof. rewrite <- includes_elem_of. by destruct (JS.includes l x). Qed.

Lemma includes_eq (l1 l2 : list string) (x y : string) :
  (x ∈ l1 <-> y ∈ l2) -> JS.includes l1 x = JS.includes l2 y.
Proof.
  intros H. apply eq_true_iff_eq. by rewrite !includes_elem_of.
Qed.

Lemma filter_ne_absent (l : list string) (x : string) :
  x ∉ l -> filter (fun y => y <> x) l = l.
Proof.
  induction l as [|y l IH]; [done|]. intros Hx.
  apply not_elem_of_cons in Hx as [Hne Hx].
  rewrite filter_cons_True by congruence. by rewrite IH.
Qed.

Lemma not_elem_of_filter_ne (l : list string) (x : string) :
  x ∉ filter (fun y => y <> x) l.
Proof. rewrite list_elem_of_filter. by intros [? _]. Qed.

Lemma length_append (a b : string) :
  String.length (a +:+ b) = String.length a + String.length b.
Proof. induction a as [|c a IH]; simpl; [done|]. by rewrite IH. Qed.

Lemma substring_whole (b : string) : String.substring 0 (String.length b) b = b.
Proof. induction b as [|c b IH]; simpl; [done|]. by rewrite IH. Qed.

Lemma substring_append (a b : string) :
  String.substring (String.length a) (String.length b) (a +:+ b) = b.
Proof. induction a as [|c a IH]; simpl; [apply substring_whole|exact IH]. Qed.

Lemma endsWith_append (a b : string) : JS.endsWith (a +:+ b) b = true.
Proof.
  unfold JS.endsWith. rewrite length_append.
  replace (String.length a + String.length b - String.length b)
    with (String.length a) by lia.
  rewrite substring_append, String.eqb_refl, andb_true_r.
  apply Nat.leb_le. lia.
Qed.

Lemma endsWith_short (s suffix : string) :
  String.length s < String.length suffix -> JS.endsWith s suffix = false.
Proof.
  intros H. unfold JS.endsWith.
  replace (String.length suffix <=? String.length s) with false; [done|].
  symmetry. apply Nat.leb_gt. lia.
Qed.

Lemma toLowerCase_append (a b : string) :
  JS.toLowerCase (a +:+ b) = JS.toLowerCase a +:+ JS.toLowerCase b.
Proof. induction a as [|c a IH]; simpl; [done|]. by rewrite IH. Qed.

Lemma length_toLowerCase (s : string) :
  String.length (JS.toLowerCase s) = String.length s.
Proof. induction s as [|c s IH]; simpl; [done|]. by rewrite IH. Qed.

(** ** The handler language *)

Lemma forEach_app {St A} (l1 l2 : list A) (f : A -> Eff St unit) s :
  forEach (l1 ++ l2) f s = (forEach l1 f ;; forEach l2 f) s.
Proof.
  revert s. induction l1 as [|x l1 IH]; intros s; [done|].
  simpl. unfold mbind, Eff_bind in *.
  destruct (f x s) as [[[]|e] s']; [apply IH|done].
Qed.

(** ** The layer boxes of the sidebar *)

(** X1: a change of the box of [layerName] flips whether that layer is
    active, and leaves every other layer as it was. *)
Theorem checkbox_flips_one_layer (activeLayers : list string)
    (layerName other : string) :
  let updatedLayers := Sidebar.handleCheckboxChange activeLayers layerName in
  Sidebar.isLayerActive updatedLayers layerName
  = negb (Sidebar.isLayerActive activeLayers layerName) /\
  (other <> layerName ->
   Sidebar.isLayerActive updatedLayers other
   = Sidebar.isLayerActive activeLayers other).
Proof.
  unfold Sidebar.handleCheckboxChange, Sidebar.isLayerActive.
  destruct (JS.includes activeLayers layerName) eqn:Hactive; simpl.
  - split.
    + apply includes_not_elem_of, not_elem_of_filter_ne.
    + intros Hne. apply includes_eq. rewrite list_elem_of_filter. tauto.
  - split.
    + apply includes_elem_of, elem_of_app. right. left.
    + intros Hne. apply includes_eq. rewrite elem_of_app, list_elem_of_singleton.
      tauto.
Qed.

Lemma checkbox_flips_one_layer_witness :
  let updatedLayers := Sidebar.handleCheckboxChange ["roads"] "buildings" in
  Sidebar.isLayerActive updatedLayers "buildings" = true /\
  Sidebar.isLayerActive updatedLayers "roads" = true.
Proof.
  destruct (checkbox_flips_one_layer ["roads"] "buildings" "roads") as [H1 H2].
  split; [exact H1|]. apply H2. discriminate.
Defined.

(** X2: two changes of the same box give back the list itself when the layer
    was not active; when it was, every copy of it is taken out and one is put
    at the end. *)
Theorem checkbox_twice (activeLayers : list string) (layerName : string) :
  let once := Sidebar.handleCheckboxChange activeLayers layerName in
  let twice := Sidebar.handleCheckboxChange once layerName in
  (layerName ∉ activeLayers -> twice = activeLayers) /\
  (layerName ∈ activeLayers ->
   twice = filter (fun layer => layer <> layerName) activeLayers ++ [layerName]).
Proof.
  unfold Sidebar.handleCheckboxChange, Sidebar.isLayerActive. split.
  - intros Hout.
    rewrite (proj2 (includes_not_elem_of _ _) Hout).
    rewrite (proj2 (includes_elem_of (activeLayers ++ [layerName]) layerName))
      by (apply elem_of_app; right; left).
    rewrite filter_app, (filter_ne_absent _ _ Hout).
    rewrite filter_cons_False by (intros H; by apply H).
    by rewrite filter_nil, app_nil_r.
  - intros Hin.
    rewrite (proj2 (includes_elem_of _ _) Hin).
    by rewrite (proj2 (includes_not_elem_of _ _) (not_elem_of_filter_ne _ _)).
Qed.

Lemma checkbox_twice_witness :
  Sidebar.handleCheckboxChange
    (Sidebar.handleCheckboxChange ["roads"] "buildings") "buildings" = ["roads"] /\
  Sidebar.handleCheckboxChange
    (Sidebar.handleCheckboxChange ["roads"; "buildings"] "roads") "roads"
  = ["buildings"; "roads"].
Proof.
  split.
  - apply (proj1 (checkbox_twice ["roads"] "buildings")).
    rewrite <- includes_not_elem_of. reflexivity.
  - apply (proj2 (checkbox_twice ["roads"; "buildings"] "roads")).
    rewrite <- includes_elem_of. reflexivity.
Defined.

(** ** The loading spinner *)

(** X3: after [n] runs of the interval callback the rotation is 45 degrees
    times [n mod 8]: it stays among the eight multiples of 45 below 360 and
    is back where it was after eight runs. *)
Theorem spinner_rotation (n : nat) :
  LoadingSpinner.after n = (45 * Z.of_nat (n mod 8))%Z /\
  (0 <= LoadingSpinner.after n < 360)%Z /\
  LoadingSpinner.after (n + 8) = LoadingSpinner.after n.
Proof.
  assert (Hafter : forall k, LoadingSpinner.after k = (45 * Z.of_nat (k mod 8))%Z).
  { induction k as [|k IH]; [reflexivity|].
    unfold LoadingSpinner.after in *. simpl Nat.iter. rewrite IH.
    unfold LoadingSpinner.tick.
    replace (S k mod 8) with ((k mod 8 + 1) mod 8)
      by (rewrite Nat.Div0.add_mod_idemp_l; f_equal; lia).
    pose proof (Nat.mod_upper_bound k 8 ltac:(lia)) as Hlt.
    destruct (k mod 8) as [|[|[|[|[|[|[|[|r]]]]]]]]; try reflexivity. lia. }
  split; [apply Hafter|]. split.
  - rewrite Hafter.
    pose proof (Nat.mod_upper_bound n 8 ltac:(lia)). lia.
  - rewrite !Hafter. do 2 f_equal.
    rewrite <- Nat.Div0.add_mod_idemp_r. simpl (8 mod 8). f_equal. lia.
Qed.

(** ** Dragging over the page (first revision) *)

Lemma drag_run (events : list HomeDeck.event) (c d : Z)
    (st : HomeDeck.state) (b : browser) :
  (0 <= c)%Z ->
  HomeDeck.dragCounter st = c ->
  HomeDeck.isDragging st = (0 <? c)%Z ->
  drag_depth c events = Some d ->
  (0 <= d)%Z /\
  forEach events HomeDeck.handle (st, b)
  = (Ok tt,
     (HomeDeck.State (HomeDeck.sidebarOpen st) (HomeDeck.activeLayers st)
        (HomeDeck.uploadedFiles st) (HomeDeck.activeFiles st)
        (0 <? d)%Z d, b)).
Proof.
  revert c st. induction events as [|e events IH]; intros c st Hc Hcount Hshown Hd.
  - cbn in Hd. injection Hd as <-. split; [done|].
    destruct st. cbn in *. by subst.
  - destruct e as [[[|k]|]| | | | | | |]; cbn in Hd; try discriminate.
    + cbn [forEach]. unfold mbind, Eff_bind.
      unfold HomeDeck.handle at 1, HomeDeck.handleDragEnter,
        HomeDeck.setDragCounter, HomeDeck.setIsDragging.
      eff.
      destruct (IH (c + 1)%Z
                  (HomeDeck.State (HomeDeck.sidebarOpen st) (HomeDeck.activeLayers st)
                     (HomeDeck.uploadedFiles st) (HomeDeck.activeFiles st) true
                     (HomeDeck.dragCounter st + 1)) ltac:(lia))
        as [Hpos E]; [cbn; lia| |exact Hd|].
      { cbn. symmetry. apply Z.ltb_lt. lia. }
      split; [done|]. exact E.
    + destruct (Z.ltb_spec 0 c) as [Hlt|]; [|discriminate].
      cbn [forEach]. unfold mbind, Eff_bind.
      unfold HomeDeck.handle at 1, HomeDeck.handleDragLeave,
        HomeDeck.setDragCounter, HomeDeck.setIsDragging.
      eff.
      destruct (HomeDeck.dragCounter st - 1 =? 0)%Z eqn:Hone; cbn.
      * apply Z.eqb_eq in Hone.
        destruct (IH (c - 1)%Z
                    (HomeDeck.State (HomeDeck.sidebarOpen st) (HomeDeck.activeLayers st)
                       (HomeDeck.uploadedFiles st) (HomeDeck.activeFiles st) false
                       (HomeDeck.dragCounter st - 1)) ltac:(lia))
          as [Hpos E]; [cbn; lia| |exact Hd|].
        { cbn. symmetry. apply Z.ltb_ge. lia. }
        split; [done|]. exact E.
      * apply Z.eqb_neq in Hone.
        destruct (IH (c - 1)%Z
                    (HomeDeck.State (HomeDeck.sidebarOpen st) (HomeDeck.activeLayers st)
                       (HomeDeck.uploadedFiles st) (HomeDeck.activeFiles st)
                       (HomeDeck.isDragging st)
                       (HomeDeck.dragCounter st - 1)) ltac:(lia))
          as [Hpos E]; [cbn; lia| |exact Hd|].
        { cbn. rewrite Hshown. symmetry. apply Z.ltb_lt. lia. }
        split; [done|]. exact E.
    + cbn [forEach]. unfold mbind, Eff_bind.
      unfold HomeDeck.handle at 1, HomeDeck.handleDragOver. eff.
      destruct (IH c st Hc Hcount Hshown Hd) as [Hpos E].
      split; [done|]. destruct st. exact E.
Qed.

(** X4: starting with the counter at zero and the overlay hidden, after any
    run of drag-enter, drag-leave and drag-over events, in whatever order
    they come, in which every enter carries items and every leave has an
    earlier enter left to match, the counter is the number of enters still
    unmatched, and the overlay is shown exactly when there is one; the rest
    of the state and the browser are untouched.  A leave with no enter to
    match puts the counter out of step: after it and one enter the counter
    is back at zero with the overlay shown. *)
Theorem drag_overlay (events : list HomeDeck.event) (depth : Z)
    (st : HomeDeck.state) (b : browser) :
  HomeDeck.dragCounter st = 0%Z ->
  HomeDeck.isDragging st = false ->
  drag_depth 0 events = Some depth ->
  let r := forEach events HomeDeck.handle (st, b) in
  let r' := forEach [HomeDeck.DragLeave; HomeDeck.DragEnter (Some 1%nat)]
              HomeDeck.handle (st, b) in
  (fst r = Ok tt /\
   HomeDeck.dragCounter (fst (snd r)) = depth /\
   HomeDeck.isDragging (fst (snd r)) = (0 <? depth)%Z /\
   HomeDeck.sidebarOpen (fst (snd r)) = HomeDeck.sidebarOpen st /\
   HomeDeck.activeLayers (fst (snd r)) = HomeDeck.activeLayers st /\
   HomeDeck.uploadedFiles (fst (snd r)) = HomeDeck.uploadedFiles st /\
   HomeDeck.activeFiles (fst (snd r)) = HomeDeck.activeFiles st /\
   snd (snd r) = b) /\
  (HomeDeck.dragCounter (fst (snd r')) = 0%Z /\
   HomeDeck.isDragging (fst (snd r')) = true).
Proof.
  intros Hzero Hhidden Hdepth r r'. split.
  - subst r.
    destruct (drag_run events 0 depth st b) as [_ E]; [lia|done|done|done|].
    by rewrite E.
  - subst r'. cbn [forEach]. unfold mbind, Eff_bind.
    unfold HomeDeck.handle, HomeDeck.handleDragEnter, HomeDeck.handleDragLeave,
      HomeDeck.setDragCounter, HomeDeck.setIsDragging.
    eff. rewrite Hzero. cbn. done.
Qed.

Lemma drag_overlay_witness :
  let st := HomeDeck.State false ["roads"] [] [] false 0 in
  let events := [HomeDeck.DragEnter (Some 1%nat); HomeDeck.DragEnter (Some 1%nat);
                 HomeDeck.DragLeave; HomeDeck.DragOver;
                 HomeDeck.DragEnter (Some 2%nat); HomeDeck.DragLeave] in
  let r := forEach events HomeDeck.handle (st, fresh ∅) in
  drag_depth 0 events = Some 1%Z /\
  HomeDeck.dragCounter (fst (snd r)) = 1%Z /\
  HomeDeck.isDragging (fst (snd r)) = true /\
  snd (snd r) = fresh ∅.
Proof.
  cbn zeta. split; [reflexivity|].
  destruct (drag_overlay
              [HomeDeck.DragEnter (Some 1%nat); HomeDeck.DragEnter (Some 1%nat);
               HomeDeck.DragLeave; HomeDeck.DragOver;
               HomeDeck.DragEnter (Some 2%nat); HomeDeck.DragLeave]
              1 (HomeDeck.State false ["roads"] [] [] false 0) (fresh ∅)
              eq_refl eq_refl eq_refl)
    as [(_ & Hcount & Hshown & _ & _ & _ & _ & Hb) _].
  split; [exact Hcount|]. split; [exact Hshown|exact Hb].
Defined.

(** ** Dropping files (first revision) *)

Lemma reader_onload_stores (f : file) (v : JSON.value)
    (st : HomeDeck.state) (b : browser) :
  JSON.parse (content f) = Some v ->
  HomeDeck.reader_onload f (st, b)
  = (Ok tt,
     (HomeDeck.State (HomeDeck.sidebarOpen st) (HomeDeck.activeLayers st)
        (HomeDeck.uploadedFiles st ++ [name f]) (HomeDeck.activeFiles st)
        (HomeDeck.isDragging st) (HomeDeck.dragCounter st),
      storage_set "uploadedFiles"
        (JSON.stringify (JS.string_array (HomeDeck.uploadedFiles st ++ [name f])))
        (storage_set ("file:" +:+ name f) (JSON.stringify v) b))).
Proof.
  intros Hv. unfold HomeDeck.reader_onload, HomeDeck.setUploadedFiles.
  unfold run, JSON_parse, read, setItem, try_catch, or_throw, throw, on_browser,
    set_state, get_state, mbind, mret, Eff_bind, Eff_ret.
  rewrite Hv. reflexivity.
Qed.

Lemma reader_onload_logs (f : file) (st : HomeDeck.state) (b : browser) :
  JSON.parse (content f) = None ->
  HomeDeck.reader_onload f (st, b)
  = (Ok tt, (st, record (ConsoleError "Error parsing GeoJSON file:") b)).
Proof.
  intros Hv. unfold HomeDeck.reader_onload, HomeDeck.setUploadedFiles.
  unfold run, JSON_parse, read, setItem, console_error, try_catch, or_throw,
    throw, on_browser, set_state, get_state, mbind, mret, Eff_bind, Eff_ret.
  rewrite Hv. reflexivity.
Qed.

Lemma startsWith_file (fileName : string) :
  JS.startsWith ("file:" +:+ fileName) "file:" = true.
Proof. destruct fileName; reflexivity. Qed.

Lemma drop_reads (files : list file) (st : HomeDeck.state) (b : browser) :
  let stored := filter (fun f => HomeDeck.accepted f = true /\
                                 is_Some (JSON.parse (content f))) files in
  exists b',
    forEach files
      (fun f => if HomeDeck.accepted f then HomeDeck.reader_onload f else mret tt)
      (st, b)
    = (Ok tt,
       (HomeDeck.State (HomeDeck.sidebarOpen st) (HomeDeck.activeLayers st)
          (HomeDeck.uploadedFiles st ++ List.map name stored)
          (HomeDeck.activeFiles st) (HomeDeck.isDragging st)
          (HomeDeck.dragCounter st), b')) /\
    (stored = [] -> localStorage b' = localStorage b) /\
    (stored <> [] ->
     holds (localStorage b') "uploadedFiles"
       (HomeDeck.uploadedFiles st ++ List.map name stored)) /\
    (forall key, key <> "uploadedFiles" -> JS.startsWith key "file:" = false ->
       localStorage b' !! key = localStorage b !! key).
Proof.
  revert st b. induction files as [|f files IH]; intros st b; cbn zeta.
  - exists b. rewrite filter_nil. destruct st. cbn. rewrite app_nil_r. done.
  - simpl forEach. unfold mbind, Eff_bind.
    destruct (HomeDeck.accepted f) eqn:Hacc.
    + destruct (JSON.parse (content f)) as [v|] eqn:Hv.
      * rewrite (reader_onload_stores f v) by done.
        rewrite filter_cons_True by (split; [done|by rewrite Hv]).
        destruct (IH
          (HomeDeck.State (HomeDeck.sidebarOpen st) (HomeDeck.activeLayers st)
             (HomeDeck.uploadedFiles st ++ [name f]) (HomeDeck.activeFiles st)
             (HomeDeck.isDragging st) (HomeDeck.dragCounter st))
          (storage_set "uploadedFiles"
             (JSON.stringify
                (JS.string_array (HomeDeck.uploadedFiles st ++ [name f])))
             (storage_set ("file:" +:+ name f) (JSON.stringify v) b)))
          as (b' & E & H3 & H4 & H5).
        cbn [HomeDeck.sidebarOpen HomeDeck.activeLayers HomeDeck.uploadedFiles
             HomeDeck.activeFiles HomeDeck.isDragging HomeDeck.dragCounter]
          in E, H4.
        exists b'. rewrite E, <- (app_assoc _ [name f]). cbn [List.map].
        split; [done|]. split; [done|]. split.
        -- intros _.
           destruct (filter _ files) as [|g stored] eqn:Hstored.
           ++ rewrite H3 by done. apply holds_insert.
           ++ rewrite <- (app_assoc _ [name f]) in H4. by apply H4.
        -- intros key Hkey Hfile. rewrite H5 by done.
           unfold storage_set. cbn [localStorage].
           rewrite lookup_insert_ne by done.
           apply lookup_insert_ne. intros <-.
           by rewrite startsWith_file in Hfile.
      * rewrite (reader_onload_logs f) by done.
        rewrite filter_cons_False by (intros [_ H]; rewrite Hv in H; by destruct H).
        apply (IH st (record (ConsoleError "Error parsing GeoJSON file:") b)).
    + rewrite filter_cons_False by (intros [H _]; congruence).
      apply (IH st b).
Qed.

Lemma handleDrop_resets (files : list file) (st : HomeDeck.state) (b : browser) :
  HomeDeck.handleDrop files (st, b)
  = forEach files
      (fun f => if HomeDeck.accepted f then HomeDeck.reader_onload f else mret tt)
      (HomeDeck.State (HomeDeck.sidebarOpen st) (HomeDeck.activeLayers st)
         (HomeDeck.uploadedFiles st) (HomeDeck.activeFiles st) false 0, b).
Proof. reflexivity. Qed.

(** X5: a drop hides the overlay and resets the drag counter whatever is
    dropped, and appends to [uploadedFiles], in the order of the drop (the
    order in which the readers are taken to finish), the names of the files
    whose extension is accepted and whose content parses;
    if there is none, local storage is left as it was, and otherwise the list
    stored under 'uploadedFiles' is the new state; the keys other than
    'uploadedFiles' and the 'file:' ones keep their entries. *)
Theorem handleDrop_appends_readable (files : list file)
    (st : HomeDeck.state) (b : browser) :
  let stored := filter (fun f => HomeDeck.accepted f = true /\
                                 is_Some (JSON.parse (content f))) files in
  let r := HomeDeck.handleDrop files (st, b) in
  fst r = Ok tt /\
  fst (snd r)
  = HomeDeck.State (HomeDeck.sidebarOpen st) (HomeDeck.activeLayers st)
      (HomeDeck.uploadedFiles st ++ List.map name stored) (HomeDeck.activeFiles st)
      false 0 /\
  (stored = [] -> localStorage (snd (snd r)) = localStorage b) /\
  (stored <> [] ->
   holds (localStorage (snd (snd r))) "uploadedFiles"
     (HomeDeck.uploadedFiles st ++ List.map name stored)) /\
  (forall key, key <> "uploadedFiles" -> JS.startsWith key "file:" = false ->
     localStorage (snd (snd r)) !! key = localStorage b !! key).
Proof.
  cbn zeta. rewrite handleDrop_resets.
  destruct (drop_reads files
              (HomeDeck.State (HomeDeck.sidebarOpen st) (HomeDeck.activeLayers st)
                 (HomeDeck.uploadedFiles st) (HomeDeck.activeFiles st) false 0) b)
    as (b' & E & H3 & H4 & H5).
  rewrite E. done.
Qed.

Lemma handleDrop_appends_readable_witness :
  let collection := JSON.stringify (JSON.JObj [("type", JSON.JStr "FeatureCollection")]) in
  let files := [File "parks.GeoJSON" collection; File "notes.txt" collection;
                File "broken.json" "{"] in
  let st := HomeDeck.State false ["roads"] ["old"] [] true 1 in
  let r := HomeDeck.handleDrop files (st, fresh ∅) in
  fst (snd r) = HomeDeck.State false ["roads"] ["old"; "parks.GeoJSON"] [] false 0 /\
  holds (localStorage (snd (snd r))) "uploadedFiles" ["old"; "parks.GeoJSON"].
Proof.
  cbn zeta.
  destruct (handleDrop_appends_readable
              [File "parks.GeoJSON"
                 (JSON.stringify (JSON.JObj [("type", JSON.JStr "FeatureCollection")]));
               File "notes.txt"
                 (JSON.stringify (JSON.JObj [("type", JSON.JStr "FeatureCollection")]));
               File "broken.json" "{"]
              (HomeDeck.State false ["roads"] ["old"] [] true 1) (fresh ∅))
    as (_ & H2 & _ & H4 & _).
  split; [exact H2|]. apply H4. vm_compute. discriminate.
Defined.

(** X6: files whose name ends neither in '.json' nor in '.geojson' are passed
    over in silence: the drop writes nothing, logs nothing and only resets
    the drag state. *)
Theorem handleDrop_ignores_other_files (files : list file)
    (st : HomeDeck.state) (b : browser) :
  Forall (fun f => HomeDeck.accepted f = false) files ->
  HomeDeck.handleDrop files (st, b)
  = (Ok tt,
     (HomeDeck.State (HomeDeck.sidebarOpen st) (HomeDeck.activeLayers st)
        (HomeDeck.uploadedFiles st) (HomeDeck.activeFiles st) false 0, b)).
Proof.
  intros Hfiles. rewrite handleDrop_resets.
  generalize (HomeDeck.State (HomeDeck.sidebarOpen st) (HomeDeck.activeLayers st)
                (HomeDeck.uploadedFiles st) (HomeDeck.activeFiles st) false 0).
  intros st'. induction Hfiles as [|f files Hf _ IH]; [done|].
  simpl forEach. rewrite Hf. exact IH.
Qed.

Lemma handleDrop_ignores_other_files_witness :
  HomeDeck.handleDrop [File "notes.txt" "[]"; File "json" "[]"]
    (HomeDeck.State true [] ["a"] ["a"] true 2, fresh ∅)
  = (Ok tt, (HomeDeck.State true [] ["a"] ["a"] false 0, fresh ∅)).
Proof.
  apply (handleDrop_ignores_other_files
           [File "notes.txt" "[]"; File "json" "[]"]
           (HomeDeck.State true [] ["a"] ["a"] true 2) (fresh ∅)).
  repeat constructor.
Defined.

(** X7: the extension test looks at the end of the name and not at the case
    of its letters: a name made of any stem and an extension that reads
    '.json' or '.geojson' in lower case is accepted, and a name of fewer than
    five characters never is. *)
Theorem accepted_by_extension (stem ext text : string) (f : file) :
  (JS.toLowerCase ext = ".json" \/ JS.toLowerCase ext = ".geojson" ->
   HomeDeck.accepted (File (stem +:+ ext) text) = true) /\
  (String.length (name f) < 5 -> HomeDeck.accepted f = false).
Proof.
  unfold HomeDeck.accepted. split.
  - intros Hext. cbn [name]. rewrite toLowerCase_append.
    destruct Hext as [-> | ->]; rewrite endsWith_append;
      [done|apply orb_true_r].
  - intros Hshort.
    rewrite !endsWith_short; [done| |]; rewrite length_toLowerCase; cbn; lia.
Qed.

Lemma accepted_by_extension_witness :
  HomeDeck.accepted (File ("Parks" +:+ ".GeoJSON") "{}") = true /\
  HomeDeck.accepted (File "json" "{}") = false.
Proof.
  destruct (accepted_by_extension "Parks" ".GeoJSON" "{}" (File "json" "{}"))
    as [H1 H2].
  split; [apply H1; right; reflexivity|apply H2; cbn; lia].
Defined.

(** ** Showing and hiding an uploaded file (first revision) *)

Lemma handleFileToggle_sets (fileName : string) (isActive : bool)
    (st : HomeDeck.state) (b : browser) :
  let updatedActiveFiles :=
    if isActive then HomeDeck.activeFiles st ++ [fileName]
    else filter (fun file => file <> fileName) (HomeDeck.activeFiles st) in
  HomeDeck.handleFileToggle fileName isActive (st, b)
  = (Ok tt,
     (HomeDeck.State (HomeDeck.sidebarOpen st) (HomeDeck.activeLayers st)
        (HomeDeck.uploadedFiles st) updatedActiveFiles
        (HomeDeck.isDragging st) (HomeDeck.dragCounter st),
      storage_set "activeFiles"
        (JSON.stringify (JS.string_array updatedActiveFiles)) b)).
Proof. reflexivity. Qed.

(** X8: hiding a file leaves no copy of its name among the active files, and
    the list stored under 'activeFiles' is the new state; showing a file that
    was not active and hiding it again gives back the active files there
    were, in the state and in storage. *)
Theorem handleFileToggle_round_trip (fileName : string)
    (st : HomeDeck.state) (b : browser) :
  let off := run (HomeDeck.handleFileToggle fileName false) st b in
  let on_off := run (HomeDeck.handleFileToggle fileName true ;;
                     HomeDeck.handleFileToggle fileName false) st b in
  ((fileName ∉ HomeDeck.activeFiles (fst off)) /\
   holds (localStorage (snd off)) "activeFiles" (HomeDeck.activeFiles (fst off))) /\
  (fileName ∉ HomeDeck.activeFiles st ->
   HomeDeck.activeFiles (fst on_off) = HomeDeck.activeFiles st /\
   holds (localStorage (snd on_off)) "activeFiles" (HomeDeck.activeFiles st)).
Proof.
  cbn zeta. unfold run, mbind, Eff_bind.
  rewrite !handleFileToggle_sets.
  cbn [fst snd HomeDeck.activeFiles]. split.
  - split; [apply not_elem_of_filter_ne|apply holds_insert].
  - intros Hout.
    assert (Hback : filter (fun file => file <> fileName)
                      (HomeDeck.activeFiles st ++ [fileName])
                    = HomeDeck.activeFiles st).
    { rewrite filter_app, (filter_ne_absent _ _ Hout).
      rewrite filter_cons_False by (intros H; by apply H).
      by rewrite filter_nil, app_nil_r. }
    rewrite Hback. split; [done|apply holds_insert].
Qed.

Lemma handleFileToggle_round_trip_witness :
  let st := HomeDeck.State false ["roads"] ["parks"; "lakes"] ["lakes"] false 0 in
  let on_off := run (HomeDeck.handleFileToggle "parks" true ;;
                     HomeDeck.handleFileToggle "parks" false) st (fresh ∅) in
  HomeDeck.activeFiles (fst on_off) = ["lakes"] /\
  holds (localStorage (snd on_off)) "activeFiles" ["lakes"].
Proof.
  apply (proj2 (handleFileToggle_round_trip "parks"
                  (HomeDeck.State false ["roads"] ["parks"; "lakes"] ["lakes"] false 0)
                  (fresh ∅))).
  rewrite <- includes_not_elem_of. reflexivity.
Defined.

(** ** A stored text that does not parse, at mount (first revision) *)

(** X9: the mount effect parses the stored lists outside any try block.  A
    non-empty text under 'activeLayers' that does not parse stops it with a
    SyntaxError before anything is restored; one under 'uploadedFiles' stops
    it after the active layers, and the active files stay empty whatever is
    stored for them. *)
Theorem mount_stops_at_unreadable_entry (store : gmap string string)
    (c : ascii) (text : string) (L : list string) :
  JSON.parse (String c text) = None ->
  (store !! "activeLayers" = Some (String c text) ->
   HomeDeck.mount (HomeDeck.initial, fresh store)
   = (Raised "SyntaxError", (HomeDeck.initial, fresh store))) /\
  (stands_for store "activeLayers" ["roads"] L ->
   store !! "uploadedFiles" = Some (String c text) ->
   HomeDeck.mount (HomeDeck.initial, fresh store)
   = (Raised "SyntaxError", (HomeDeck.State false L [] [] false 0, fresh store))).
Proof.
  intros Hbad.
  unfold HomeDeck.mount, HomeDeck.parse_strings, HomeDeck.setActiveLayers,
    HomeDeck.setUploadedFiles, HomeDeck.setActiveFiles, fresh.
  eff. split.
  - intros E1. rewrite E1. cbn. rewrite Hbad. reflexivity.
  - intros HL E2.
    destruct HL as [[E1 ->]|(c1 & t1 & E1 & H1)%holds_nonempty];
      rewrite E1; cbn; rewrite ?H1; cbn;
      rewrite ?as_string_array_string_array; cbn;
      rewrite E2; cbn; rewrite Hbad; reflexivity.
Qed.

Lemma mount_stops_at_unreadable_entry_witness :
  let store : gmap string string :=
    <["uploadedFiles" := "[oops"]>
      (<["activeFiles" := JSON.stringify (JS.string_array ["parks"])]> ∅) in
  HomeDeck.mount (HomeDeck.initial, fresh store)
  = (Raised "SyntaxError", (HomeDeck.State false ["roads"] [] [] false 0, fresh store)).
Proof.
  cbn zeta.
  apply (proj2 (mount_stops_at_unreadable_entry
                  (<["uploadedFiles" := "[oops"]>
                     (<["activeFiles" := JSON.stringify (JS.string_array ["parks"])]> ∅))
                  "[" "oops" ["roads"] ltac:(vm_compute; reflexivity))).
  - left. split; [vm_compute; reflexivity|reflexivity].
  - vm_compute. reflexivity.
Defined.

(** ** The layers of the active files (first revision) *)

Lemma geoJsonLayer_cases (fileName : string) (st : HomeDeck.state) (b : browser) :
  let text := if JS.truthy (localStorage b !! ("file:" +:+ fileName))
              then default "" (localStorage b !! ("file:" +:+ fileName))
              else "{}" in
  match JSON.parse text with
  | Some v =>
      exists l, HomeDeck.geoJsonLayer fileName (st, b) = (Ok l, (st, b)) /\
                HomeDeck.id l = "geojson-" +:+ fileName /\ HomeDeck.data l = v
  | None => HomeDeck.geoJsonLayer fileName (st, b) = (Raised "SyntaxError", (st, b))
  end.
Proof.
  cbn zeta. unfold HomeDeck.geoJsonLayer.
  unfold JSON_parse, getItem, or_throw, throw, mbind, mret, Eff_bind, Eff_ret.
  cbn [fst snd].
  destruct (JSON.parse _) as [v|]; [|done].
  eexists. split; [reflexivity|done].
Qed.

Lemma parse_empty_object : JSON.parse "{}" = Some (JSON.JObj []).
Proof. vm_compute. reflexivity. Qed.

(** X10: when the entry of every active file is absent, empty or a text that
    parses, there is one layer for each active file, in their order, with
    the id 'geojson-' + name and the parsed entry as its data, the empty
    object standing in for an absent entry; state and browser are left as
    they were. *)
Theorem geoJsonLayers_one_per_file (st : HomeDeck.state) (b : browser) :
  (forall fileName text,
     fileName ∈ HomeDeck.activeFiles st ->
     localStorage b !! ("file:" +:+ fileName) = Some text ->
     text = "" \/ valid_json text) ->
  exists layers,
    HomeDeck.geoJsonLayers (st, b) = (Ok layers, (st, b)) /\
    List.map HomeDeck.id layers
    = List.map (fun fileName => "geojson-" +:+ fileName) (HomeDeck.activeFiles st) /\
    Forall2
      (fun fileName l =>
         match localStorage b !! ("file:" +:+ fileName) with
         | Some (String c text) => JSON.parse (String c text) = Some (HomeDeck.data l)
         | _ => HomeDeck.data l = JSON.JObj []
         end)
      (HomeDeck.activeFiles st) layers.
Proof.
  unfold HomeDeck.geoJsonLayers, get_state, mbind at 1, Eff_bind. cbn [fst snd].
  generalize (HomeDeck.activeFiles st) as files.
  induction files as [|f files IH]; intros Hfiles.
  - exists []. by repeat split.
  - destruct IH as (layers & E & Hids & Hdata).
    { intros g text Hg. apply Hfiles. by right. }
    pose proof (geoJsonLayer_cases f st b) as Hf. cbn zeta in Hf.
    assert (Hparse : exists v,
      JSON.parse (if JS.truthy (localStorage b !! ("file:" +:+ f))
                  then default "" (localStorage b !! ("file:" +:+ f))
                  else "{}") = Some v /\
      match localStorage b !! ("file:" +:+ f) with
      | Some (String c text) => JSON.parse (String c text) = Some v
      | _ => v = JSON.JObj []
      end).
    { destruct (localStorage b !! ("file:" +:+ f)) as [[|c text]|] eqn:Ef; cbn.
      - exists (JSON.JObj []). by rewrite parse_empty_object.
      - destruct (Hfiles f (String c text)) as [?|[v Hv]]; [by left|done|done|].
        exists v. done.
      - exists (JSON.JObj []). by rewrite parse_empty_object. }
    destruct Hparse as (v & Hv & Hentry). rewrite Hv in Hf.
    destruct Hf as (l & El & Hid & Hl).
    exists (l :: layers). simpl map_array. unfold mbind, Eff_bind.
    rewrite El. unfold mbind, Eff_bind in E. rewrite E.
    split; [reflexivity|]. split.
    + cbn [List.map]. by rewrite Hid, Hids.
    + constructor; [|done]. rewrite Hl. exact Hentry.
Qed.

Lemma geoJsonLayers_one_per_file_witness :
  let st := HomeDeck.State false ["roads"] ["parks"] ["parks"] false 0 in
  exists layers,
    HomeDeck.geoJsonLayers (st, fresh ∅) = (Ok layers, (st, fresh ∅)) /\
    List.map HomeDeck.id layers = ["geojson-parks"] /\
    List.map HomeDeck.data layers = [JSON.JObj []].
Proof.
  cbn zeta.
  destruct (geoJsonLayers_one_per_file
              (HomeDeck.State false ["roads"] ["parks"] ["parks"] false 0) (fresh ∅))
    as (layers & E & Hids & Hdata).
  { intros fileName text _ H. cbn in H. by rewrite lookup_empty in H. }
  exists layers. split; [exact E|]. split; [exact Hids|].
  cbn in Hdata. inversion Hdata as [|f l fs ls Hl Hrest]; subst.
  inversion Hrest; subst. cbn. rewrite lookup_empty in Hl. by rewrite Hl.
Defined.

(** X11: one active file whose entry is a non-empty text that does not parse
    makes the whole computation of the layers end with a SyntaxError: the
    layers of the other active files are not built either. *)
Theorem geoJsonLayers_unreadable_entry (fileName : string) (c : ascii)
    (text : string) (st : HomeDeck.state) (b : browser) :
  fileName ∈ HomeDeck.activeFiles st ->
  localStorage b !! ("file:" +:+ fileName) = Some (String c text) ->
  JSON.parse (String c text) = None ->
  HomeDeck.geoJsonLayers (st, b) = (Raised "SyntaxError", (st, b)).
Proof.
  intros Hin Hentry Hbad.
  unfold HomeDeck.geoJsonLayers, get_state, mbind at 1, Eff_bind. cbn [fst snd].
  revert Hin. generalize (HomeDeck.activeFiles st) as files.
  induction files as [|f files IH]; intros Hin; [by apply elem_of_nil in Hin|].
  simpl map_array. unfold mbind, Eff_bind.
  pose proof (geoJsonLayer_cases f st b) as Hf. cbn zeta in Hf.
  destruct (JSON.parse _) as [v|] eqn:Hv in Hf.
  - destruct Hf as (l & -> & _).
    apply elem_of_cons in Hin as [->|Hin].
    + rewrite Hentry in Hv. cbn in Hv. congruence.
    + unfold mbind, Eff_bind in IH. by rewrite IH.
  - by rewrite Hf.
Qed.

Lemma geoJsonLayers_unreadable_entry_witness :
  let st := HomeDeck.State false ["roads"] ["parks"; "lakes"] ["parks"; "lakes"]
              false 0 in
  let b := fresh (<["file:lakes" := "https://example.org/lakes.json"]> ∅) in
  HomeDeck.geoJsonLayers (st, b) = (Raised "SyntaxError", (st, b)).
Proof.
  cbn zeta.
  apply (geoJsonLayers_unreadable_entry "lakes" "h" "ttps://example.org/lakes.json").
  - rewrite <- includes_elem_of. reflexivity.
  - vm_compute. reflexivity.
  - vm_compute. reflexivity.
Defined.

(** ** State and storage stay in step (first revision) *)

Lemma stands_for_lookup (store store' : gmap string string) (key : string)
    (d l : list string) :
  store' !! key = store !! key ->
  stands_for store key d l -> stands_for store' key d l.
Proof.
  intros E [[H1 H2]|(text & H1 & H2)].
  - left. by rewrite E.
  - right. exists text. by rewrite E.
Qed.

Lemma stands_for_insert (store : gmap string string) (key : string)
    (d l : list string) :
  stands_for (<[key := JSON.stringify (JS.string_array l)]> store) key d l.
Proof. right. apply holds_insert. Qed.

Lemma handle_keeps_in_step (e : HomeDeck.event) (st : HomeDeck.state) (b : browser) :
  in_step st b ->
  exists st' b', HomeDeck.handle e (st, b) = (Ok tt, (st', b')) /\ in_step st' b'.
Proof.
  intros (HL & HU & HA). destruct e as [items| | |files|L|f|f|f a]; cbn [HomeDeck.handle].
  - unfold HomeDeck.handleDragEnter, HomeDeck.setDragCounter, HomeDeck.setIsDragging.
    eff. destruct items as [[|n]|]; cbn; eexists _, _; (split; [reflexivity|done]).
  - unfold HomeDeck.handleDragLeave, HomeDeck.setDragCounter, HomeDeck.setIsDragging.
    eff. destruct (_ =? _)%Z; cbn; eexists _, _; (split; [reflexivity|done]).
  - eexists _, _. split; [reflexivity|done].
  - rewrite handleDrop_resets.
    destruct (drop_reads files
                (HomeDeck.State (HomeDeck.sidebarOpen st) (HomeDeck.activeLayers st)
                   (HomeDeck.uploadedFiles st) (HomeDeck.activeFiles st) false 0) b)
      as (b' & E & H3 & H4 & H5).
    eexists _, b'. split; [exact E|].
    cbn [HomeDeck.uploadedFiles HomeDeck.activeLayers HomeDeck.activeFiles] in *.
    split; [|split]; cbn.
    + eapply stands_for_lookup; [|exact HL]. by apply H5.
    + destruct (filter _ files) as [|g stored] eqn:Hstored.
      * cbn. rewrite app_nil_r, H3 by done. exact HU.
      * right. by apply H4.
    + eapply stands_for_lookup; [|exact HA]. by apply H5.
  - unfold HomeDeck.handleLayerToggle, HomeDeck.setActiveLayers. eff.
    eexists _, _. split; [reflexivity|]. split; [|split]; cbn.
    + apply stands_for_insert.
    + by apply stands_for_insert_ne.
    + by apply stands_for_insert_ne.
  - unfold HomeDeck.handleFileUpload, HomeDeck.setUploadedFiles. eff.
    eexists _, _. split; [reflexivity|]. split; [|split]; cbn.
    + by apply stands_for_insert_ne.
    + apply stands_for_insert.
    + by apply stands_for_insert_ne.
  - unfold HomeDeck.handleFileDelete, HomeDeck.setUploadedFiles,
      HomeDeck.setActiveFiles. eff.
    eexists _, _. split; [reflexivity|]. split; [|split]; cbn.
    + apply stands_for_insert_ne; [done|]. by apply stands_for_insert_ne.
    + apply stands_for_insert_ne; [done|]. apply stands_for_insert.
    + apply stands_for_insert.
  - unfold HomeDeck.handleFileToggle, HomeDeck.setActiveFiles. eff.
    eexists _, _. split; [reflexivity|]. split; [|split]; cbn.
    + by apply stands_for_insert_ne.
    + by apply stands_for_insert_ne.
    + apply stands_for_insert.
Qed.

Lemma handlers_keep_in_step (events : list HomeDeck.event)
    (st : HomeDeck.state) (b : browser) :
  in_step st b ->
  exists st' b',
    forEach events HomeDeck.handle (st, b) = (Ok tt, (st', b')) /\ in_step st' b'.
Proof.
  revert st b. induction events as [|e events IH]; intros st b Hstep.
  - by exists st, b.
  - destruct (handle_keeps_in_step e st b Hstep) as (st1 & b1 & E1 & H1).
    destruct (IH st1 b1 H1) as (st' & b' & E & H').
    exists st', b'. split; [|done].
    simpl forEach. unfold mbind, Eff_bind. by rewrite E1.
Qed.

(** X12: from a store whose three keys are absent or hold lists of names,
    the mount effect followed by any events (drags, drops, layer toggles,
    file uploads, deletions and toggles) ends without an error, and mounting
    again on the storage it leaves restores the active layers, the uploaded
    files and the active files the state had at the end. *)
Theorem reload_restores_session (events : list HomeDeck.event)
    (store : gmap string string) (L U A : list string) :
  stands_for store "activeLayers" ["roads"] L ->
  stands_for store "uploadedFiles" [] U ->
  stands_for store "activeFiles" [] A ->
  let r := (HomeDeck.mount ;; forEach events HomeDeck.handle)
             (HomeDeck.initial, fresh store) in
  fst r = Ok tt /\
  HomeDeck.mount (HomeDeck.initial, fresh (localStorage (snd (snd r))))
  = (Ok tt,
     (HomeDeck.State false
        (HomeDeck.activeLayers (fst (snd r)))
        (HomeDeck.uploadedFiles (fst (snd r)))
        (HomeDeck.activeFiles (fst (snd r))) false 0,
      fresh (localStorage (snd (snd r))))).
Proof.
  intros HL HU HA. cbn zeta. unfold mbind, Eff_bind.
  rewrite (mount_restores store L U A HL HU HA).
  destruct (handlers_keep_in_step events
              (HomeDeck.State false L U A false 0) (fresh store))
    as (st' & b' & E & HL' & HU' & HA'); [by split|].
  rewrite E. cbn [fst snd]. split; [done|].
  by apply mount_restores.
Qed.

Lemma reload_restores_session_witness :
  let events := [HomeDeck.LayerToggle ["roads"; "buildings"];
                 HomeDeck.Drop [File "parks.geojson" "[1]"];
                 HomeDeck.FileToggle "parks.geojson" true] in
  let r := (HomeDeck.mount ;; forEach events HomeDeck.handle)
             (HomeDeck.initial, fresh ∅) in
  fst r = Ok tt /\
  HomeDeck.mount (HomeDeck.initial, fresh (localStorage (snd (snd r))))
  = (Ok tt,
     (HomeDeck.State false
        (HomeDeck.activeLayers (fst (snd r)))
        (HomeDeck.uploadedFiles (fst (snd r)))
        (HomeDeck.activeFiles (fst (snd r))) false 0,
      fresh (localStorage (snd (snd r))))).
Proof.
  apply (reload_restores_session
           [HomeDeck.LayerToggle ["roads"; "buildings"];
            HomeDeck.Drop [File "parks.geojson" "[1]"];
            HomeDeck.FileToggle "parks.geojson" true] ∅ ["roads"] [] []);
    left; split; reflexivity.
Defined.

(** ** Listing the connections *)

(** X13: fetching the connections never ends with an error and never touches
    local storage; it sends one GET request and leaves the loading flag
    down.  On an ok response whose body parses, the connections are the
    parsed body, whatever its shape, and an earlier error text is cleared; on
    any failure the connections shown before are kept and the error is
    logged once. *)
Theorem fetchConnections_outcomes (outcome : fetch_outcome)
    (st : ConnectionsModal.state) (b : browser) :
  let r := ConnectionsModal.fetchConnections outcome (st, b) in
  let request := Fetch "/api/connections-modal" "GET" "" in
  fst r = Ok tt /\
  ConnectionsModal.isLoading (fst (snd r)) = false /\
  localStorage (snd (snd r)) = localStorage b /\
  (forall resp data,
     outcome = Resolved resp -> ok resp = true ->
     JSON.parse (body resp) = Some data ->
     fst (snd r) = ConnectionsModal.State data false None /\
     trace (snd (snd r)) = trace b ++ [request]) /\
  (outcome = Rejected \/
   (exists resp, outcome = Resolved resp /\
      (ok resp = false \/ JSON.parse (body resp) = None)) ->
   ConnectionsModal.connections (fst (snd r)) = ConnectionsModal.connections st /\
   trace (snd (snd r))
   = trace b ++ [request; ConsoleError "Error fetching connections:"]).
Proof.
  unfold ConnectionsModal.fetchConnections, ConnectionsModal.setIsLoading,
    ConnectionsModal.setError, ConnectionsModal.setConnections.
  eff.
  destruct outcome as [|resp]; cbn.
  - split; [done|]. split; [done|]. split; [done|]. split.
    + intros resp data ?. done.
    + intros _. by rewrite <- app_assoc.
  - destruct (ok resp) eqn:Hok; cbn.
    + destruct (JSON.parse (body resp)) as [data|] eqn:Hdata; cbn.
      * split; [done|]. split; [done|]. split; [done|]. split.
        -- intros resp' data' [= <-] _ Hdata'.
           rewrite Hdata in Hdata'. by injection Hdata' as <-.
        -- intros [?|(resp' & [= <-] & [?|?])]; congruence.
      * split; [done|]. split; [done|]. split; [done|]. split.
        -- intros resp' data' [= <-] _ Hdata'. congruence.
        -- intros _. by rewrite <- app_assoc.
    + split; [done|]. split; [done|]. split; [done|]. split.
      * intros resp' data' [= <-] ?. congruence.
      * intros _. by rewrite <- app_assoc.
Qed.

Lemma fetchConnections_outcomes_witness :
  let st := ConnectionsModal.State (JSON.JArr [JSON.JStr "old"]) false (Some "x") in
  let resp := Response true 200 "OK" (JSON.stringify (JSON.JObj [])) in
  let r1 := ConnectionsModal.fetchConnections (Resolved resp) (st, fresh ∅) in
  let r2 := ConnectionsModal.fetchConnections Rejected (st, fresh ∅) in
  fst (snd r1) = ConnectionsModal.State (JSON.JObj []) false None /\
  ConnectionsModal.connections (fst (snd r2)) = JSON.JArr [JSON.JStr "old"].
Proof.
  cbn zeta. split.
  - apply (proj1 (proj2 (proj2 (proj2
      (fetchConnections_outcomes
         (Resolved (Response true 200 "OK" (JSON.stringify (JSON.JObj []))))
         (ConnectionsModal.State (JSON.JArr [JSON.JStr "old"]) false (Some "x"))
         (fresh ∅))))) _ (JSON.JObj []) eq_refl eq_refl).
    vm_compute. reflexivity.
  - apply (proj2 (proj2 (proj2 (proj2
      (fetchConnections_outcomes Rejected
         (ConnectionsModal.State (JSON.JArr [JSON.JStr "old"]) false (Some "x"))
         (fresh ∅)))))).
    by left.
Defined.

(** ** Confirming an upload (second revision) *)

(** X14: confirming an upload never ends with an error, whatever the file
    content, the response and the storage helper; and an upload that
    succeeds, local or remote, leaves [uploadError] as it was, so that the
    message of an earlier failed attempt stays. *)
Theorem confirm_keeps_earlier_error
    (safeSetItem : string -> string -> browser -> browser)
    (layerName : string) (isRemote : bool) (outcome : fetch_outcome)
    (st : Home.state) (b : browser) :
  let r := Home.handleLayerNameConfirm safeSetItem layerName isRemote outcome (st, b) in
  fst r = Ok tt /\
  (forall jsonData,
     JSON.parse (Home.currentUploadedFileContent st) = Some jsonData ->
     isRemote = false \/
     (exists resp result url,
        outcome = Resolved resp /\ ok resp = true /\
        JSON.parse (body resp) = Some result /\
        JS.get_property result "url" = Some url) ->
     Home.uploadError (fst (snd r)) = Home.uploadError st /\
     Home.uploadedFiles (fst (snd r)) = Home.uploadedFiles st ++ [layerName]).
Proof.
  unfold Home.handleLayerNameConfirm, Home.upload, Home.setIsModalOpen,
    Home.setCurrentUploadedFileName, Home.setCurrentUploadedFileContent,
    Home.setUploadError, Home.setUploadedFiles.
  eff.
  destruct (JSON.parse (Home.currentUploadedFileContent st)) as [jsonData|] eqn:Hp;
    cbn; [|by split].
  destruct isRemote; cbn.
  - destruct outcome as [|resp]; cbn.
    + split; [done|]. intros ? _ [?|(? & ? & ? & ? & _)]; done.
    + destruct (ok resp) eqn:Hok; cbn.
      * destruct (JSON.parse (body resp)) as [result|] eqn:Hres; cbn.
        -- destruct (JS.get_property result "url") as [url|] eqn:Hurl; cbn.
           ++ by split.
           ++ split; [done|].
              intros ? _ [?|(? & ? & ? & [= <-] & _ & ? & ?)]; [done|].
              congruence.
        -- split; [done|].
           intros ? _ [?|(? & ? & ? & [= <-] & _ & ? & _)]; [done|]. congruence.
      * split; [done|].
        intros ? _ [?|(? & ? & ? & [= <-] & ? & _)]; [done|]. congruence.
  - by split.
Qed.

Lemma confirm_keeps_earlier_error_witness :
  let st := Home.State false ["roads"] [] [] false true "parks.json" "[1]"
              (Some "Error saving file. Please try again.") 0 in
  let r := Home.handleLayerNameConfirm FileHandler.safeSetItem "parks" false
             Rejected (st, fresh ∅) in
  Home.uploadError (fst (snd r)) = Some "Error saving file. Please try again." /\
  Home.uploadedFiles (fst (snd r)) = ["parks"].
Proof.
  cbn zeta.
  apply (proj2 (confirm_keeps_earlier_error FileHandler.safeSetItem "parks" false
                  Rejected
                  (Home.State false ["roads"] [] [] false true "parks.json" "[1]"
                     (Some "Error saving file. Please try again.") 0)
                  (fresh ∅)) (JSON.JArr [JSON.JNum (JSON.Number false [JSON.d1] 1)])).
  - vm_compute. reflexivity.
  - by left.
Defined.

(** X15: when the pending content parses, a remote upload sends one POST
    request to the upload endpoint before anything else; when every number
    of the parsed content is below 10^308 in magnitude, the body of the
    request parses back to an object holding the layer name and the parsed
    content.  For any storage helper that leaves what is already in the
    trace in place. *)
Theorem remote_upload_request_body
    (safeSetItem : string -> string -> browser -> browser)
    (layerName : string) (outcome : fetch_outcome) (jsonData : JSON.value)
    (st : Home.state) (b : browser) :
  (forall key value b0, exists es, trace (safeSetItem key value b0) = trace b0 ++ es) ->
  JSON.parse (Home.currentUploadedFileContent st) = Some jsonData ->
  let r := Home.handleLayerNameConfirm safeSetItem layerName true outcome (st, b) in
  exists text rest,
    trace (snd (snd r))
    = trace b ++ Fetch "/api/remote-file-s3-upload" "POST" text :: rest /\
    (JSON.finite jsonData = true ->
     JSON.parse text
     = Some (JSON.JObj [("layerName", JSON.JStr layerName); ("data", jsonData)])).
Proof.
  intros Hsafe Hp.
  assert (Hbody :
    JSON.parse (JSON.stringify
                  (JSON.JObj [("layerName", JSON.JStr layerName); ("data", jsonData)]))
    = Some (JSON.JObj [("layerName", JSON.JStr layerName); ("data", jsonData)])).
  { rewrite parse_stringify. cbn.
    by rewrite (parse_normalize _ _ Hp). }
  unfold Home.handleLayerNameConfirm, Home.upload, Home.setIsModalOpen,
    Home.setCurrentUploadedFileName, Home.setCurrentUploadedFileContent,
    Home.setUploadError, Home.setUploadedFiles.
  eff. rewrite Hp. cbn.
  eexists. 
  destruct outcome as [|resp]; cbn.
  - eexists. split; [|intros _; exact Hbody]. by rewrite <- app_assoc.
  - destruct (ok resp) eqn:Hok; cbn.
    + destruct (JSON.parse (body resp)) as [result|] eqn:Hres; cbn.
      * destruct (JS.get_property result "url") as [url|] eqn:Hurl; cbn.
        -- destruct (Hsafe ("file:" +:+ layerName) (JS.ToString url)
                       {| localStorage := localStorage b;
                          trace := trace b ++
                            [Fetch "/api/remote-file-s3-upload" "POST"
                               (JSON.stringify
                                  (JSON.JObj [("layerName", JSON.JStr layerName);
                                              ("data", jsonData)]))] |})
             as [es1 E1].
           destruct (Hsafe "uploadedFiles"
                       (JSON.stringify
                          (JS.string_array (Home.uploadedFiles st ++ [layerName])))
                       (safeSetItem ("file:" +:+ layerName) (JS.ToString url)
                          {| localStorage := localStorage b;
                             trace := trace b ++
                               [Fetch "/api/remote-file-s3-upload" "POST"
                                  (JSON.stringify
                                     (JSON.JObj [("layerName", JSON.JStr layerName);
                                                 ("data", jsonData)]))] |}))
             as [es2 E2].
           exists (es1 ++ es2). split; [|intros _; exact Hbody].
           rewrite E2, E1. cbn. by rewrite <- !app_assoc.
        -- eexists. split; [|intros _; exact Hbody]. by rewrite <- app_assoc.
      * eexists. split; [|intros _; exact Hbody]. by rewrite <- app_assoc.
    + eexists. split; [|intros _; exact Hbody]. by rewrite <- !app_assoc.
Qed.

Lemma remote_upload_request_body_witness :
  let st := Home.State false ["roads"] [] [] false true "parks.json" "[1]" None 0 in
  let r := Home.handleLayerNameConfirm FileHandler.safeSetItem "parks" true
             Rejected (st, fresh ∅) in
  exists text rest,
    trace (snd (snd r))
    = trace (fresh ∅) ++ Fetch "/api/remote-file-s3-upload" "POST" text :: rest /\
    JSON.parse text
    = Some (JSON.JObj [("layerName", JSON.JStr "parks");
                       ("data", JSON.JArr [JSON.JNum (JSON.Number false [JSON.d1] 1)])]).
Proof.
  destruct (remote_upload_request_body FileHandler.safeSetItem "parks" Rejected
              (JSON.JArr [JSON.JNum (JSON.Number false [JSON.d1] 1)])
              (Home.State false ["roads"] [] [] false true "parks.json" "[1]" None 0)
              (fresh ∅))
    as (text & rest & E & Hback).
  - intros key value b0. by exists [SetItem key value].
  - vm_compute. reflexivity.
  - exists text, rest. split; [exact E|]. apply Hback. reflexivity.
Defined.

(** ** The map follows the active files *)

Lemma forEach_skips {St A} (l : list A) (f : A -> Eff St unit) (s : St * browser) :
  (forall x, x ∈ l -> f x s = (Ok tt, s)) -> forEach l f s = (Ok tt, s).
Proof.
  induction l as [|x l IH]; intros Hl; [done|].
  simpl forEach. unfold mbind, Eff_bind.
  rewrite Hl by left. apply IH. intros y Hy. apply Hl. by right.
Qed.

(** X16: the names the effect gives and reads back agree for every file
    name, also one that contains 'layer' or the prefix itself: the id of the
    layer of a file starts with 'geojson-layer-', taking the prefix out gives
    the file name, and writing 'source' for 'layer' gives the id of its
    source. *)
Theorem layer_id_names_file_and_source (fileName : string) :
  let layerId := "geojson-layer-" +:+ fileName in
  JS.startsWith layerId "geojson-layer-" = true /\
  JS.replace "geojson-layer-" "" layerId = fileName /\
  JS.replace "layer" "source" layerId = "geojson-source-" +:+ fileName.
Proof.
  cbn zeta. split; [apply startsWith_layer|].
  split; [apply replace_layer_prefix|apply replace_layer_source].
Qed.

Lemma remove_inactive_skips handleError activeFiles l s :
  JS.startsWith (MapComponent.id l) "geojson-layer-" = false \/
  JS.includes activeFiles (JS.replace "geojson-layer-" "" (MapComponent.id l)) = true ->
  MapComponent.remove_inactive handleError activeFiles l s = (Ok tt, s).
Proof.
  unfold MapComponent.remove_inactive. intros [-> | ->]; [done|].
  by rewrite andb_false_r.
Qed.

Lemma add_active_skips handleError transformGeoJsonData fileName st b m :
  MapComponent.map st = Some m ->
  is_Some (MapComponent.sources m !! ("geojson-source-" +:+ fileName)) ->
  MapComponent.add_active handleError transformGeoJsonData fileName (st, b)
  = (Ok tt, (st, b)).
Proof.
  intros Hm [src Hsrc].
  unfold MapComponent.add_active, MapComponent.getSource, MapComponent.the_map.
  eff. rewrite Hm. cbn. rewrite Hsrc. reflexivity.
Qed.

(** X17: when every 'geojson-layer-' layer of the map belongs to an active
    file and every active file has its source, the effect changes nothing:
    no layer or source is touched, local storage is not read and nothing is
    logged. *)
Theorem sync_settled
    (handleError : (option string -> Eff MapComponent.state unit) ->
                   string -> string -> Eff MapComponent.state unit)
    (transformGeoJsonData : JSON.value -> option JSON.value)
    (activeFiles : list string) (st : MapComponent.state) (b : browser)
    (m : MapComponent.map_instance) :
  MapComponent.map st = Some m ->
  (forall l, l ∈ MapComponent.layers m ->
     JS.startsWith (MapComponent.id l) "geojson-layer-" = true ->
     JS.includes activeFiles (JS.replace "geojson-layer-" "" (MapComponent.id l))
     = true) ->
  (forall fileName, fileName ∈ activeFiles ->
     is_Some (MapComponent.sources m !! ("geojson-source-" +:+ fileName))) ->
  MapComponent.sync handleError transformGeoJsonData activeFiles (st, b)
  = (Ok tt, (st, b)).
Proof.
  intros Hm Hlayers Hfiles. unfold MapComponent.sync.
  unfold get_state, mbind at 1, Eff_bind. cbn [fst snd]. rewrite Hm.
  destruct (MapComponent.mapLoaded st); [|done]. cbn [negb].
  unfold mbind, Eff_bind.
  rewrite forEach_skips.
  - apply forEach_skips. intros f Hf. eapply add_active_skips; eauto.
  - intros l Hl. apply remove_inactive_skips.
    destruct (JS.startsWith (MapComponent.id l) "geojson-layer-") eqn:Hp;
      [right|by left]. by apply Hlayers.
Qed.

Lemma sync_settled_witness :
  let m := MapComponent.MapInstance
             [MapComponent.Layer "base" "raster" "tiles" [];
              MapComponent.Layer "geojson-layer-parks" "fill" "geojson-source-parks" []]
             (<["tiles" := MapComponent.Source "raster" JSON.JNull]>
                (<["geojson-source-parks" := MapComponent.Source "geojson" JSON.JNull]> ∅)) in
  let st := MapComponent.State None true None (Some m) None in
  MapComponent.sync handleError_model (fun v => Some v) ["parks"] (st, fresh ∅)
  = (Ok tt, (st, fresh ∅)).
Proof.
  cbn zeta.
  eapply (sync_settled handleError_model (fun v => Some v) ["parks"]).
  - reflexivity.
  - intros l Hl Hp. cbn in Hl.
    apply elem_of_cons in Hl as [->|Hl]; [done|].
    apply list_elem_of_singleton in Hl as ->. reflexivity.
  - intros f Hf. apply list_elem_of_singleton in Hf as ->.
    cbn. rewrite lookup_insert_ne by done. rewrite lookup_insert_eq. by eexists.
Defined.

Lemma filter_other_ids (ls : list MapComponent.layer) (i : string) :
  (forall l, l ∈ ls -> MapComponent.id l <> i) ->
  filter (fun l => MapComponent.id l <> i) ls = ls.
Proof.
  induction ls as [|l ls IH]; intros Hls; [done|].
  rewrite filter_cons_True by (apply Hls; left).
  rewrite IH; [done|]. intros l' Hl'. apply Hls. by right.
Qed.

Lemma has_layer_elem_of (i : string) (m : MapComponent.map_instance) :
  MapComponent.has_layer i m = true <->
  exists l, l ∈ MapComponent.layers m /\ MapComponent.id l = i.
Proof.
  unfold MapComponent.has_layer. rewrite existsb_exists. split.
  - intros (l & Hl & E). exists l. split; [by apply list_elem_of_In|].
    by apply String.eqb_eq.
  - intros (l & Hl & E). exists l. split; [by apply list_elem_of_In|].
    by apply String.eqb_eq.
Qed.

Lemma has_layer_absent (i : string) (m : MapComponent.map_instance) :
  (forall l, l ∈ MapComponent.layers m -> MapComponent.id l <> i) ->
  MapComponent.has_layer i m = false.
Proof.
  intros H. apply not_true_is_false. rewrite has_layer_elem_of.
  intros (l & Hl & E). by apply (H l).
Qed.

Lemma prefix_differs (l : MapComponent.layer) (fileName : string) :
  JS.startsWith (MapComponent.id l) "geojson-layer-" = false ->
  MapComponent.id l <> "geojson-layer-" +:+ fileName.
Proof. intros Hp E. by rewrite E, startsWith_layer in Hp. Qed.

(** X18: on a loaded map whose layers are those of the base style, its
    sources in place, making a stored file active adds its source and its
    fill layer after the others, and making it inactive again gives back the
    map as it was, layer for layer and source for source; nothing is logged
    on the way.  The file is one whose stored text parses, is transformed and
    has a first feature. *)
Theorem sync_show_then_hide
    (handleError : (option string -> Eff MapComponent.state unit) ->
                   string -> string -> Eff MapComponent.state unit)
    (transformGeoJsonData : JSON.value -> option JSON.value)
    (fileName : string) (st : MapComponent.state) (b : browser)
    (m : MapComponent.map_instance) (c : ascii) (text : string)
    (v d : JSON.value) (g : option JSON.value) :
  MapComponent.map st = Some m ->
  MapComponent.mapLoaded st = true ->
  (forall l, l ∈ MapComponent.layers m ->
     JS.startsWith (MapComponent.id l) "geojson-layer-" = false) ->
  (forall l, l ∈ MapComponent.layers m ->
     is_Some (MapComponent.sources m !! MapComponent.source l)) ->
  MapComponent.sources m !! ("geojson-source-" +:+ fileName) = None ->
  localStorage b !! ("file:" +:+ fileName) = Some (String c text) ->
  JSON.parse (String c text) = Some v ->
  transformGeoJsonData v = Some d ->
  MapComponent.first_feature_geometry d = Some g ->
  let shown :=
    MapComponent.MapInstance
      (MapComponent.layers m ++
       [MapComponent.Layer ("geojson-layer-" +:+ fileName) "fill"
          ("geojson-source-" +:+ fileName)
          [("fill-color", JSON.JStr "#FF0000");
           ("fill-opacity", JSON.JNum MapComponent.one_half);
           ("fill-outline-color", JSON.JStr "#00FF00")]])
      (<["geojson-source-" +:+ fileName := MapComponent.Source "geojson" d]>
         (MapComponent.sources m)) in
  let st1 := MapComponent.State (MapComponent.mapError st) true
               (MapComponent.selectedLayer st) (Some shown)
               (MapComponent.tokenData st) in
  MapComponent.sync handleError transformGeoJsonData [fileName] (st, b)
  = (Ok tt, (st1, b)) /\
  MapComponent.sync handleError transformGeoJsonData [] (st1, b) = (Ok tt, (st, b)).
Proof.
  intros Hm Hloaded Hbase Hsources Hfree Hentry Hparse Htransform Hfirst shown st1.
  assert (Hids : forall l, l ∈ MapComponent.layers m ->
                   MapComponent.id l <> "geojson-layer-" +:+ fileName)
    by (intros l Hl; by apply prefix_differs, Hbase).
  split.
  - unfold MapComponent.sync.
    unfold get_state, mbind at 1, Eff_bind. cbn [fst snd].
    rewrite Hm, Hloaded. cbn [negb]. unfold mbind, Eff_bind.
    rewrite forEach_skips
      by (intros l Hl; apply remove_inactive_skips; left; by apply Hbase).
    simpl forEach. unfold mbind, Eff_bind.
    rewrite (add_active_adds handleError transformGeoJsonData fileName st b m
               c text v d g Hm Hfree (has_layer_absent _ _ Hids) Hentry Hparse
               Htransform Hfirst).
    cbn zeta. by rewrite Hloaded.
  - unfold MapComponent.sync.
    unfold get_state, mbind at 1, Eff_bind. cbn [fst snd]. subst st1.
    cbn [MapComponent.map MapComponent.mapLoaded negb]. unfold mbind, Eff_bind.
    subst shown. cbn [MapComponent.layers].
    rewrite forEach_app. unfold mbind, Eff_bind.
    rewrite forEach_skips
      by (intros l Hl; apply remove_inactive_skips; left; by apply Hbase).
    simpl forEach. unfold mbind, Eff_bind.
    erewrite (remove_inactive_removes handleError []
                (MapComponent.Layer ("geojson-layer-" +:+ fileName) "fill"
                   ("geojson-source-" +:+ fileName)
                   [("fill-color", JSON.JStr "#FF0000");
                    ("fill-opacity", JSON.JNum MapComponent.one_half);
                    ("fill-outline-color", JSON.JStr "#00FF00")]) fileName);
      cycle 1.
    + reflexivity.
    + reflexivity.
    + reflexivity.
    + apply has_layer_elem_of. eexists.
      split; [cbn [MapComponent.layers]; apply elem_of_app; right; left|reflexivity].
    + cbn [MapComponent.sources]. apply lookup_insert_eq.
    + cbn [MapComponent.layers]. intros l' Hl' Hsrc.
      apply elem_of_app in Hl' as [Hl'|Hl'].
      * destruct (Hsources l' Hl') as [src Hs]. congruence.
      * by apply list_elem_of_singleton in Hl' as ->.
    + cbn. rewrite filter_app, (filter_other_ids _ _ Hids).
      rewrite filter_cons_False by (intros H; by apply H).
      rewrite filter_nil, app_nil_r, delete_insert_id by done.
      destruct st, m. cbn in *. by subst.
Qed.

Lemma sync_show_then_hide_witness :
  let collection :=
    JSON.JObj [("type", JSON.JStr "FeatureCollection");
               ("features",
                JSON.JArr [JSON.JObj [("type", JSON.JStr "Feature");
                                      ("geometry", JSON.JNull)]])] in
  let m := MapComponent.MapInstance [MapComponent.Layer "base" "raster" "tiles" []]
             (<["tiles" := MapComponent.Source "raster" JSON.JNull]> ∅) in
  let st := MapComponent.State None true None (Some m) None in
  let b := fresh (<["file:parks" := JSON.stringify collection]> ∅) in
  exists st1,
    MapComponent.sync handleError_model (fun v => Some v) ["parks"] (st, b)
    = (Ok tt, (st1, b)) /\
    MapComponent.sync handleError_model (fun v => Some v) [] (st1, b)
    = (Ok tt, (st, b)).
Proof.
  cbn zeta. eexists.
  eapply (sync_show_then_hide handleError_model (fun v => Some v) "parks" _ _ _
            "{" _ _ _ (Some JSON.JNull)).
  - reflexivity.
  - reflexivity.
  - intros l Hl. cbn in Hl. by apply list_elem_of_singleton in Hl as ->.
  - intros l Hl. cbn in Hl. apply list_elem_of_singleton in Hl as ->.
    cbn. rewrite lookup_insert_eq. by eexists.
  - vm_compute. reflexivity.
  - vm_compute. reflexivity.
  - vm_compute. reflexivity.
  - reflexivity.
  - vm_compute. reflexivity.
Defined.

(** ** What the map operations keep *)

Lemma startsWith_inv (s p : string) :
  JS.startsWith s p = true -> exists r, s = p +:+ r.
Proof.
  unfold JS.startsWith. revert s. induction p as [|a p IH]; intros s H.
  - by exists s.
  - destruct s as [|c s]; [done|]. simpl in H.
    destruct (ascii_dec a c) as [->|]; [|done].
    destruct (IH s H) as [r ->]. by exists r.
Qed.

Lemma startsWith_source (fileName : string) :
  JS.startsWith ("geojson-source-" +:+ fileName) "geojson-source-" = true.
Proof. destruct fileName; reflexivity. Qed.

Section invariants.
Context {St : Type} (P : St -> Prop).

Lemma invariant_ret {A} (a : A) : invariant P (mret a : Eff St A).
Proof. intros s H. exact H. Qed.

Lemma invariant_throw {A} e : invariant P (throw e : Eff St A).
Proof. intros s H. exact H. Qed.

Lemma invariant_bind {A B} (m : Eff St A) (k : A -> Eff St B) :
  invariant P m -> (forall a, invariant P (k a)) -> invariant P (m ≫= k).
Proof.
  intros Hm Hk s Hs. unfold mbind, Eff_bind.
  specialize (Hm s Hs).
  destruct (m s) as [[a|e] s']; cbn in *; [|done].
  by apply Hk.
Qed.

Lemma invariant_or_throw {A} e (o : option A) :
  invariant P (or_throw e o : Eff St A).
Proof. destruct o; [apply invariant_ret|apply invariant_throw]. Qed.

Lemma invariant_try_catch {A} (m : Eff St A) h :
  invariant P m -> (forall e, invariant P (h e)) -> invariant P (try_catch m h).
Proof.
  intros Hm Hh s Hs. unfold try_catch.
  specialize (Hm s Hs).
  destruct (m s) as [[a|e] s']; cbn in *; [done|].
  by apply Hh.
Qed.

Lemma invariant_get_state : invariant P (get_state : Eff St St).
Proof. intros s H. exact H. Qed.

Lemma invariant_getItem key : invariant P (getItem key : Eff St _).
Proof. intros s H. exact H. Qed.

Lemma invariant_on_browser (f : browser -> browser) :
  invariant P (on_browser f : Eff St unit).
Proof. intros s H. exact H. Qed.

Lemma invariant_forEach {A} (l : list A) (f : A -> Eff St unit) :
  (forall x, invariant P (f x)) -> invariant P (forEach l f).
Proof.
  intros Hf. induction l as [|x l IH]; simpl.
  - apply invariant_ret.
  - apply invariant_bind; [apply Hf|by intros _].
Qed.

End invariants.

Section map_invariants.

Variable handleError :
  (option string -> Eff MapComponent.state unit) ->
  string -> string -> Eff MapComponent.state unit.
Variable transformGeoJsonData : JSON.value -> option JSON.value.
Hypothesis Hreports : reports_only handleError.

(** A property of the map instance that the four changes of the effect and
    the change of a paint property keep. *)
Variable Q : MapComponent.map_instance -> Prop.
Hypothesis Q_removeLayer : forall m i,
  JS.startsWith i "geojson-layer-" = true -> Q m ->
  Q (MapComponent.MapInstance
       (filter (fun l => MapComponent.id l <> i) (MapComponent.layers m))
       (MapComponent.sources m)).
Hypothesis Q_removeSource : forall m i,
  JS.startsWith i "geojson-source-" = true ->
  MapComponent.uses_source i m = false -> Q m ->
  Q (MapComponent.MapInstance (MapComponent.layers m)
       (delete i (MapComponent.sources m))).
Hypothesis Q_addSource : forall m i src,
  JS.startsWith i "geojson-source-" = true -> Q m ->
  Q (MapComponent.MapInstance (MapComponent.layers m)
       (<[i := src]> (MapComponent.sources m))).
Hypothesis Q_addLayer : forall m l,
  JS.startsWith (MapComponent.id l) "geojson-layer-" = true ->
  MapComponent.has_layer (MapComponent.id l) m = false ->
  is_Some (MapComponent.sources m !! MapComponent.source l) ->
  Q m ->
  Q (MapComponent.MapInstance (MapComponent.layers m ++ [l]) (MapComponent.sources m)).
Hypothesis Q_setPaintProperty : forall m i name value,
  Q m ->
  Q (MapComponent.MapInstance
       (List.map (fun l => if String.eqb (MapComponent.id l) i
                           then MapComponent.set_paint name value l else l)
          (MapComponent.layers m))
       (MapComponent.sources m)).

Lemma on_error_invariant e :
  invariant (map_satisfies Q) (MapComponent.on_error handleError e).
Proof.
  intros s (m & Hm & HQ). exists m. split; [|done].
  unfold MapComponent.on_error. by rewrite Hreports.
Qed.

Lemma setSelectedLayer_invariant v :
  invariant (map_satisfies Q) (MapComponent.setSelectedLayer v).
Proof. intros s (m & Hm & HQ). by exists m. Qed.

Lemma removeLayer_invariant i :
  JS.startsWith i "geojson-layer-" = true ->
  invariant (map_satisfies Q) (MapComponent.removeLayer handleError i).
Proof.
  intros Hi [st b] Hs. pose proof Hs as (m & Hm & HQ). cbn in Hm.
  unfold MapComponent.removeLayer, MapComponent.the_map.
  unfold get_state, read, or_throw, mbind, mret, Eff_bind, Eff_ret.
  cbn [fst snd]. rewrite Hm.
  destruct (MapComponent.has_layer i m).
  - eexists. split; [reflexivity|]. by apply Q_removeLayer.
  - by apply (on_error_invariant _ (st, b)).
Qed.

Lemma removeSource_invariant i :
  JS.startsWith i "geojson-source-" = true ->
  invariant (map_satisfies Q) (MapComponent.removeSource handleError i).
Proof.
  intros Hi [st b] Hs. pose proof Hs as (m & Hm & HQ). cbn in Hm.
  unfold MapComponent.removeSource, MapComponent.the_map.
  unfold get_state, read, or_throw, mbind, mret, Eff_bind, Eff_ret.
  cbn [fst snd]. rewrite Hm.
  destruct (MapComponent.sources m !! i); [|exact Hs].
  destruct (MapComponent.uses_source i m) eqn:Hused.
  - by apply (on_error_invariant _ (st, b)).
  - eexists. split; [reflexivity|]. by apply Q_removeSource.
Qed.

Lemma addSource_invariant i src :
  JS.startsWith i "geojson-source-" = true ->
  invariant (map_satisfies Q) (MapComponent.addSource i src).
Proof.
  intros Hi [st b] Hs. pose proof Hs as (m & Hm & HQ). cbn in Hm.
  unfold MapComponent.addSource, MapComponent.the_map.
  unfold get_state, read, or_throw, mbind, mret, Eff_bind, Eff_ret.
  cbn [fst snd]. rewrite Hm.
  destruct (MapComponent.sources m !! i); [exact Hs|].
  eexists. split; [reflexivity|]. by apply Q_addSource.
Qed.

Lemma addLayer_invariant l :
  JS.startsWith (MapComponent.id l) "geojson-layer-" = true ->
  invariant (map_satisfies Q) (MapComponent.addLayer handleError l).
Proof.
  intros Hl [st b] Hs. pose proof Hs as (m & Hm & HQ). cbn in Hm.
  unfold MapComponent.addLayer, MapComponent.the_map.
  unfold get_state, read, or_throw, mbind, mret, Eff_bind, Eff_ret.
  cbn [fst snd]. rewrite Hm.
  destruct (MapComponent.has_layer (MapComponent.id l) m) eqn:Hhas.
  - by apply (on_error_invariant _ (st, b)).
  - destruct (MapComponent.sources m !! MapComponent.source l) as [src|] eqn:Hsrc.
    + eexists. split; [reflexivity|]. by apply Q_addLayer.
    + by apply (on_error_invariant _ (st, b)).
Qed.

Lemma setPaintProperty_invariant i name value :
  invariant (map_satisfies Q) (MapComponent.setPaintProperty handleError i name value).
Proof.
  intros [st b] Hs. pose proof Hs as (m & Hm & HQ). cbn in Hm.
  unfold MapComponent.setPaintProperty, MapComponent.the_map.
  unfold get_state, read, or_throw, mbind, mret, Eff_bind, Eff_ret.
  cbn [fst snd]. rewrite Hm.
  destruct (MapComponent.has_layer i m).
  - eexists. split; [reflexivity|]. by apply Q_setPaintProperty.
  - by apply (on_error_invariant _ (st, b)).
Qed.

Lemma remove_inactive_invariant activeFiles l :
  invariant (map_satisfies Q) (MapComponent.remove_inactive handleError activeFiles l).
Proof.
  unfold MapComponent.remove_inactive.
  destruct (JS.startsWith (MapComponent.id l) "geojson-layer-") eqn:Hl;
    [|apply invariant_ret].
  destruct (negb _); [|apply invariant_ret].
  apply invariant_bind; [by apply removeLayer_invariant|].
  intros _. apply removeSource_invariant.
  destruct (startsWith_inv _ _ Hl) as [fileName ->].
  rewrite replace_layer_source. apply startsWith_source.
Qed.

Lemma add_active_invariant fileName :
  invariant (map_satisfies Q)
    (MapComponent.add_active handleError transformGeoJsonData fileName).
Proof.
  unfold MapComponent.add_active.
  apply invariant_bind.
  { intros s Hs. unfold MapComponent.getSource, MapComponent.the_map.
    unfold get_state, read, or_throw, mbind, mret, Eff_bind, Eff_ret.
    cbn [fst snd]. by destruct (MapComponent.map (fst s)). }
  intros [src|]; [apply invariant_ret|].
  apply invariant_bind; [apply invariant_getItem|]. intros geojsonData.
  destruct (JS.truthy geojsonData).
  - apply invariant_try_catch.
    + apply invariant_bind; [apply invariant_or_throw|]. intros parsedData.
      apply invariant_bind; [apply invariant_or_throw|]. intros transformedData.
      apply invariant_bind; [apply invariant_or_throw|]. intros _.
      apply invariant_bind; [apply addSource_invariant, startsWith_source|].
      intros _.
      apply addLayer_invariant. apply startsWith_layer.
    + intros e. apply invariant_on_browser.
  - apply invariant_on_browser.
Qed.

Lemma sync_invariant activeFiles :
  invariant (map_satisfies Q)
    (MapComponent.sync handleError transformGeoJsonData activeFiles).
Proof.
  unfold MapComponent.sync.
  apply invariant_bind; [apply invariant_get_state|]. intros s.
  destruct (MapComponent.map s) as [m|]; [|apply invariant_ret].
  destruct (negb _); [apply invariant_ret|].
  apply invariant_bind.
  - apply invariant_forEach. intros l. apply remove_inactive_invariant.
  - intros _. apply invariant_forEach. intros f. apply add_active_invariant.
Qed.

Lemma updateLayerStyle_invariant fillColor fillOpacity fillOutlineColor :
  invariant (map_satisfies Q)
    (MapComponent.updateLayerStyle handleError fillColor fillOpacity fillOutlineColor).
Proof.
  unfold MapComponent.updateLayerStyle.
  apply invariant_bind; [apply invariant_get_state|]. intros s.
  destruct (MapComponent.map s) as [m|]; [|apply invariant_ret].
  destruct (JS.truthy _); [|apply invariant_ret].
  repeat (apply invariant_bind; [apply setPaintProperty_invariant|intros _]).
  apply setSelectedLayer_invariant.
Qed.

End map_invariants.

Lemma ids_of_filter (P : MapComponent.layer -> Prop) `{!forall l, Decision (P l)}
    (ls : list MapComponent.layer) :
  NoDup (List.map MapComponent.id ls) ->
  NoDup (List.map MapComponent.id (filter P ls)).
Proof.
  induction ls as [|l ls IH]; [done|]. cbn [List.map]. intros Hnd.
  apply NoDup_cons in Hnd as [Hl Hnd].
  destruct (decide (P l)).
  - rewrite filter_cons_True by done. cbn [List.map].
    apply NoDup_cons. split; [|by apply IH].
    intros Hin. apply Hl.
    apply list_elem_of_fmap in Hin as (l' & E & Hl').
    apply list_elem_of_filter in Hl' as [_ Hl'].
    apply list_elem_of_fmap. by exists l'.
  - rewrite filter_cons_False by done. by apply IH.
Qed.

Lemma uses_source_absent (i : string) (m : MapComponent.map_instance) :
  MapComponent.uses_source i m = false ->
  forall l, l ∈ MapComponent.layers m -> MapComponent.source l <> i.
Proof.
  unfold MapComponent.uses_source. intros H l Hl E.
  apply not_true_iff_false in H. apply H.
  apply existsb_exists. exists l. split; [by apply list_elem_of_In|].
  by apply String.eqb_eq.
Qed.

Lemma restyled_ids (i name : string) (value : JSON.value)
    (ls : list MapComponent.layer) :
  List.map MapComponent.id
    (List.map (fun l => if String.eqb (MapComponent.id l) i
                        then MapComponent.set_paint name value l else l) ls)
  = List.map MapComponent.id ls.
Proof.
  induction ls as [|l ls IH]; [done|]. cbn [List.map]. rewrite IH. f_equal.
  by destruct (String.eqb _ _).
Qed.

Lemma well_formed_removeLayer m i :
  well_formed m ->
  well_formed (MapComponent.MapInstance
                 (filter (fun l => MapComponent.id l <> i) (MapComponent.layers m))
                 (MapComponent.sources m)).
Proof.
  intros [Hnd Hsrc]. split; cbn.
  - by apply ids_of_filter.
  - intros l Hl. apply list_elem_of_filter in Hl as [_ Hl]. by apply Hsrc.
Qed.

Lemma well_formed_removeSource m i :
  MapComponent.uses_source i m = false -> well_formed m ->
  well_formed (MapComponent.MapInstance (MapComponent.layers m)
                 (delete i (MapComponent.sources m))).
Proof.
  intros Hused [Hnd Hsrc]. split; cbn; [done|].
  intros l Hl. rewrite lookup_delete_ne; [by apply Hsrc|].
  intros E. by apply (uses_source_absent i m Hused l Hl).
Qed.

Lemma well_formed_addSource m i src :
  well_formed m ->
  well_formed (MapComponent.MapInstance (MapComponent.layers m)
                 (<[i := src]> (MapComponent.sources m))).
Proof.
  intros [Hnd Hsrc]. split; cbn; [done|].
  intros l Hl. apply lookup_insert_is_Some'. right. by apply Hsrc.
Qed.

Lemma well_formed_addLayer m l :
  MapComponent.has_layer (MapComponent.id l) m = false ->
  is_Some (MapComponent.sources m !! MapComponent.source l) ->
  well_formed m ->
  well_formed (MapComponent.MapInstance (MapComponent.layers m ++ [l])
                 (MapComponent.sources m)).
Proof.
  intros Hhas Hl [Hnd Hsrc]. split; cbn.
  - rewrite map_app. apply NoDup_app. split; [done|]. split.
    + intros i Hi Hi'. cbn in Hi'. apply list_elem_of_singleton in Hi' as ->.
      apply not_true_iff_false in Hhas. apply Hhas, has_layer_elem_of.
      apply list_elem_of_fmap in Hi as (l' & E & Hl'). by exists l'.
    + cbn. apply NoDup_singleton.
  - intros l' Hl'. apply elem_of_app in Hl' as [Hl'|Hl']; [by apply Hsrc|].
    by apply list_elem_of_singleton in Hl' as ->.
Qed.

Lemma well_formed_setPaintProperty m i name value :
  well_formed m ->
  well_formed (MapComponent.MapInstance
                 (List.map (fun l => if String.eqb (MapComponent.id l) i
                                     then MapComponent.set_paint name value l else l)
                    (MapComponent.layers m))
                 (MapComponent.sources m)).
Proof.
  intros [Hnd Hsrc]. split; cbn.
  - by rewrite restyled_ids.
  - intros l Hl. apply list_elem_of_fmap in Hl as (l' & -> & Hl').
    destruct (String.eqb _ _); cbn; by apply Hsrc.
Qed.

(** X19: the effect on the active files and the restyling of the selected
    layer keep the map instance well formed: no two layers share an id and
    the source of every layer is there, whatever the active files, the
    stored texts and the colours are.  For an error reporter that leaves the
    map instance alone. *)
Theorem map_stays_well_formed
    (handleError : (option string -> Eff MapComponent.state unit) ->
                   string -> string -> Eff MapComponent.state unit)
    (transformGeoJsonData : JSON.value -> option JSON.value)
    (activeFiles : list string) (fillColor : string) (fillOpacity : JSON.number)
    (fillOutlineColor : string) (st : MapComponent.state) (b : browser) :
  reports_only handleError ->
  map_satisfies well_formed st ->
  map_satisfies well_formed
    (fst (run (MapComponent.sync handleError transformGeoJsonData activeFiles) st b)) /\
  map_satisfies well_formed
    (fst (run (MapComponent.updateLayerStyle handleError fillColor fillOpacity
                 fillOutlineColor) st b)).
Proof.
  intros Hreports Hst. split.
  - apply (sync_invariant handleError transformGeoJsonData Hreports well_formed
             (fun m i _ => well_formed_removeLayer m i)
             (fun m i _ => well_formed_removeSource m i)
             (fun m i src _ => well_formed_addSource m i src)
             (fun m l _ => well_formed_addLayer m l)
             activeFiles (st, b) Hst).
  - apply (updateLayerStyle_invariant handleError Hreports well_formed
             well_formed_setPaintProperty
             fillColor fillOpacity fillOutlineColor (st, b) Hst).
Qed.

Lemma handleError_model_reports_only : reports_only handleError_model.
Proof. intros e context [st b]. reflexivity. Qed.

Lemma map_stays_well_formed_witness :
  let m := MapComponent.MapInstance
             [MapComponent.Layer "geojson-layer-parks" "fill" "geojson-source-parks" []]
             (<["geojson-source-parks" := MapComponent.Source "geojson" JSON.JNull]> ∅) in
  let st := MapComponent.State None true (Some "geojson-layer-parks") (Some m) None in
  map_satisfies well_formed
    (fst (run (MapComponent.sync handleError_model (fun v => Some v) []) st (fresh ∅))) /\
  map_satisfies well_formed
    (fst (run (MapComponent.updateLayerStyle handleError_model "#000000"
                 MapComponent.one_half "#FFFFFF") st (fresh ∅))).
Proof.
  cbn zeta. apply map_stays_well_formed; [apply handleError_model_reports_only|].
  eexists. split; [reflexivity|]. split; cbn.
  - apply NoDup_singleton.
  - intros l Hl. apply list_elem_of_singleton in Hl as ->.
    cbn. rewrite lookup_insert_eq. by eexists.
Defined.

Lemma base_layers_filter (ls : list MapComponent.layer) (i : string) :
  JS.startsWith i "geojson-layer-" = true ->
  filter (fun l => JS.startsWith (MapComponent.id l) "geojson-layer-" = false)
    (filter (fun l => MapComponent.id l <> i) ls)
  = filter (fun l => JS.startsWith (MapComponent.id l) "geojson-layer-" = false) ls.
Proof.
  intros Hi. induction ls as [|l ls IH]; [done|].
  destruct (decide (MapComponent.id l = i)) as [E|Hne].
  - rewrite (filter_cons_False (fun l => MapComponent.id l <> i)) by (intros H; by apply H).
    rewrite (filter_cons_False _ l ls) by (rewrite E, Hi; done). exact IH.
  - rewrite (filter_cons_True (fun l => MapComponent.id l <> i)) by done.
    destruct (JS.startsWith (MapComponent.id l) "geojson-layer-") eqn:Hl.
    + rewrite !filter_cons_False by (rewrite Hl; done). exact IH.
    + rewrite !filter_cons_True by done. by rewrite IH.
Qed.

Lemma prefix_excludes (i j : string) :
  JS.startsWith i "geojson-source-" = true ->
  JS.startsWith j "geojson-source-" = false -> i <> j.
Proof. intros Hi Hj E. congruence. Qed.

(** X20: the effect never touches what is not its own: the layers whose id
    does not start with 'geojson-layer-' stay, in their order and with their
    paint, and every source whose id does not start with 'geojson-source-'
    keeps its entry, whatever the active files and the stored texts are.
    For an error reporter that leaves the map instance alone. *)
Theorem sync_leaves_base_style
    (handleError : (option string -> Eff MapComponent.state unit) ->
                   string -> string -> Eff MapComponent.state unit)
    (transformGeoJsonData : JSON.value -> option JSON.value)
    (activeFiles : list string) (st : MapComponent.state) (b : browser)
    (m : MapComponent.map_instance) :
  reports_only handleError ->
  MapComponent.map st = Some m ->
  exists m',
    MapComponent.map
      (fst (run (MapComponent.sync handleError transformGeoJsonData activeFiles) st b))
    = Some m' /\
    base_layers m' = base_layers m /\
    (forall i, JS.startsWith i "geojson-source-" = false ->
       MapComponent.sources m' !! i = MapComponent.sources m !! i).
Proof.
  intros Hreports Hm.
  apply (sync_invariant handleError transformGeoJsonData Hreports
           (fun m' => base_layers m' = base_layers m /\
                      forall i, JS.startsWith i "geojson-source-" = false ->
                        MapComponent.sources m' !! i = MapComponent.sources m !! i)).
  - intros m0 i Hi [Hbase Hsrc]. split; [|done].
    unfold base_layers in *. cbn [MapComponent.layers].
    by rewrite base_layers_filter.
  - intros m0 i Hi _ [Hbase Hsrc]. split; [done|].
    intros j Hj. cbn [MapComponent.sources].
    rewrite lookup_delete_ne by (by apply prefix_excludes). by apply Hsrc.
  - intros m0 i src Hi [Hbase Hsrc]. split; [done|].
    intros j Hj. cbn [MapComponent.sources].
    rewrite lookup_insert_ne by (by apply prefix_excludes). by apply Hsrc.
  - intros m0 l Hl _ _ [Hbase Hsrc]. split; [|done].
    unfold base_layers in *. cbn [MapComponent.layers].
    rewrite filter_app, filter_cons_False by (rewrite Hl; done).
    by rewrite filter_nil, app_nil_r.
  - by exists m.
Qed.

Lemma sync_leaves_base_style_witness :
  let m := MapComponent.MapInstance
             [MapComponent.Layer "base" "raster" "tiles" [];
              MapComponent.Layer "geojson-layer-parks" "fill" "geojson-source-parks" []]
             (<["tiles" := MapComponent.Source "raster" JSON.JNull]>
                (<["geojson-source-parks" := MapComponent.Source "geojson" JSON.JNull]> ∅)) in
  let st := MapComponent.State None true None (Some m) None in
  exists m',
    MapComponent.map
      (fst (run (MapComponent.sync handleError_model (fun v => Some v) []) st (fresh ∅)))
    = Some m' /\
    base_layers m' = [MapComponent.Layer "base" "raster" "tiles" []] /\
    (forall i, JS.startsWith i "geojson-source-" = false ->
       MapComponent.sources m' !! i = MapComponent.sources m !! i).
Proof.
  cbn zeta.
  apply (sync_leaves_base_style handleError_model (fun v => Some v) []
           (MapComponent.State None true None
              (Some (MapComponent.MapInstance
                 [MapComponent.Layer "base" "raster" "tiles" [];
                  MapComponent.Layer "geojson-layer-parks" "fill"
                    "geojson-source-parks" []]
                 (<["tiles" := MapComponent.Source "raster" JSON.JNull]>
                    (<["geojson-source-parks" :=
                         MapComponent.Source "geojson" JSON.JNull]> ∅)))) None)
           (fresh ∅) _ handleError_model_reports_only eq_refl).
Defined.

(** ** Restyling the selected layer *)

Lemma has_layer_restyled (i j name : string) (value : JSON.value)
    (m : MapComponent.map_instance)
    (srcs : gmap string MapComponent.source_specification) :
  MapComponent.has_layer i
    (MapComponent.MapInstance
       (List.map (fun l => if String.eqb (MapComponent.id l) j
                           then MapComponent.set_paint name value l else l)
          (MapComponent.layers m)) srcs)
  = MapComponent.has_layer i m.
Proof.
  unfold MapComponent.has_layer. cbn [MapComponent.layers].
  induction (MapComponent.layers m) as [|l ls IH]; [done|].
  cbn [List.map existsb]. rewrite IH. f_equal.
  by destruct (String.eqb (MapComponent.id l) j).
Qed.

Lemma setPaintProperty_sets handleError (i name : string) (value : JSON.value)
    (st : MapComponent.state) (b : browser) (m : MapComponent.map_instance) :
  MapComponent.map st = Some m ->
  MapComponent.has_layer i m = true ->
  MapComponent.setPaintProperty handleError i name value (st, b)
  = (Ok tt,
     (MapComponent.State (MapComponent.mapError st) (MapComponent.mapLoaded st)
        (MapComponent.selectedLayer st)
        (Some (MapComponent.MapInstance
                 (List.map (fun l => if String.eqb (MapComponent.id l) i
                                     then MapComponent.set_paint name value l else l)
                    (MapComponent.layers m))
                 (MapComponent.sources m)))
        (MapComponent.tokenData st), b)).
Proof.
  intros Hm Hhas.
  unfold MapComponent.setPaintProperty, MapComponent.the_map, MapComponent.set_map.
  unfold get_state, set_state, read, or_throw, mbind, mret, Eff_bind, Eff_ret.
  cbn [fst snd]. rewrite Hm. cbn. rewrite Hhas. reflexivity.
Qed.

(** The layer [l] after a save of the form. *)
Lemma restyled_thrice (i fillColor fillOutlineColor : string)
    (fillOpacity : JSON.number) (ls : list MapComponent.layer) :
  List.map (fun l => if String.eqb (MapComponent.id l) i
                     then MapComponent.set_paint "fill-outline-color"
                            (JSON.JStr fillOutlineColor) l else l)
    (List.map (fun l => if String.eqb (MapComponent.id l) i
                        then MapComponent.set_paint "fill-opacity"
                               (JSON.JNum fillOpacity) l else l)
       (List.map (fun l => if String.eqb (MapComponent.id l) i
                           then MapComponent.set_paint "fill-color"
                                  (JSON.JStr fillColor) l else l) ls))
  = List.map
      (fun l =>
         if String.eqb (MapComponent.id l) i
         then MapComponent.Layer (MapComponent.id l) (MapComponent.type l)
                (MapComponent.source l)
                (JSON.obj_set "fill-outline-color" (JSON.JStr fillOutlineColor)
                   (JSON.obj_set "fill-opacity" (JSON.JNum fillOpacity)
                      (JSON.obj_set "fill-color" (JSON.JStr fillColor)
                         (MapComponent.paint l))))
         else l) ls.
Proof.
  rewrite !List.map_map. apply List.map_ext. intros l.
  destruct (String.eqb (MapComponent.id l) i) eqn:E; cbn; rewrite ?E; cbn;
    rewrite ?E; reflexivity.
Qed.

Lemma on_click_selects (fileName : string) (below : list string)
    (st : MapComponent.state) (b : browser) :
  MapComponent.on_click (("geojson-layer-" +:+ fileName) :: below) (st, b)
  = (Ok tt,
     (MapComponent.State (MapComponent.mapError st) (MapComponent.mapLoaded st)
        (Some ("geojson-layer-" +:+ fileName)) (MapComponent.map st)
        (MapComponent.tokenData st), b)).
Proof. unfold MapComponent.on_click. by rewrite startsWith_layer. Qed.

Lemma updateLayerStyle_sets
    (handleError : (option string -> Eff MapComponent.state unit) ->
                   string -> string -> Eff MapComponent.state unit)
    (fileName fillColor fillOutlineColor : string) (fillOpacity : JSON.number)
    (st : MapComponent.state) (b : browser) (m : MapComponent.map_instance) :
  MapComponent.map st = Some m ->
  MapComponent.selectedLayer st = Some ("geojson-layer-" +:+ fileName) ->
  MapComponent.has_layer ("geojson-layer-" +:+ fileName) m = true ->
  MapComponent.updateLayerStyle handleError fillColor fillOpacity fillOutlineColor
    (st, b)
  = (Ok tt,
     (MapComponent.State (MapComponent.mapError st) (MapComponent.mapLoaded st)
        None
        (Some (MapComponent.MapInstance
                 (List.map
                    (fun l =>
                       if String.eqb (MapComponent.id l) ("geojson-layer-" +:+ fileName)
                       then MapComponent.Layer (MapComponent.id l) (MapComponent.type l)
                              (MapComponent.source l)
                              (JSON.obj_set "fill-outline-color"
                                 (JSON.JStr fillOutlineColor)
                                 (JSON.obj_set "fill-opacity" (JSON.JNum fillOpacity)
                                    (JSON.obj_set "fill-color" (JSON.JStr fillColor)
                                       (MapComponent.paint l))))
                       else l)
                    (MapComponent.layers m))
                 (MapComponent.sources m)))
        (MapComponent.tokenData st), b)).
Proof.
  intros Hm Hsel Hhas.
  unfold MapComponent.updateLayerStyle.
  unfold get_state, mbind at 1, Eff_bind.
  cbn [fst snd]. rewrite Hm, Hsel.
  change (JS.truthy (Some ("geojson-layer-" +:+ fileName))) with true.
  change (default "" (Some ("geojson-layer-" +:+ fileName)))
    with ("geojson-layer-" +:+ fileName).
  cbv iota zeta. unfold mbind, Eff_bind.
  erewrite setPaintProperty_sets; [|exact Hm|exact Hhas].
  erewrite setPaintProperty_sets;
    [|reflexivity|by rewrite has_layer_restyled].
  erewrite setPaintProperty_sets;
    [|reflexivity|
     by rewrite (has_layer_restyled _ _ _ _ (MapComponent.MapInstance _ _)),
          has_layer_restyled].
  cbn. by rewrite restyled_thrice.
Qed.

(** X21: a click whose topmost feature lies on the layer of a file selects
    that layer, whatever lies below; saving the form then sets the three
    paint properties of that layer to the values of the form, keeps its id,
    type, source and other paint properties, leaves the other layers and the
    sources alone, reports no error and clears the selection. *)
Theorem click_then_save_restyles
    (handleError : (option string -> Eff MapComponent.state unit) ->
                   string -> string -> Eff MapComponent.state unit)
    (fileName : string) (below : list string) (form : MapComponent.LayerStyleForm.state)
    (st : MapComponent.state) (b : browser) (m : MapComponent.map_instance) :
  MapComponent.map st = Some m ->
  MapComponent.has_layer ("geojson-layer-" +:+ fileName) m = true ->
  let restyled l :=
    if String.eqb (MapComponent.id l) ("geojson-layer-" +:+ fileName)
    then MapComponent.Layer (MapComponent.id l) (MapComponent.type l)
           (MapComponent.source l)
           (JSON.obj_set "fill-outline-color"
              (JSON.JStr (MapComponent.LayerStyleForm.fillOutlineColor form))
              (JSON.obj_set "fill-opacity"
                 (JSON.JNum (MapComponent.LayerStyleForm.fillOpacity form))
                 (JSON.obj_set "fill-color"
                    (JSON.JStr (MapComponent.LayerStyleForm.fillColor form))
                    (MapComponent.paint l))))
    else l in
  MapComponent.on_click (("geojson-layer-" +:+ fileName) :: below) (st, b)
  = (Ok tt,
     (MapComponent.State (MapComponent.mapError st) (MapComponent.mapLoaded st)
        (Some ("geojson-layer-" +:+ fileName)) (Some m)
        (MapComponent.tokenData st), b)) /\
  (MapComponent.on_click (("geojson-layer-" +:+ fileName) :: below) ;;
   MapComponent.LayerStyleForm.handleSubmit
     (MapComponent.updateLayerStyle handleError) form) (st, b)
  = (Ok tt,
     (MapComponent.State (MapComponent.mapError st) (MapComponent.mapLoaded st)
        None
        (Some (MapComponent.MapInstance
                 (List.map restyled (MapComponent.layers m))
                 (MapComponent.sources m)))
        (MapComponent.tokenData st), b)).
Proof.
  intros Hm Hhas restyled.
  pose proof (on_click_selects fileName below st b) as Hclick.
  rewrite Hm in Hclick. split; [exact Hclick|].
  unfold mbind, Eff_bind. rewrite Hclick.
  unfold MapComponent.LayerStyleForm.handleSubmit.
  by rewrite (updateLayerStyle_sets handleError fileName _ _ _ _ b m).
Qed.

Lemma click_then_save_restyles_witness :
  let m := MapComponent.MapInstance
             [MapComponent.Layer "geojson-layer-parks" "fill" "geojson-source-parks"
                [("fill-opacity", JSON.JNum MapComponent.one_half)]]
             (<["geojson-source-parks" := MapComponent.Source "geojson" JSON.JNull]> ∅) in
  let st := MapComponent.State None true None (Some m) None in
  let form := MapComponent.LayerStyleForm.State "#000000" MapComponent.one_half "#FFFFFF" in
  (MapComponent.on_click ["geojson-layer-parks"; "base"] ;;
   MapComponent.LayerStyleForm.handleSubmit
     (MapComponent.updateLayerStyle handleError_model) form) (st, fresh ∅)
  = (Ok tt,
     (MapComponent.State None true None
        (Some (MapComponent.MapInstance
                 [MapComponent.Layer "geojson-layer-parks" "fill" "geojson-source-parks"
                    [("fill-opacity", JSON.JNum MapComponent.one_half);
                     ("fill-color", JSON.JStr "#000000");
                     ("fill-outline-color", JSON.JStr "#FFFFFF")]]
                 (<["geojson-source-parks" :=
                      MapComponent.Source "geojson" JSON.JNull]> ∅)))
        None, fresh ∅)).
Proof.
  cbn zeta.
  etransitivity.
  - apply (proj2 (click_then_save_restyles handleError_model "parks" ["base"]
                    (MapComponent.LayerStyleForm.State "#000000" MapComponent.one_half
                       "#FFFFFF")
                    (MapComponent.State None true None
                       (Some (MapComponent.MapInstance
                          [MapComponent.Layer "geojson-layer-parks" "fill"
                             "geojson-source-parks"
                             [("fill-opacity", JSON.JNum MapComponent.one_half)]]
                          (<["geojson-source-parks" :=
                               MapComponent.Source "geojson" JSON.JNull]> ∅))) None)
                    (fresh ∅) _ eq_refl eq_refl)).
  - reflexivity.
Defined.

(** X22: the form starts from the paint the effect gives a new layer, so
    that saving it untouched on a layer that still has that paint changes
    nothing on the map and only clears the selection. *)
Theorem save_untouched_form
    (handleError : (option string -> Eff MapComponent.state unit) ->
                   string -> string -> Eff MapComponent.state unit)
    (fileName : string) (below : list string)
    (st : MapComponent.state) (b : browser) (m : MapComponent.map_instance) :
  MapComponent.map st = Some m ->
  MapComponent.has_layer ("geojson-layer-" +:+ fileName) m = true ->
  (forall l, l ∈ MapComponent.layers m ->
     MapComponent.id l = "geojson-layer-" +:+ fileName ->
     MapComponent.paint l
     = [("fill-color", JSON.JStr "#FF0000");
        ("fill-opacity", JSON.JNum MapComponent.one_half);
        ("fill-outline-color", JSON.JStr "#00FF00")]) ->
  (MapComponent.on_click (("geojson-layer-" +:+ fileName) :: below) ;;
   MapComponent.LayerStyleForm.handleSubmit
     (MapComponent.updateLayerStyle handleError)
     MapComponent.LayerStyleForm.initial) (st, b)
  = (Ok tt,
     (MapComponent.State (MapComponent.mapError st) (MapComponent.mapLoaded st)
        None (Some m) (MapComponent.tokenData st), b)).
Proof.
  intros Hm Hhas Hpaint.
  unfold mbind, Eff_bind. rewrite on_click_selects, Hm.
  unfold MapComponent.LayerStyleForm.handleSubmit.
  rewrite (updateLayerStyle_sets handleError fileName _ _ _ _ b m) by done.
  cbn [MapComponent.mapError MapComponent.mapLoaded MapComponent.tokenData
       MapComponent.LayerStyleForm.fillColor MapComponent.LayerStyleForm.fillOpacity
       MapComponent.LayerStyleForm.fillOutlineColor MapComponent.LayerStyleForm.initial].
  do 4 f_equal. destruct m as [ls srcs]. f_equal. cbn [MapComponent.layers] in *.
  clear Hm Hhas. induction ls as [|l ls IH]; [done|]. cbn [List.map].
  rewrite IH by (intros l' Hl'; apply Hpaint; by right). f_equal.
  destruct (String.eqb_spec (MapComponent.id l) ("geojson-layer-" +:+ fileName))
    as [E|_]; [|done].
  pose proof (Hpaint l (list_elem_of_here _ _) E) as Hl.
  destruct l as [i t src p]. cbn in Hl |- *. by subst p.
Qed.

Lemma save_untouched_form_witness :
  let m := MapComponent.MapInstance
             [MapComponent.Layer "geojson-layer-parks" "fill" "geojson-source-parks"
                [("fill-color", JSON.JStr "#FF0000");
                 ("fill-opacity", JSON.JNum MapComponent.one_half);
                 ("fill-outline-color", JSON.JStr "#00FF00")]]
             (<["geojson-source-parks" := MapComponent.Source "geojson" JSON.JNull]> ∅) in
  let st := MapComponent.State None true None (Some m) None in
  (MapComponent.on_click ["geojson-layer-parks"] ;;
   MapComponent.LayerStyleForm.handleSubmit
     (MapComponent.updateLayerStyle handleError_model)
     MapComponent.LayerStyleForm.initial) (st, fresh ∅)
  = (Ok tt, (st, fresh ∅)).
Proof.
  cbn zeta.
  apply (save_untouched_form handleError_model "parks" []
           (MapComponent.State None true None
              (Some (MapComponent.MapInstance
                 [MapComponent.Layer "geojson-layer-parks" "fill" "geojson-source-parks"
                    [("fill-color", JSON.JStr "#FF0000");
                     ("fill-opacity", JSON.JNum MapComponent.one_half);
                     ("fill-outline-color", JSON.JStr "#00FF00")]]
                 (<["geojson-source-parks" :=
                      MapComponent.Source "geojson" JSON.JNull]> ∅))) None)
           (fresh ∅) _ eq_refl eq_refl).
  intros l Hl _. cbn in Hl. by apply list_elem_of_singleton in Hl as ->.
Defined.

(** X23: the clean-up of the initialising effect drops the map instance and
    nothing else: the loaded flag and the selection stay as they were; and
    without a map instance the effect on the active files and the saving of
    the form do nothing. *)
Theorem cleanup_drops_the_map_only
    (handleError : (option string -> Eff MapComponent.state unit) ->
                   string -> string -> Eff MapComponent.state unit)
    (transformGeoJsonData : JSON.value -> option JSON.value)
    (activeFiles : list string) (fillColor : string) (fillOpacity : JSON.number)
    (fillOutlineColor : string) (st : MapComponent.state) (b : browser) :
  let st' := MapComponent.State (MapComponent.mapError st) (MapComponent.mapLoaded st)
               (MapComponent.selectedLayer st) None (MapComponent.tokenData st) in
  MapComponent.cleanup (st, b) = (Ok tt, (st', b)) /\
  MapComponent.sync handleError transformGeoJsonData activeFiles (st', b)
  = (Ok tt, (st', b)) /\
  MapComponent.updateLayerStyle handleError fillColor fillOpacity fillOutlineColor
    (st', b)
  = (Ok tt, (st', b)).
Proof.
  cbn zeta. split; [|by split].
  unfold MapComponent.cleanup, MapComponent.set_map.
  unfold get_state, set_state, mbind, mret, Eff_bind, Eff_ret. cbn [fst snd].
  destruct st as [e loaded sel [m|] t]; reflexivity.
Qed.

(** ** A remote upload on the map *)

Lemma parse_http (text : string) :
  JS.startsWith text "http" = true -> JSON.parse text = None.
Proof.
  intros H. destruct (startsWith_inv _ _ H) as [r ->].
  unfold JSON.parse. rewrite Nat.add_comm. reflexivity.
Qed.

Lemma add_active_logs_unreadable handleError transformGeoJsonData fileName
    (st : MapComponent.state) (b : browser) (m : MapComponent.map_instance)
    (c : ascii) (text : string) :
  MapComponent.map st = Some m ->
  MapComponent.sources m !! ("geojson-source-" +:+ fileName) = None ->
  localStorage b !! ("file:" +:+ fileName) = Some (String c text) ->
  JSON.parse (String c text) = None ->
  MapComponent.add_active handleError transformGeoJsonData fileName (st, b)
  = (Ok tt,
     (st, record (ConsoleError ("Error processing GeoJSON data for file "
                                +:+ fileName +:+ ":")) b)).
Proof.
  intros Hm Hsrc Hentry Hbad.
  unfold MapComponent.add_active, MapComponent.getSource, MapComponent.the_map.
  eff. rewrite Hm. cbn. rewrite Hsrc. cbn. rewrite Hentry. cbn.
  rewrite Hbad. reflexivity.
Qed.

(** X24: what a remote upload leaves under 'file:' + layer name is the URL
    the endpoint answered, and a URL is not JSON: when that layer is made
    active, the effect of the map logs an error for it and adds neither a
    source nor a layer.  For any storage helper that stores the value under
    the key. *)
Theorem remote_upload_is_not_shown
    (safeSetItem : string -> string -> browser -> browser)
    (handleError : (option string -> Eff MapComponent.state unit) ->
                   string -> string -> Eff MapComponent.state unit)
    (transformGeoJsonData : JSON.value -> option JSON.value)
    (layerName u : string) (resp : response) (result jsonData : JSON.value)
    (st : Home.state) (b : browser)
    (stM : MapComponent.state) (m : MapComponent.map_instance) :
  (forall key value b0,
     localStorage (safeSetItem key value b0) = <[key := value]> (localStorage b0)) ->
  JSON.parse (Home.currentUploadedFileContent st) = Some jsonData ->
  ok resp = true ->
  JSON.parse (body resp) = Some result ->
  JS.get_property result "url" = Some (Some (JSON.JStr u)) ->
  JS.startsWith u "http" = true ->
  MapComponent.map stM = Some m ->
  MapComponent.sources m !! ("geojson-source-" +:+ layerName) = None ->
  let b' := snd (run (Home.handleLayerNameConfirm safeSetItem layerName true
                        (Resolved resp)) st b) in
  localStorage b' !! ("file:" +:+ layerName) = Some u /\
  MapComponent.add_active handleError transformGeoJsonData layerName (stM, b')
  = (Ok tt,
     (stM, record (ConsoleError ("Error processing GeoJSON data for file "
                                 +:+ layerName +:+ ":")) b')).
Proof.
  intros Hset Hp Hok Hres Hurl Hhttp Hm Hsrc b'.
  assert (Hentry : localStorage b' !! ("file:" +:+ layerName) = Some u).
  { subst b'.
    unfold Home.handleLayerNameConfirm, Home.upload, Home.setIsModalOpen,
      Home.setCurrentUploadedFileName, Home.setCurrentUploadedFileContent,
      Home.setUploadError, Home.setUploadedFiles.
    eff. rewrite Hp. cbn. rewrite Hok. cbn. rewrite Hres. cbn. rewrite Hurl. cbn.
    rewrite !Hset. rewrite lookup_insert_ne by done. apply lookup_insert_eq. }
  split; [exact Hentry|].
  destruct (startsWith_inv _ _ Hhttp) as [r Hu].
  assert (Hcons : u = String "h" ("ttp" +:+ r)) by (by rewrite Hu).
  rewrite Hcons in Hentry.
  apply (add_active_logs_unreadable handleError transformGeoJsonData layerName
           stM b' m "h" ("ttp" +:+ r) Hm Hsrc Hentry).
  rewrite <- Hcons. by apply parse_http.
Qed.

Lemma remote_upload_is_not_shown_witness :
  let resp := Response true 200 "OK"
                (JSON.stringify (JSON.JObj [("url", JSON.JStr "https://bucket/parks")])) in
  let st := Home.State false ["roads"] [] [] false true "parks.json" "[1]" None 0 in
  let stM := MapComponent.State None true None
               (Some (MapComponent.MapInstance [] ∅)) None in
  let b' := snd (run (Home.handleLayerNameConfirm FileHandler.safeSetItem "parks" true
                        (Resolved resp)) st (fresh ∅)) in
  localStorage b' !! "file:parks" = Some "https://bucket/parks" /\
  MapComponent.add_active handleError_model (fun v => Some v) "parks" (stM, b')
  = (Ok tt,
     (stM, record (ConsoleError "Error processing GeoJSON data for file parks:") b')).
Proof.
  cbn zeta.
  eapply (remote_upload_is_not_shown FileHandler.safeSetItem handleError_model
            (fun v => Some v) "parks" "https://bucket/parks"
            (Response true 200 "OK"
               (JSON.stringify (JSON.JObj [("url", JSON.JStr "https://bucket/parks")])))
            (JSON.JObj [("url", JSON.JStr "https://bucket/parks")])
            (JSON.JArr [JSON.JNum (JSON.Number false [JSON.d1] 1)])).
  - reflexivity.
  - vm_compute. reflexivity.
  - reflexivity.
  - vm_compute. reflexivity.
  - reflexivity.
  - reflexivity.
  - reflexivity.
  - reflexivity.
Defined.

(** ** Tooltips (first revision) *)

(** X25: for a picked feature whose properties hold a non-empty name and
    type, the tooltip of the DeckGL component is the name, a line break and
    'Type: ' with the type; a name or type that is missing reads 'Unnamed
    Feature' or 'Unknown'.  A feature without a properties member makes it
    end with a TypeError, where [renderTooltip], which reads the name and
    the type through optional chaining, shows 'Unnamed Feature' and 'Type:
    Unknown'; where nothing is picked neither shows anything. *)
Theorem tooltip_of_feature (members properties : list (string * JSON.value))
    (name type : string) (info : HomeDeck.HoverInfo) (s : HomeDeck.state * browser) :
  (JS.lookup_member "properties" members = Some (JSON.JObj properties) ->
   JS.lookup_member "name" properties = Some (JSON.JStr name) -> name <> "" ->
   JS.lookup_member "type" properties = Some (JSON.JStr type) -> type <> "" ->
   HomeDeck.getTooltip (Some (JSON.JObj members)) s
   = (Ok (Some (name +:+ String "010" "Type: " +:+ type)), s)) /\
  (JS.lookup_member "properties" members = Some (JSON.JObj properties) ->
   JS.lookup_member "name" properties = None ->
   JS.lookup_member "type" properties = None ->
   HomeDeck.getTooltip (Some (JSON.JObj members)) s
   = (Ok (Some ("Unnamed Feature" +:+ String "010" "Type: Unknown")), s)) /\
  (JS.lookup_member "properties" members = None ->
   HomeDeck.getTooltip (Some (JSON.JObj members)) s = (Raised "TypeError", s) /\
   (HomeDeck.object info = Some (JSON.JObj members) ->
    HomeDeck.renderTooltip (Some info)
    = Some {| HomeDeck.left := HomeDeck.x info;
              HomeDeck.top := HomeDeck.y info;
              HomeDeck.name_shown := Some (JSON.JStr "Unnamed Feature");
              HomeDeck.type_line := "Type: Unknown" |})) /\
  HomeDeck.getTooltip None s = (Ok None, s) /\
  (HomeDeck.object info = None -> HomeDeck.renderTooltip (Some info) = None).
Proof.
  unfold HomeDeck.getTooltip, HomeDeck.renderTooltip, JS.get_optional, JS.get,
    JS.get_property, JS.or_else.
  unfold read, or_throw, throw, mbind, mret, Eff_bind, Eff_ret.
  cbn [JS.truthy_value negb].
  split; [|split; [|split; [|split]]].
  - intros -> -> Hname -> Htype. cbn.
    destruct name; [done|]. destruct type; [done|]. reflexivity.
  - intros -> -> ->. reflexivity.
  - intros Hnone. rewrite Hnone. split; [reflexivity|].
    intros ->. cbn. by rewrite Hnone.
  - reflexivity.
  - intros ->. reflexivity.
Qed.

Lemma tooltip_of_feature_witness :
  let feature :=
    JSON.JObj [("type", JSON.JStr "Feature");
               ("properties", JSON.JObj [("name", JSON.JStr "A40");
                                         ("type", JSON.JStr "road")])] in
  let bare := [("type", JSON.JStr "Feature")] in
  HomeDeck.getTooltip (Some feature) (HomeDeck.initial, fresh ∅)
  = (Ok (Some ("A40" +:+ String "010" "Type: road")), (HomeDeck.initial, fresh ∅)) /\
  HomeDeck.getTooltip (Some (JSON.JObj bare)) (HomeDeck.initial, fresh ∅)
  = (Raised "TypeError", (HomeDeck.initial, fresh ∅)).
Proof.
  cbn zeta. split.
  - apply (proj1 (tooltip_of_feature
                    [("type", JSON.JStr "Feature");
                     ("properties", JSON.JObj [("name", JSON.JStr "A40");
                                               ("type", JSON.JStr "road")])]
                    [("name", JSON.JStr "A40"); ("type", JSON.JStr "road")]
                    "A40" "road"
                    {| HomeDeck.x := JSON.Number false [] 0;
                       HomeDeck.y := JSON.Number false [] 0;
                       HomeDeck.object := None |}
                    (HomeDeck.initial, fresh ∅))); done.
  - apply (proj1 (proj2 (proj2 (tooltip_of_feature
                    [("type", JSON.JStr "Feature")] [] "" ""
                    {| HomeDeck.x := JSON.Number false [] 0;
                       HomeDeck.y := JSON.Number false [] 0;
                       HomeDeck.object := None |}
                    (HomeDeck.initial, fresh ∅)))) eq_refl).
Defined.

(** ** Uploading and deleting a file by name (first revision) *)

Lemma handleFileUpload_appends (fileName : string) (st : HomeDeck.state) (b : browser) :
  HomeDeck.handleFileUpload fileName (st, b)
  = (Ok tt,
     (HomeDeck.State (HomeDeck.sidebarOpen st) (HomeDeck.activeLayers st)
        (HomeDeck.uploadedFiles st ++ [fileName]) (HomeDeck.activeFiles st)
        (HomeDeck.isDragging st) (HomeDeck.dragCounter st),
      storage_set "uploadedFiles"
        (JSON.stringify (JS.string_array (HomeDeck.uploadedFiles st ++ [fileName])))
        b)).
Proof. reflexivity. Qed.

Lemma handleFileDelete_filters (fileName : string) (st : HomeDeck.state) (b : browser) :
  HomeDeck.handleFileDelete fileName (st, b)
  = (Ok tt,
     (HomeDeck.State (HomeDeck.sidebarOpen st) (HomeDeck.activeLayers st)
        (filter (fun file => file <> fileName) (HomeDeck.uploadedFiles st))
        (filter (fun file => file <> fileName) (HomeDeck.activeFiles st))
        (HomeDeck.isDragging st) (HomeDeck.dragCounter st),
      storage_set "activeFiles"
        (JSON.stringify
           (JS.string_array
              (filter (fun file => file <> fileName) (HomeDeck.activeFiles st))))
        (storage_set "uploadedFiles"
           (JSON.stringify
              (JS.string_array
                 (filter (fun file => file <> fileName) (HomeDeck.uploadedFiles st))))
           b))).
Proof. reflexivity. Qed.

(** X26: an upload by name appends the name even when it is listed already,
    and one deletion takes every copy out: after any number of uploads of a
    name that was not listed, a single deletion gives back the uploaded files
    there were, in the state and under 'uploadedFiles'. *)
Theorem upload_then_delete (fileName : string) (n : nat)
    (st : HomeDeck.state) (b : browser) :
  fileName ∉ HomeDeck.uploadedFiles st ->
  let r := (forEach (replicate n fileName) HomeDeck.handleFileUpload ;;
            HomeDeck.handleFileDelete fileName) (st, b) in
  let uploaded := fst (snd (forEach (replicate n fileName)
                              HomeDeck.handleFileUpload (st, b))) in
  HomeDeck.uploadedFiles uploaded = HomeDeck.uploadedFiles st ++ replicate n fileName /\
  fst r = Ok tt /\
  HomeDeck.uploadedFiles (fst (snd r)) = HomeDeck.uploadedFiles st /\
  holds (localStorage (snd (snd r))) "uploadedFiles" (HomeDeck.uploadedFiles st).
Proof.
  intros Hout. cbn zeta.
  assert (Huploads : forall k st0 b0, exists b1,
    forEach (replicate k fileName) HomeDeck.handleFileUpload (st0, b0)
    = (Ok tt,
       (HomeDeck.State (HomeDeck.sidebarOpen st0) (HomeDeck.activeLayers st0)
          (HomeDeck.uploadedFiles st0 ++ replicate k fileName)
          (HomeDeck.activeFiles st0) (HomeDeck.isDragging st0)
          (HomeDeck.dragCounter st0), b1))).
  { induction k as [|k IH]; intros st0 b0.
    - exists b0. destruct st0. cbn. by rewrite app_nil_r.
    - simpl replicate. simpl forEach. unfold mbind, Eff_bind.
      rewrite handleFileUpload_appends.
      destruct (IH
        (HomeDeck.State (HomeDeck.sidebarOpen st0) (HomeDeck.activeLayers st0)
           (HomeDeck.uploadedFiles st0 ++ [fileName]) (HomeDeck.activeFiles st0)
           (HomeDeck.isDragging st0) (HomeDeck.dragCounter st0))
        (storage_set "uploadedFiles"
           (JSON.stringify (JS.string_array (HomeDeck.uploadedFiles st0 ++ [fileName])))
           b0)) as [b1 E].
      exists b1. rewrite E. cbn. by rewrite <- app_assoc. }
  destruct (Huploads n st b) as [b1 E].
  unfold mbind, Eff_bind. rewrite E. cbn [fst snd HomeDeck.uploadedFiles].
  split; [done|]. rewrite handleFileDelete_filters.
  cbn [fst snd HomeDeck.uploadedFiles].
  assert (Hback : filter (fun file => file <> fileName)
                    (HomeDeck.uploadedFiles st ++ replicate n fileName)
                  = HomeDeck.uploadedFiles st).
  { rewrite filter_app, (filter_ne_absent _ _ Hout).
    clear. induction n as [|n IH]; [by rewrite app_nil_r|].
    cbn [replicate]. by rewrite filter_cons_False by (intros H; by apply H). }
  rewrite Hback. split; [done|]. split; [done|].
  apply holds_insert_ne; [done|]. apply holds_insert.
Qed.

Lemma upload_then_delete_witness :
  let st := HomeDeck.State false ["roads"] ["lakes"] [] false 0 in
  let r := (forEach (replicate 2 "parks") HomeDeck.handleFileUpload ;;
            HomeDeck.handleFileDelete "parks") (st, fresh ∅) in
  HomeDeck.uploadedFiles
    (fst (snd (forEach (replicate 2 "parks") HomeDeck.handleFileUpload (st, fresh ∅))))
  = ["lakes"; "parks"; "parks"] /\
  fst r = Ok tt /\
  HomeDeck.uploadedFiles (fst (snd r)) = ["lakes"] /\
  holds (localStorage (snd (snd r))) "uploadedFiles" ["lakes"].
Proof.
  apply (upload_then_delete "parks" 2
           (HomeDeck.State false ["roads"] ["lakes"] [] false 0) (fresh ∅)).
  rewrite <- includes_not_elem_of. reflexivity.
Defined.

(** ** The tile URL *)

Lemma append_comma_inj (a a' r r' : string) :
  comma_free a = true -> comma_free a' = true ->
  a +:+ String "," r = a' +:+ String "," r' -> a = a' /\ r = r'.
Proof.
  revert a'. induction a as [|c a IH]; intros [|c' a'] Ha Ha' E; cbn in *.
  - by injection E.
  - injection E as <- _. by rewrite Ascii.eqb_refl in Ha'.
  - injection E as -> _. by rewrite Ascii.eqb_refl in Ha.
  - injection E as <- E.
    apply andb_prop in Ha as [_ Ha]. apply andb_prop in Ha' as [_ Ha'].
    destruct (IH a' Ha Ha' E) as [-> ->]. done.
Qed.

Lemma comma_free_no_tail (a a' r : string) :
  comma_free a = true -> a <> a' +:+ String "," r.
Proof.
  revert a'. induction a as [|c a IH]; intros [|c' a'] Ha E; cbn in *; try done.
  - injection E as -> _. by rewrite Ascii.eqb_refl in Ha.
  - injection E as <- E. apply andb_prop in Ha as [_ Ha]. by apply (IH a').
Qed.

Lemma join_comma_inj (l l' : list string) :
  plain_names l -> plain_names l' -> JS.join "," l = JS.join "," l' -> l = l'.
Proof.
  revert l'. induction l as [|a l IH]; intros l' Hl Hl' E.
  - destruct l' as [|a' l']; [done|].
    apply Forall_cons in Hl' as [[Ha' _] _].
    destruct l'; cbn in E; [by subst|]. by destruct a'.
  - apply Forall_cons in Hl as [[Ha Hca] Hl].
    destruct l' as [|a' l'].
    { destruct l; cbn in E; [by subst|]. by destruct a. }
    apply Forall_cons in Hl' as [[Ha' Hca'] Hl'].
    destruct l as [|x l], l' as [|x' l'].
    + cbn in E. by subst.
    + exfalso. exact (comma_free_no_tail a a' _ Hca E).
    + exfalso. symmetry in E. exact (comma_free_no_tail a' a _ Hca' E).
    + change (JS.join "," (a :: x :: l))
        with (a +:+ String "," (JS.join "," (x :: l))) in E.
      change (JS.join "," (a' :: x' :: l'))
        with (a' +:+ String "," (JS.join "," (x' :: l'))) in E.
      destruct (append_comma_inj _ _ _ _ Hca Hca' E) as [-> E'].
      f_equal. by apply IH.
Qed.

(** X27: the data URL of the tile layer tells the selections apart: two lists
    of active layers whose names are not empty and hold no comma, such as
    the two layer names of the page, give the same URL only if they are the
    same list, in the same order. *)
Theorem mvtLayer_data_tells_selections_apart (s s' : HomeDeck.state) :
  plain_names (HomeDeck.activeLayers s) ->
  plain_names (HomeDeck.activeLayers s') ->
  HomeDeck.mvtLayer_data s = HomeDeck.mvtLayer_data s' ->
  HomeDeck.activeLayers s = HomeDeck.activeLayers s'.
Proof.
  intros Hs Hs' E. apply join_comma_inj; [done|done|].
  unfold HomeDeck.mvtLayer_data in E.
  cbn in E. by simplify_eq.
Qed.

Lemma mvtLayer_data_tells_selections_apart_witness :
  let s := HomeDeck.State false ["roads"; "buildings"] [] [] false 0 in
  let s' := HomeDeck.State true ["roads"; "buildings"] ["parks"] [] false 1 in
  plain_names (HomeDeck.activeLayers s) /\
  HomeDeck.mvtLayer_data s = HomeDeck.mvtLayer_data s' /\
  HomeDeck.activeLayers s = HomeDeck.activeLayers s'.
Proof.
  cbn zeta.
  assert (Hplain : plain_names ["roads"; "buildings"]) by (repeat constructor; done).
  split; [exact Hplain|]. split; [reflexivity|].
  apply (mvtLayer_data_tells_selections_apart
           (HomeDeck.State false ["roads"; "buildings"] [] [] false 0)
           (HomeDeck.State true ["roads"; "buildings"] ["parks"] [] false 1)
           Hplain Hplain eq_refl).
Defined.

(** ** Before the map has loaded, and a file without an entry *)

(** X28: without a container element [initMap] does nothing, and does not ask
    for a token.  With one, whatever the token retrieval does on its way to
    returning (it may keep the token, set the error message, record its
    request), the created instance is kept and nothing else changes.  If the
    loaded flag is down after that, the effect on the active files adds
    nothing, whatever they are, until the load event has set the flag.  The
    flag is state of the component, not of the instance: if it is still up,
    as the clean-up before a new initialisation leaves it, the effect does
    not wait for the load event of the new instance and runs its two passes
    on it. *)
Theorem effect_waits_for_load_flag
    (handleError : (option string -> Eff MapComponent.state unit) ->
                   string -> string -> Eff MapComponent.state unit)
    (getValidToken : Eff MapComponent.state (option string))
    (transformGeoJsonData : JSON.value -> option JSON.value)
    (activeFiles : list string) (created : MapComponent.map_instance + string)
    (m : MapComponent.map_instance) (token : option string)
    (s s1 : MapComponent.state * browser) :
  getValidToken s = (Ok token, s1) ->
  let s2 := (MapComponent.State (MapComponent.mapError (fst s1))
               (MapComponent.mapLoaded (fst s1))
               (MapComponent.selectedLayer (fst s1)) (Some m)
               (MapComponent.tokenData (fst s1)), snd s1) in
  MapComponent.initMap handleError getValidToken false created s = (Ok tt, s) /\
  MapComponent.initMap handleError getValidToken true (inl m) s = (Ok tt, s2) /\
  (MapComponent.mapLoaded (fst s1) = false ->
   MapComponent.sync handleError transformGeoJsonData activeFiles s2
   = (Ok tt, s2)) /\
  (MapComponent.mapLoaded (fst s1) = true ->
   MapComponent.sync handleError transformGeoJsonData activeFiles s2
   = (forEach (MapComponent.layers m)
        (MapComponent.remove_inactive handleError activeFiles) ;;
      forEach activeFiles
        (MapComponent.add_active handleError transformGeoJsonData)) s2) /\
  MapComponent.mapLoaded (fst (snd (MapComponent.on_load s2))) = true /\
  (forall st b,
     MapComponent.mapLoaded (fst (snd (MapComponent.cleanup (st, b))))
     = MapComponent.mapLoaded st).
Proof.
  intros Htoken. cbn zeta.
  split; [reflexivity|]. split; [|split; [|split; [|split]]].
  - unfold MapComponent.initMap, MapComponent.set_map.
    unfold try_catch, get_state, set_state, mbind, mret, Eff_bind, Eff_ret.
    cbn [negb]. rewrite Htoken. by destruct s1.
  - intros Hdown. unfold MapComponent.sync. eff. by rewrite Hdown.
  - intros Hup. unfold MapComponent.sync at 1.
    unfold get_state, mbind at 1, Eff_bind at 1. cbn. by rewrite Hup.
  - reflexivity.
  - intros st b. unfold MapComponent.cleanup, MapComponent.set_map. eff.
    by destruct (MapComponent.map st).
Qed.

Lemma effect_waits_for_load_flag_witness :
  let m := MapComponent.MapInstance [MapComponent.Layer "base" "raster" "tiles" []]
             (<["tiles" := MapComponent.Source "raster" JSON.JNull]> ∅) in
  let kept := Some {| MapComponent.access_token := "t0k3n" |} in
  let getValidToken : Eff MapComponent.state (option string) :=
    fun s => (Ok (Some "t0k3n"),
              (MapComponent.State (MapComponent.mapError (fst s))
                 (MapComponent.mapLoaded (fst s))
                 (MapComponent.selectedLayer (fst s)) (MapComponent.map (fst s))
                 kept,
               record (Fetch "/api/token" "GET" "") (snd s))) in
  (MapComponent.initMap handleError_model getValidToken true (inl m) ;;
   MapComponent.sync handleError_model (fun v => Some v) ["parks"])
    (MapComponent.initial, fresh ∅)
  = (Ok tt, (MapComponent.State None false None (Some m) kept,
             record (Fetch "/api/token" "GET" "") (fresh ∅))).
Proof.
  intros m kept getValidToken.
  destruct (effect_waits_for_load_flag handleError_model getValidToken
              (fun v => Some v) ["parks"] (inr "unused") m (Some "t0k3n")
              (MapComponent.initial, fresh ∅)
              (MapComponent.State None false None None kept,
               record (Fetch "/api/token" "GET" "") (fresh ∅))
              eq_refl)
    as (_ & Hinit & Hsync & _).
  unfold mbind, Eff_bind. rewrite Hinit. exact (Hsync eq_refl).
Defined.

Lemma add_active_logs_missing handleError transformGeoJsonData fileName
    (st : MapComponent.state) (b : browser) (m : MapComponent.map_instance) :
  MapComponent.map st = Some m ->
  MapComponent.sources m !! ("geojson-source-" +:+ fileName) = None ->
  localStorage b !! ("file:" +:+ fileName) = None ->
  MapComponent.add_active handleError transformGeoJsonData fileName (st, b)
  = (Ok tt,
     (st, record (ConsoleError ("No data found in localStorage for file: "
                                +:+ fileName)) b)).
Proof.
  intros Hm Hsrc Hentry.
  unfold MapComponent.add_active, MapComponent.getSource, MapComponent.the_map.
  eff. rewrite Hm. cbn. rewrite Hsrc. cbn. rewrite Hentry. reflexivity.
Qed.

(** X29: the active files are handled one by one: for a file that has no
    entry in local storage the effect logs that no data was found and goes
    on, and a file after it whose entry is readable still gets its source
    and its layer.  On a loaded map with the layers of the base style. *)
Theorem sync_goes_on_after_missing_file
    (handleError : (option string -> Eff MapComponent.state unit) ->
                   string -> string -> Eff MapComponent.state unit)
    (transformGeoJsonData : JSON.value -> option JSON.value)
    (missing fileName : string) (st : MapComponent.state) (b : browser)
    (m : MapComponent.map_instance) (c : ascii) (text : string)
    (v d : JSON.value) (g : option JSON.value) :
  MapComponent.map st = Some m ->
  MapComponent.mapLoaded st = true ->
  (forall l, l ∈ MapComponent.layers m ->
     JS.startsWith (MapComponent.id l) "geojson-layer-" = false) ->
  MapComponent.sources m !! ("geojson-source-" +:+ missing) = None ->
  MapComponent.sources m !! ("geojson-source-" +:+ fileName) = None ->
  localStorage b !! ("file:" +:+ missing) = None ->
  localStorage b !! ("file:" +:+ fileName) = Some (String c text) ->
  JSON.parse (String c text) = Some v ->
  transformGeoJsonData v = Some d ->
  MapComponent.first_feature_geometry d = Some g ->
  MapComponent.sync handleError transformGeoJsonData [missing; fileName] (st, b)
  = (Ok tt,
     (MapComponent.State (MapComponent.mapError st) true (MapComponent.selectedLayer st)
        (Some (MapComponent.MapInstance
                 (MapComponent.layers m ++
                  [MapComponent.Layer ("geojson-layer-" +:+ fileName) "fill"
                     ("geojson-source-" +:+ fileName)
                     [("fill-color", JSON.JStr "#FF0000");
                      ("fill-opacity", JSON.JNum MapComponent.one_half);
                      ("fill-outline-color", JSON.JStr "#00FF00")]])
                 (<["geojson-source-" +:+ fileName := MapComponent.Source "geojson" d]>
                    (MapComponent.sources m))))
        (MapComponent.tokenData st),
      record (ConsoleError ("No data found in localStorage for file: " +:+ missing)) b)).
Proof.
  intros Hm Hloaded Hbase Hfree1 Hfree2 Hnone Hentry Hparse Htransform Hfirst.
  assert (Hids : forall l, l ∈ MapComponent.layers m ->
                   MapComponent.id l <> "geojson-layer-" +:+ fileName)
    by (intros l Hl; by apply prefix_differs, Hbase).
  unfold MapComponent.sync.
  unfold get_state, mbind at 1, Eff_bind. cbn [fst snd].
  rewrite Hm, Hloaded. cbn [negb]. unfold mbind, Eff_bind.
  rewrite forEach_skips
    by (intros l Hl; apply remove_inactive_skips; left; by apply Hbase).
  simpl forEach. unfold mbind, Eff_bind.
  rewrite (add_active_logs_missing handleError transformGeoJsonData missing st b m
             Hm Hfree1 Hnone).
  rewrite (add_active_adds handleError transformGeoJsonData fileName st
             (record (ConsoleError ("No data found in localStorage for file: "
                                    +:+ missing)) b)
             m c text v d g Hm Hfree2 (has_layer_absent _ _ Hids) Hentry Hparse
             Htransform Hfirst).
  cbn zeta. by rewrite Hloaded.
Qed.

Lemma sync_goes_on_after_missing_file_witness :
  let collection :=
    JSON.JObj [("type", JSON.JStr "FeatureCollection");
               ("features",
                JSON.JArr [JSON.JObj [("type", JSON.JStr "Feature");
                                      ("geometry", JSON.JNull)]])] in
  let st := MapComponent.State None true None
              (Some (MapComponent.MapInstance [] ∅)) None in
  let b := fresh (<["file:parks" := JSON.stringify collection]> ∅) in
  exists st',
    MapComponent.sync handleError_model (fun v => Some v) ["lakes"; "parks"] (st, b)
    = (Ok tt,
       (st', record (ConsoleError "No data found in localStorage for file: lakes") b)).
Proof.
  cbn zeta. eexists.
  eapply (sync_goes_on_after_missing_file handleError_model (fun v => Some v)
            "lakes" "parks" _ _ _ "{" _ _ _ (Some JSON.JNull)).
  - reflexivity.
  - reflexivity.
  - intros l Hl. by apply elem_of_nil in Hl.
  - reflexivity.
  - reflexivity.
  - vm_compute. reflexivity.
  - vm_compute. reflexivity.
  - vm_compute. reflexivity.
  - reflexivity.
  - vm_compute. reflexivity.
Defined.
